(** * Grademark: the bar-driven backtester and the trade analyzer

    A shallow embedding of [src/lib/backtest.ts] (functions
    [updatePosition], [finalizePosition], [backtest] with its nested
    closures) and of the analyzer ([analyze]).

    Numbers.  A JavaScript number is modelled by [num]: an exact rational,
    or one of the three special values [NaN], [+Infinity], [-Infinity].
    Division by zero, [0/0], [Infinity - Infinity] and the comparisons
    with [NaN] behave as in JavaScript.  Rounding to 53 bits, overflow and
    the sign of a zero are not modelled: finite arithmetic is exact and a
    zero divisor is read as [+0].  For that reason the theorems on computed
    figures equate them with the code's own expression, operation for
    operation, and never with an algebraic rearrangement of it; a
    hypothesis that a figure is finite is a hypothesis on the figure the
    code computes.  Module [Binary64] repeats the fee formula on binary64
    numbers to show a rearrangement that rounding tells apart. *)

From Stdlib Require Import ZArith QArith Qround Qabs Bool List String Lqa.
From Stdlib Require Import Floats.PrimFloat.
Import ListNotations.

Set Implicit Arguments.

(** ** JavaScript numbers *)

Module Num.

Inductive num : Type :=
| NaN
| PInf
| NInf
| Fin (q : Q).

Definition of_Z (z : Z) : num := Fin (inject_Z z).
Definition of_nat (n : nat) : num := of_Z (Z.of_nat n).

Definition zero : num := of_Z 0.

Definition is_finite (x : num) : bool :=
  match x with Fin _ => true | _ => false end.

(** Sign of a rational: [Gt] positive, [Eq] zero, [Lt] negative. *)
Definition Qsign (q : Q) : comparison := (0 ?= q)%Q.

Definition Qlt_bool (a b : Q) : bool := negb (Qle_bool b a).

Definition add (x y : num) : num :=
  match x, y with
  | NaN, _ | _, NaN => NaN
  | PInf, NInf | NInf, PInf => NaN
  | PInf, _ | _, PInf => PInf
  | NInf, _ | _, NInf => NInf
  | Fin a, Fin b => Fin (Qred (a + b))
  end.

Definition sub (x y : num) : num :=
  match x, y with
  | NaN, _ | _, NaN => NaN
  | PInf, PInf | NInf, NInf => NaN
  | PInf, _ | _, NInf => PInf
  | NInf, _ | _, PInf => NInf
  | Fin a, Fin b => Fin (Qred (a - b))
  end.

(** An infinity of the sign of [q] times the sign [pos]; [NaN] at zero. *)
Definition inf_of_sign (pos : bool) (q : Q) : num :=
  match Qsign q with
  | Eq => NaN
  | Lt => if pos then PInf else NInf
  | Gt => if pos then NInf else PInf
  end.

Definition mul (x y : num) : num :=
  match x, y with
  | NaN, _ | _, NaN => NaN
  | PInf, PInf | NInf, NInf => PInf
  | PInf, NInf | NInf, PInf => NInf
  | PInf, Fin q | Fin q, PInf => inf_of_sign true q
  | NInf, Fin q | Fin q, NInf => inf_of_sign false q
  | Fin a, Fin b => Fin (Qred (a * b))
  end.

Definition div (x y : num) : num :=
  match x, y with
  | NaN, _ | _, NaN => NaN
  | PInf, Fin q => if Qlt_bool q 0 then NInf else PInf
  | NInf, Fin q => if Qlt_bool q 0 then PInf else NInf
  | Fin _, PInf | Fin _, NInf => zero
  | Fin a, Fin b =>
      if Qeq_bool b 0 then inf_of_sign true a else Fin (Qred (a / b))
  | _, _ => NaN
  end.

(** Relational operators: every comparison with [NaN] is [false]. *)
Definition le (x y : num) : bool :=
  match x, y with
  | NaN, _ | _, NaN => false
  | NInf, _ | _, PInf => true
  | PInf, _ | _, NInf => false
  | Fin a, Fin b => Qle_bool a b
  end.

Definition lt (x y : num) : bool :=
  match x, y with
  | NaN, _ | _, NaN => false
  | PInf, _ | _, NInf => false
  | NInf, _ | _, PInf => true
  | Fin a, Fin b => Qlt_bool a b
  end.

Definition ge (x y : num) : bool := le y x.
Definition gt (x y : num) : bool := lt y x.

(** [===] on two numbers. *)
Definition eqb (x y : num) : bool :=
  match x, y with
  | PInf, PInf | NInf, NInf => true
  | Fin a, Fin b => Qeq_bool a b
  | _, _ => false
  end.

(** ToBoolean: [0] and [NaN] are falsy. *)
Definition truthy (x : num) : bool :=
  match x with
  | NaN => false
  | Fin q => negb (Qeq_bool q 0)
  | _ => true
  end.

Definition Math_min (x y : num) : num :=
  match x, y with
  | NaN, _ | _, NaN => NaN
  | _, _ => if le x y then x else y
  end.

Definition Math_max (x y : num) : num :=
  match x, y with
  | NaN, _ | _, NaN => NaN
  | _, _ => if le x y then y else x
  end.

Definition Math_abs (x : num) : num :=
  match x with
  | NaN => NaN
  | PInf | NInf => PInf
  | Fin q => Fin (Qred (Qabs q))
  end.

Definition Math_floor (x : num) : num :=
  match x with
  | Fin q => of_Z (Qfloor q)
  | _ => x
  end.

(** [Math.round] rounds half-way cases up: [floor (x + 1/2)]. *)
Definition Math_round (x : num) : num :=
  match x with
  | Fin q => of_Z (Qfloor (q + (1 # 2)))
  | _ => x
  end.

(** The integer a finite integral number denotes. *)
Definition to_Z (x : num) : option Z :=
  match x with
  | Fin q => if Qeq_bool (inject_Z (Qfloor q)) q then Some (Qfloor q) else None
  | _ => None
  end.

End Num.

Export Num.

Declare Scope num_scope.
Delimit Scope num_scope with num.
Bind Scope num_scope with num.
Infix "+" := Num.add : num_scope.
Infix "-" := Num.sub : num_scope.
Infix "*" := Num.mul : num_scope.
Infix "/" := Num.div : num_scope.
Infix "<=?" := Num.le : num_scope.
Infix "<?" := Num.lt : num_scope.
Infix ">=?" := Num.ge : num_scope.
Infix ">?" := Num.gt : num_scope.
Number Notation Num.num Num.of_Z Num.to_Z : num_scope.

Local Open Scope string_scope.
Local Open Scope list_scope.
Local Open Scope num_scope.

(** ** Dates

    A [Date] holds a time value in milliseconds: an integer, or [NaN] for
    an invalid date.  [new Date(v)] clips its argument (TimeClip). *)

Record Date : Type := mkDate { getTime : num }.

Definition TimeClip (v : num) : num :=
  match v with
  | Fin q =>
      if Qle_bool (Qabs q) (inject_Z 8640000000000000)
      then of_Z (Z.quot (Qnum q) (Zpos (Qden q)))
      else NaN
  | _ => NaN
  end.

Definition new_Date (v : num) : Date := mkDate (TimeClip v).

(** ** Data model *)

Inductive TradeDirection : Type := Long | Short.

Record ITimestampedValue : Type := mkSample { time : Date; value : num }.

Module Bar.
Record IBar : Type := mkBar {
  time : Date;
  open : num;
  high : num;
  low : num;
  close : num;
}.
End Bar.
Abbreviation IBar := Bar.IBar.

Set Primitive Projections.

Module Position.
Record IPosition : Type := mkPosition {
  direction : TradeDirection;
  entryTime : Date;
  entryPrice : num;
  growth : num;
  profit : num;
  profitPct : num;
  holdingPeriod : nat;
  curRateOfReturn : num;
  runUp : num;
  initialStopPrice : option num;
  curStopPrice : option num;
  initialUnitRisk : option num;
  initialRiskPct : option num;
  curRiskPct : option num;
  curRMultiple : option num;
  profitTarget : option num;
  riskSeries : option (list ITimestampedValue);
  rateOfReturnSeries : option (list ITimestampedValue);
  stopPriceSeries : option (list ITimestampedValue);
}.

(** Field assignments [position.f = v]. *)
Definition set_growth (v : num) (p : IPosition) : IPosition :=
  let 'mkPosition a b c _ e f g h i j k l m n o q r s t := p in
  mkPosition a b c v e f g h i j k l m n o q r s t.
Definition set_profit (v : num) (p : IPosition) : IPosition :=
  let 'mkPosition a b c d _ f g h i j k l m n o q r s t := p in
  mkPosition a b c d v f g h i j k l m n o q r s t.
Definition set_profitPct (v : num) (p : IPosition) : IPosition :=
  let 'mkPosition a b c d e _ g h i j k l m n o q r s t := p in
  mkPosition a b c d e v g h i j k l m n o q r s t.
Definition set_holdingPeriod (v : nat) (p : IPosition) : IPosition :=
  let 'mkPosition a b c d e f _ h i j k l m n o q r s t := p in
  mkPosition a b c d e f v h i j k l m n o q r s t.
Definition set_curRateOfReturn (v : num) (p : IPosition) : IPosition :=
  let 'mkPosition a b c d e f g _ i j k l m n o q r s t := p in
  mkPosition a b c d e f g v i j k l m n o q r s t.
Definition set_runUp (v : num) (p : IPosition) : IPosition :=
  let 'mkPosition a b c d e f g h _ j k l m n o q r s t := p in
  mkPosition a b c d e f g h v j k l m n o q r s t.
Definition set_initialStopPrice (v : option num) (p : IPosition) : IPosition :=
  let 'mkPosition a b c d e f g h i _ k l m n o q r s t := p in
  mkPosition a b c d e f g h i v k l m n o q r s t.
Definition set_curStopPrice (v : option num) (p : IPosition) : IPosition :=
  let 'mkPosition a b c d e f g h i j _ l m n o q r s t := p in
  mkPosition a b c d e f g h i j v l m n o q r s t.
Definition set_initialUnitRisk (v : option num) (p : IPosition) : IPosition :=
  let 'mkPosition a b c d e f g h i j k _ m n o q r s t := p in
  mkPosition a b c d e f g h i j k v m n o q r s t.
Definition set_initialRiskPct (v : option num) (p : IPosition) : IPosition :=
  let 'mkPosition a b c d e f g h i j k l _ n o q r s t := p in
  mkPosition a b c d e f g h i j k l v n o q r s t.
Definition set_curRiskPct (v : option num) (p : IPosition) : IPosition :=
  let 'mkPosition a b c d e f g h i j k l m _ o q r s t := p in
  mkPosition a b c d e f g h i j k l m v o q r s t.
Definition set_curRMultiple (v : option num) (p : IPosition) : IPosition :=
  let 'mkPosition a b c d e f g h i j k l m n _ q r s t := p in
  mkPosition a b c d e f g h i j k l m n v q r s t.
Definition set_profitTarget (v : option num) (p : IPosition) : IPosition :=
  let 'mkPosition a b c d e f g h i j k l m n o _ r s t := p in
  mkPosition a b c d e f g h i j k l m n o v r s t.
Definition set_riskSeries (v : option (list ITimestampedValue)) (p : IPosition) : IPosition :=
  let 'mkPosition a b c d e f g h i j k l m n o q _ s t := p in
  mkPosition a b c d e f g h i j k l m n o q v s t.
Definition set_rateOfReturnSeries (v : option (list ITimestampedValue)) (p : IPosition) : IPosition :=
  let 'mkPosition a b c d e f g h i j k l m n o q r _ t := p in
  mkPosition a b c d e f g h i j k l m n o q r v t.
Definition set_stopPriceSeries (v : option (list ITimestampedValue)) (p : IPosition) : IPosition :=
  let 'mkPosition a b c d e f g h i j k l m n o q r s _ := p in
  mkPosition a b c d e f g h i j k l m n o q r s v.
End Position.
Abbreviation IPosition := Position.IPosition.

Unset Primitive Projections.

Module Trade.
Record ITrade : Type := mkTrade {
  direction : TradeDirection;
  entryTime : Date;
  entryPrice : num;
  exitTime : Date;
  exitPrice : num;
  profit : num;
  profitPct : num;
  growth : num;
  riskPct : option num;
  riskSeries : option (list ITimestampedValue);
  rateOfReturnSeries : option (list ITimestampedValue);
  rmultiple : option num;
  holdingPeriod : nat;
  exitReason : string;
  stopPrice : option num;
  stopPriceSeries : option (list ITimestampedValue);
  profitTarget : option num;
  runUp : num;
}.
End Trade.
Abbreviation ITrade := Trade.ITrade.

(** ** Exceptions

    A computation either returns a value or throws; [Throw] carries the
    message of the JavaScript exception. *)

Inductive result (A : Type) : Type :=
| Ok (a : A)
| Throw (msg : string).
Arguments Ok {A} a.
Arguments Throw {A} msg.

Definition bind {A B : Type} (c : result A) (k : A -> result B) : result B :=
  match c with
  | Ok a => k a
  | Throw msg => Throw msg
  end.

Notation "x <- c ;; k" := (bind c (fun x => k))
  (at level 61, c at next level, right associativity).

(** [assert(cond, message)] of chai. *)
Definition assert (cond : bool) (message : string) : result unit :=
  if cond then Ok tt else Throw message.

(** ** The circular buffer (package CBuffer)

    [new CBuffer(size)] allocates [new Array(size)], all holes; [push]
    writes slot [(end + 1) % size].  [data] is the slot array itself, in
    slot order. *)

Module CBuffer.
Record CBuffer (A : Type) : Type := mkCBuffer {
  size : nat;
  data : list (option A);
  end_ : nat;
  length : nat;
}.
Arguments mkCBuffer {A}.

Definition new (A : Type) (n : nat) : CBuffer A :=
  mkCBuffer n (repeat None n) (n - 1) 0.

Fixpoint array_set {A : Type} (l : list (option A)) (i : nat) (x : A) : list (option A) :=
  match l, i with
  | [], _ => []
  | _ :: t, O => Some x :: t
  | h :: t, S j => h :: array_set t j x
  end.

Definition push {A : Type} (x : A) (b : CBuffer A) : CBuffer A :=
  let slot := Nat.modulo (end_ b + 1) (size b) in
  mkCBuffer (size b)
            (array_set (data b) slot x)
            slot
            (if Nat.ltb (length b) (size b) then length b + 1 else length b).

(** The rows of [new DataFrame(buffer.data)]: the filled slots. *)
Fixpoint rows {A : Type} (l : list (option A)) : list A :=
  match l with
  | [] => []
  | Some x :: t => x :: rows t
  | None :: t => rows t
  end.
End CBuffer.

(** ** Options and strategy callbacks *)

(** An absent flag is [false]. *)
Record IBacktestOptions : Type := mkOptions {
  recordStopPrice : bool;
  recordRisk : bool;
  recordRateOfReturn : bool;
}.

Record IEnterPositionOptions : Type := mkEnterOptions {
  enter_direction : option TradeDirection;
}.

Inductive PositionStatus : Type := None_ | Enter | Position | Exit.

Definition PositionStatus_eqb (a b : PositionStatus) : bool :=
  match a, b with
  | None_, None_ | Enter, Enter | Position, Position | Exit, Exit => true
  | _, _ => false
  end.

Module Strategy.
Section Callbacks.

Variable ParametersT : Type.

Record IEntryRuleArgs : Type := mkEntryArgs {
  entry_bar : IBar;
  entry_lookback : list IBar;
  entry_parameters : option ParametersT;
}.

Record IOpenPositionRuleArgs : Type := mkOpenArgs {
  open_entryPrice : num;
  open_position : IPosition;
  open_bar : IBar;
  open_lookback : list IBar;
  open_parameters : option ParametersT;
}.

Record IPrepIndicatorsArgs : Type := mkPrepArgs {
  prep_parameters : option ParametersT;
  prep_inputSeries : list IBar;
}.

(** A rule receives a handle ([enterPosition], [exitPosition]) and may
    call it; a rule is modelled by the list of calls it makes, in
    order.  The other callbacks return a number.  Callbacks read the
    position and do not write it. *)
Record IStrategy : Type := mkStrategy {
  parameters : option ParametersT;
  lookbackPeriod : option nat;
  prepIndicators : option (IPrepIndicatorsArgs -> list IBar);
  entryRule : IEntryRuleArgs -> list (option IEnterPositionOptions);
  exitRule : option (IOpenPositionRuleArgs -> list (option num * option string));
  stopLoss : option (IOpenPositionRuleArgs -> num);
  trailingStopLoss : option (IOpenPositionRuleArgs -> num);
  profitTarget : option (IOpenPositionRuleArgs -> num);
  fees : option (unit -> num);
}.

End Callbacks.

Arguments mkStrategy {ParametersT}.
Arguments mkEntryArgs {ParametersT}.
Arguments mkOpenArgs {ParametersT}.
Arguments mkPrepArgs {ParametersT}.
End Strategy.
Abbreviation IStrategy := Strategy.IStrategy.
Abbreviation IEntryRuleArgs := Strategy.IEntryRuleArgs.
Abbreviation IOpenPositionRuleArgs := Strategy.IOpenPositionRuleArgs.
Abbreviation IPrepIndicatorsArgs := Strategy.IPrepIndicatorsArgs.

(** ** [updatePosition] and [finalizePosition] *)

Import Position.

Definition updatePosition (position : IPosition) (bar : IBar) : IPosition :=
  let price := Bar.open bar in
  let lastGrowth := growth position in
  let position :=
    set_profit (match direction position with
                | Long => price - entryPrice position
                | Short => entryPrice position - price
                end) position in
  let position :=
    set_profitPct ((profit position / entryPrice position) * 100) position in
  let position :=
    set_growth (match direction position with
                | Long => price / entryPrice position
                | Short => (entryPrice position * 2 - price) / entryPrice position
                end) position in
  let position :=
    match curStopPrice position with
    | Some stop =>
        let unitRisk := match direction position with
                        | Long => price - stop
                        | Short => stop - price
                        end in
        let position := set_curRiskPct (Some ((unitRisk / price) * 100)) position in
        set_curRMultiple (Some (profit position / unitRisk)) position
    | None => position
    end in
  let position := set_holdingPeriod (holdingPeriod position + 1)%nat position in
  set_curRateOfReturn (growth position / lastGrowth - 1) position.

(** The position as [finalizePosition] leaves it: fee-adjusted growth,
    one more bar held, the closing rate of return and its sample. *)
Definition finalizedPosition (position : IPosition) (exitTime : Date)
    (exitPrice : num) (fees : num) : IPosition :=
  let lastGrowth := growth position in
  let growth_ := match direction position with
                 | Long => exitPrice / entryPrice position
                 | Short => (entryPrice position * 2 - exitPrice) / entryPrice position
                 end in
  let position := set_growth (growth_ - growth_ * fees) position in
  let position := set_holdingPeriod (holdingPeriod position + 1)%nat position in
  let position := set_curRateOfReturn (growth position / lastGrowth - 1) position in
  match rateOfReturnSeries position with
  | Some series =>
      set_rateOfReturnSeries
        (Some (series ++ [mkSample exitTime (curRateOfReturn position)])) position
  | None => position
  end.

Definition finalizePosition (position : IPosition) (exitTime : Date)
    (exitPrice : num) (exitReason : string) (fees : num) : ITrade :=
  let profit := match direction position with
                | Long => exitPrice - entryPrice position
                | Short => entryPrice position - exitPrice
                end in
  let rmultiple := match initialUnitRisk position with
                   | Some risk => Some (profit / risk)
                   | None => None
                   end in
  let position := finalizedPosition position exitTime exitPrice fees in
  {| Trade.direction := direction position;
     Trade.entryTime := entryTime position;
     Trade.entryPrice := entryPrice position;
     Trade.exitTime := exitTime;
     Trade.exitPrice := exitPrice;
     Trade.profit := profit;
     Trade.profitPct := (profit / entryPrice position) * 100;
     Trade.growth := growth position;
     Trade.riskPct := initialRiskPct position;
     Trade.riskSeries := riskSeries position;
     Trade.rateOfReturnSeries := rateOfReturnSeries position;
     Trade.rmultiple := rmultiple;
     Trade.holdingPeriod := holdingPeriod position;
     Trade.exitReason := exitReason;
     Trade.stopPrice := curStopPrice position;
     Trade.stopPriceSeries := stopPriceSeries position;
     Trade.profitTarget := profitTarget position;
     Trade.runUp := runUp position |}.

(** ** The fee formula on binary64 numbers

    The two statements of [finalizePosition] that compute the growth and
    take the fee off it, on IEEE 754 binary64 numbers, the numbers the
    code computes with. *)

Module Binary64.
Definition finalGrowth (direction : TradeDirection)
    (entryPrice exitPrice fees : float) : float :=
  let growth := match direction with
                | Long => (exitPrice / entryPrice)%float
                | Short => ((entryPrice * 2 - exitPrice) / entryPrice)%float
                end in
  (growth - growth * fees)%float.
End Binary64.

(** ** The state of a run: the variables [backtest] closes over *)

Set Primitive Projections.

Module State.
Record State : Type := mkState {
  completedTrades : list ITrade;
  positionStatus : PositionStatus;
  exitPrice : option num;
  exitReason : option string;
  positionDirection : TradeDirection;
  openPosition : option IPosition;
  lookbackBuffer : CBuffer.CBuffer IBar;
}.

Definition set_completedTrades (v : list ITrade) (s : State) : State :=
  let 'mkState _ b c d e f g := s in mkState v b c d e f g.
Definition set_positionStatus (v : PositionStatus) (s : State) : State :=
  let 'mkState a _ c d e f g := s in mkState a v c d e f g.
Definition set_exitPrice (v : option num) (s : State) : State :=
  let 'mkState a b _ d e f g := s in mkState a b v d e f g.
Definition set_exitReason (v : option string) (s : State) : State :=
  let 'mkState a b c _ e f g := s in mkState a b c v e f g.
Definition set_positionDirection (v : TradeDirection) (s : State) : State :=
  let 'mkState a b c d _ f g := s in mkState a b c d v f g.
Definition set_openPosition (v : option IPosition) (s : State) : State :=
  let 'mkState a b c d e _ g := s in mkState a b c d e v g.
Definition set_lookbackBuffer (v : CBuffer.CBuffer IBar) (s : State) : State :=
  let 'mkState a b c d e f _ := s in mkState a b c d e f v.
End State.
Abbreviation State := State.State.

Unset Primitive Projections.

Import State.

Definition isSome {A : Type} (o : option A) : bool :=
  match o with Some _ => true | None => false end.

(** [a ?? b], and [a || b] where [a] is an object or [undefined] *)
Definition nullish {A : Type} (o : option A) (d : A) : A :=
  match o with Some a => a | None => d end.

(** Reading a property of [undefined] or [null]. *)
Definition TypeError {A : Type} : result A :=
  Throw "TypeError: Cannot read properties of undefined".

(** The calls a rule makes to its handle, run in order. *)
Fixpoint call_handle {C S : Type} (handle : C -> S -> result S)
    (calls : list C) (s : S) : result S :=
  match calls with
  | [] => Ok s
  | c :: rest => s' <- handle c s ;; call_handle handle rest s'
  end.

Section Backtest.

Variable ParametersT : Type.
Variable strategy : IStrategy ParametersT.
Variable options : IBacktestOptions.
Variable lookbackPeriod : nat.
Variable strategyParameters : option ParametersT.
Variable fees : num.

Definition lookbackData (st : State) : list IBar :=
  CBuffer.rows (CBuffer.data (lookbackBuffer st)).

Definition enterPosition (options : option IEnterPositionOptions)
    (st : State) : result State :=
  _ <- assert (PositionStatus_eqb (positionStatus st) None_)
         "Can only enter a position when not already in one." ;;
  let st := set_positionStatus Enter st in
  Ok (set_positionDirection
        (match options with
         | Some o => nullish (enter_direction o) Long
         | None => Long
         end) st).

Definition exitPosition (call : option num * option string)
    (st : State) : result State :=
  let '(price, reason) := call in
  _ <- assert (PositionStatus_eqb (positionStatus st) Position)
         "Can only exit a position when we are in a position." ;;
  let st := set_positionStatus Exit st in
  let st := set_exitPrice price st in
  Ok (set_exitReason reason st).

Definition closePosition (bar : IBar) (price : num) (reason : string)
    (st : State) : result State :=
  match openPosition st with
  | None => TypeError
  | Some position =>
      let trade := finalizePosition position (Bar.time bar) price reason fees in
      let st := set_completedTrades (completedTrades st ++ [trade]) st in
      let st := set_openPosition None st in
      let st := set_positionStatus None_ st in
      let st := set_exitPrice None st in
      Ok (set_exitReason None st)
  end.

Definition openArgs (position : IPosition) (bar : IBar) (st : State)
    : IOpenPositionRuleArgs ParametersT :=
  Strategy.mkOpenArgs (entryPrice position) position bar (lookbackData st)
             strategyParameters.

(** First test of [exitOnCondition]: the price of a stop-loss exit. *)
Definition stopLossExit (position : IPosition) (bar : IBar) : option num :=
  match curStopPrice position with
  | Some stop =>
      match direction position with
      | Long =>
          if Bar.low bar <=? stop
          then Some (Math_min stop (Bar.open bar)) else None
      | Short =>
          if Bar.high bar >=? stop
          then Some (Math_max stop (Bar.open bar)) else None
      end
  | None => None
  end.

(** Second test: the price of a profit-target exit. *)
Definition profitTargetExit (position : IPosition) (bar : IBar) : option num :=
  match profitTarget position with
  | Some target =>
      match direction position with
      | Long => if Bar.high bar >=? target then Some target else None
      | Short => if Bar.low bar <=? target then Some target else None
      end
  | None => None
  end.

Definition exitOnCondition (bar : IBar) (st : State) : result State :=
  _ <- assert (isSome (openPosition st))
         "Expected open position to already be initialised!" ;;
  match openPosition st with
  | None => TypeError
  | Some position =>
      match stopLossExit position bar with
      | Some price => exitPosition (Some price, Some "stop-loss") st
      | None =>
          match profitTargetExit position bar with
          | Some price => exitPosition (Some price, Some "profit-target") st
          | None =>
              match Strategy.exitRule strategy with
              | Some rule =>
                  call_handle exitPosition (rule (openArgs position bar st)) st
              | None => Ok st
              end
          end
      end
  end.

Definition updateRunUp (bar : IBar) (position : IPosition) : IPosition :=
  match direction position with
  | Long =>
      set_runUp (if Bar.high bar - entryPrice position >? runUp position
                 then Bar.high bar - entryPrice position
                 else runUp position) position
  | Short =>
      set_runUp (if entryPrice position - Bar.low bar >? runUp position
                 then entryPrice position - Bar.low bar
                 else runUp position) position
  end.

(** [series.push(sample)] on a series that may be [undefined]. *)
Definition pushSample (series : option (list ITimestampedValue))
    (sample : ITimestampedValue) : result (option (list ITimestampedValue)) :=
  match series with
  | Some l => Ok (Some (l ++ [sample]))
  | None => TypeError
  end.

(** [case PositionStatus.None] *)
Definition caseNone (bar : IBar) (st : State) : result State :=
  call_handle enterPosition
    (Strategy.entryRule strategy (Strategy.mkEntryArgs bar (lookbackData st) strategyParameters))
    st.

(** The position object literal of [case PositionStatus.Enter]. *)
Definition newPosition (direction : TradeDirection) (bar : IBar) : IPosition :=
  mkPosition direction (Bar.time bar) (Bar.open bar) 1 0 0 0%nat 0 0
    None None None None None None None None None None.

(** [if (strategy.stopLoss) { ... }] of the Enter case. *)
Definition applyStopLoss (bar : IBar) (st : State) (position : IPosition)
    : IPosition :=
  let entryPrice := Bar.open bar in
  match Strategy.stopLoss strategy with
  | Some stopLoss =>
      let initialStopDistance := stopLoss (openArgs position bar st) in
      let position :=
        set_initialStopPrice
          (Some (match direction position with
                 | Long => entryPrice - initialStopDistance
                 | Short => entryPrice + initialStopDistance
                 end)) position in
      set_curStopPrice (initialStopPrice position) position
  | None => position
  end.

(** [if (openPosition.curStopPrice !== undefined) { ... }] *)
Definition initialiseRisk (bar : IBar) (position : IPosition) : IPosition :=
  let entryPrice := Bar.open bar in
  match curStopPrice position with
  | Some stop =>
      let initialUnitRisk := match direction position with
                             | Long => entryPrice - stop
                             | Short => stop - entryPrice
                             end in
      let initialRiskPct := (initialUnitRisk / entryPrice) * 100 in
      let position := set_initialUnitRisk (Some initialUnitRisk) position in
      let position := set_initialRiskPct (Some initialRiskPct) position in
      let position := set_curRiskPct (Some initialRiskPct) position in
      let position := set_curRMultiple (Some 0) position in
      if recordRisk options
      then set_riskSeries
             (Some [mkSample (Bar.time bar) initialRiskPct]) position
      else position
  | None => position
  end.

(** [if (options.recordRateOfReturn) { ... }] of the Enter case. *)
Definition initialiseRateOfReturn (position : IPosition) : IPosition :=
  if recordRateOfReturn options
  then set_rateOfReturnSeries (Some []) position
  else position.

(** [if (strategy.profitTarget) { ... }] *)
Definition applyProfitTarget (bar : IBar) (st : State) (position : IPosition)
    : IPosition :=
  let entryPrice := Bar.open bar in
  match Strategy.profitTarget strategy with
  | Some profitTarget =>
      let profitDistance := profitTarget (openArgs position bar st) in
      set_profitTarget
        (Some (match direction position with
               | Long => entryPrice + profitDistance
               | Short => entryPrice - profitDistance
               end)) position
  | None => position
  end.

(** [if (strategy.trailingStopLoss) { ... }] of the Enter case. *)
Definition applyTrailingStop (bar : IBar) (st : State) (position : IPosition)
    : IPosition :=
  match Strategy.trailingStopLoss strategy with
  | Some trailingStopLoss =>
      let trailingStopDistance := trailingStopLoss (openArgs position bar st) in
      let trailingStopPrice := match direction position with
                               | Long => Bar.close bar - trailingStopDistance
                               | Short => Bar.close bar + trailingStopDistance
                               end in
      let position :=
        match initialStopPrice position with
        | None => set_curStopPrice (Some trailingStopPrice) position
        | Some initial =>
            let position :=
              set_initialStopPrice
                (Some (match direction position with
                       | Long => Math_max initial trailingStopPrice
                       | Short => Math_min initial trailingStopPrice
                       end)) position in
            set_curStopPrice (initialStopPrice position) position
        end in
      if recordStopPrice options
      then set_stopPriceSeries
             (Some [mkSample (Bar.time bar)
                             (nullish (curStopPrice position) NaN)]) position
      else position
  | None => position
  end.

(** [case PositionStatus.Enter] *)
Definition caseEnter (bar : IBar) (st : State) : result State :=
  _ <- assert (negb (isSome (openPosition st)))
         "Expected there to be no open position initialised yet!" ;;
  let position := newPosition (positionDirection st) bar in
  let position := applyStopLoss bar st position in
  let position := initialiseRisk bar position in
  let position := initialiseRateOfReturn position in
  let position := applyProfitTarget bar st position in
  let st := set_openPosition (Some position) st in
  let st := set_positionStatus Position st in
  st <- exitOnCondition bar st ;;
  let position := applyTrailingStop bar st position in
  let position := updateRunUp bar position in
  Ok (set_openPosition (Some position) st).

(** [if (curRiskPct !== undefined && options.recordRisk) riskSeries.push] *)
Definition recordRiskSample (bar : IBar) (position : IPosition)
    : result IPosition :=
  match curRiskPct position with
  | Some risk =>
      if recordRisk options
      then series <- pushSample (riskSeries position)
                       (mkSample (Bar.time bar) risk) ;;
           Ok (set_riskSeries series position)
      else Ok position
  | None => Ok position
  end.

(** [if (options.recordRateOfReturn) rateOfReturnSeries.push] *)
Definition recordRateOfReturnSample (bar : IBar) (position : IPosition)
    : result IPosition :=
  if recordRateOfReturn options
  then series <- pushSample (rateOfReturnSeries position)
                   (mkSample (Bar.time bar) (curRateOfReturn position)) ;;
       Ok (set_rateOfReturnSeries series position)
  else Ok position.

(** The stop [initialStopPrice ? tighten(initialStopPrice, t) : t], where
    [t] is the bar's close moved by the trailing distance. *)
Definition trailedStop (direction : TradeDirection)
    (initialStopPrice : option num) (close distance : num) : num :=
  let floor := match initialStopPrice with
               | Some initial => if truthy initial then Some initial else None
               | None => None
               end in
  match direction with
  | Long =>
      let newTrailingStopPrice := close - distance in
      match floor with
      | Some initial => Math_max initial newTrailingStopPrice
      | None => newTrailingStopPrice
      end
  | Short =>
      let newTrailingStopPrice := close + distance in
      match floor with
      | Some initial => Math_min initial newTrailingStopPrice
      | None => newTrailingStopPrice
      end
  end.

(** [if (strategy.trailingStopLoss !== undefined) { ... }] of the
    Position case. *)
Definition revaluateTrailingStop (bar : IBar) (st : State)
    (position : IPosition) : result IPosition :=
  match Strategy.trailingStopLoss strategy with
  | Some trailingStopLoss =>
      let trailingStopDistance := trailingStopLoss (openArgs position bar st) in
      let position :=
        set_curStopPrice
          (Some (trailedStop (direction position) (initialStopPrice position)
                             (Bar.close bar) trailingStopDistance)) position in
      if recordStopPrice options
      then series <- pushSample (stopPriceSeries position)
                       (mkSample (Bar.time bar)
                                 (nullish (curStopPrice position) NaN)) ;;
           Ok (set_stopPriceSeries series position)
      else Ok position
  | None => Ok position
  end.

(** [case PositionStatus.Position] *)
Definition casePosition (bar : IBar) (st : State) : result State :=
  _ <- assert (isSome (openPosition st))
         "Expected open position to already be initialised!" ;;
  match openPosition st with
  | None => TypeError
  | Some position =>
      let position := updatePosition position bar in
      position <- recordRiskSample bar position ;;
      position <- recordRateOfReturnSample bar position ;;
      st <- exitOnCondition bar (set_openPosition (Some position) st) ;;
      position <- revaluateTrailingStop bar st position ;;
      let position := updateRunUp bar position in
      Ok (set_openPosition (Some position) st)
  end.

(** [case PositionStatus.Exit] *)
Definition caseExit (bar : IBar) (st : State) : result State :=
  _ <- assert (isSome (openPosition st))
         "Expected open position to already be initialised!" ;;
  closePosition bar (nullish (exitPrice st) (Bar.open bar))
                (nullish (exitReason st) "exit-rule") st.

(** The body of [for (const bar of indicatorsSeries)]. *)
Definition loopBody (bar : IBar) (st : State) : result State :=
  let st := set_lookbackBuffer (CBuffer.push bar (lookbackBuffer st)) st in
  if Nat.ltb (CBuffer.length (lookbackBuffer st)) lookbackPeriod
  then Ok st
  else match positionStatus st with
       | None_ => caseNone bar st
       | Enter => caseEnter bar st
       | Position => casePosition bar st
       | Exit => caseExit bar st
       end.

Fixpoint forOf (bars : list IBar) (st : State) : result State :=
  match bars with
  | [] => Ok st
  | bar :: rest => st' <- loopBody bar st ;; forOf rest st'
  end.

Definition initialState : State :=
  mkState [] None_ None None Long None (CBuffer.new IBar lookbackPeriod).

End Backtest.

(** [series.last()] of data-forge throws on an empty series. *)
Definition series_last (series : list IBar) : result IBar :=
  match series with
  | [] => Throw "No values in Series."
  | b :: rest => Ok (List.last rest b)
  end.

Definition series_first (series : list IBar) : result IBar :=
  match series with
  | [] => Throw "No values in Series."
  | b :: _ => Ok b
  end.

Definition series_count (series : list IBar) : num :=
  of_nat (List.length series).

Definition defaultOptions : IBacktestOptions := mkOptions false false false.

(** [strategy.lookbackPeriod || 1] *)
Definition lookbackPeriodOf {P : Type} (strategy : IStrategy P) : nat :=
  match Strategy.lookbackPeriod strategy with
  | Some (S n) => S n
  | _ => 1%nat
  end.

(** [(strategy.fees && strategy.fees()) || 0] *)
Definition feesOf {P : Type} (strategy : IStrategy P) : num :=
  match Strategy.fees strategy with
  | Some f => if truthy (f tt) then f tt else 0
  | None => 0
  end.

(** [Math.round((last.time - first.time) / count)] on the input series. *)
Definition timeframeOf (inputSeries : list IBar) : result num :=
  last <- series_last inputSeries ;;
  first <- series_first inputSeries ;;
  Ok (Math_round ((getTime (Bar.time last) - getTime (Bar.time first))
                  / series_count inputSeries)).

Definition indicatorsOf {P : Type} (strategy : IStrategy P)
    (inputSeries : list IBar) : list IBar :=
  match Strategy.prepIndicators strategy with
  | Some prep => prep (Strategy.mkPrepArgs (Strategy.parameters strategy) inputSeries)
  | None => inputSeries
  end.

(** ** [backtest] *)

(** The main loop, from the initial state, over the indicator series. *)
Definition runLoop {P : Type} (strategy : IStrategy P)
    (inputSeries : list IBar) (options : option IBacktestOptions)
    : result State :=
  forOf strategy (nullish options defaultOptions) (lookbackPeriodOf strategy)
        (Strategy.parameters strategy) (feesOf strategy)
        (indicatorsOf strategy inputSeries)
        (initialState (lookbackPeriodOf strategy)).

Definition backtest {P : Type} (strategy : IStrategy P)
    (inputSeries : list IBar) (options : option IBacktestOptions)
    : result (list ITrade) :=
  match inputSeries with
  | [] => Throw "Expect input data series to contain at last 1 bar."
  | _ :: _ =>
      if Nat.ltb (List.length inputSeries) (lookbackPeriodOf strategy)
      then Throw "You have less input data than your lookback period, the size of your input data should be some multiple of your lookback period."
      else
        timeframe <- timeframeOf inputSeries ;;
        let indicatorsSeries := indicatorsOf strategy inputSeries in
        let fees := feesOf strategy in
        st <- runLoop strategy inputSeries options ;;
        match openPosition st with
        | Some position =>
            lastBar <- series_last indicatorsSeries ;;
            let lastTrade :=
              finalizePosition position
                (new_Date (getTime (Bar.time lastBar) + timeframe))
                (Bar.close lastBar) "finalize" fees in
            Ok (completedTrades st ++ [lastTrade])
        | None => Ok (completedTrades st)
        end
  end.

(** ** The analyzer *)

Module Opt.
Record AnalyzeOptions : Type := mkAnalyzeOptions {
  startingDate : option Date;
  endingDate : option Date;
  timeframe : option num;
}.
End Opt.
Abbreviation AnalyzeOptions := Opt.AnalyzeOptions.

Module Analysis.
Record IAnalysis : Type := mkAnalysis {
  startingCapital : num;
  finalCapital : num;
  profit : num;
  profitPct : num;
  growth : num;
  totalTrades : nat;
  barCount : nat;
  maxDrawdown : num;
  maxDrawdownPct : num;
  maxRiskPct : option num;
  expectency : option num;
  rmultipleStdDev : option num;
  sharpeRatio : num;
  systemQuality : option num;
  profitFactor : option num;
  proportionProfitable : num;
  percentProfitable : num;
  returnOnAccount : num;
  averageProfitPerTrade : num;
  numWinningTrades : nat;
  numLosingTrades : nat;
  averageWinningTrade : num;
  averageLosingTrade : num;
  expectedValue : num;
}.
End Analysis.
Abbreviation IAnalysis := Analysis.IAnalysis.

(** The variables of [analyze] that its loop over the trades updates. *)
Module Acc.
Record Acc : Type := mkAcc {
  workingCapital : num;
  barCount : nat;
  peakCapital : num;
  workingDrawdown : num;
  maxDrawdown : num;
  maxDrawdownPct : num;
  totalProfits : num;
  totalLosses : num;
  numWinningTrades : nat;
  numLosingTrades : nat;
  totalTrades : nat;
  maxRiskPct : option num;
  rateOfReturnList : option (list (option num));
}.
End Acc.
Abbreviation Acc := Acc.Acc.

(** [new Array(n)]: [n] must be an integer in [0, 2^32 - 1]. *)
Definition new_Array (n : num) : result nat :=
  match to_Z n with
  | Some z =>
      if (Z.leb 0 z && Z.leb z 4294967295)%bool
      then Ok (Z.to_nat z)
      else Throw "RangeError: Invalid array length"
  | None => Throw "RangeError: Invalid array length"
  end.

(** [array[i] = v] on a JavaScript array; [None] is a hole.  An index
    past the end extends the array; a key that is not an array index
    leaves the elements as they are. *)
Fixpoint array_put (l : list (option num)) (i : nat) (v : num) : list (option num) :=
  match l, i with
  | [], O => [Some v]
  | [], S j => None :: array_put [] j v
  | _ :: t, O => Some v :: t
  | h :: t, S j => h :: array_put t j v
  end.

Definition array_assign (l : list (option num)) (key : num) (v : num)
    : list (option num) :=
  match to_Z key with
  | Some z =>
      if (Z.leb 0 z && Z.leb z 4294967294)%bool
      then array_put l (Z.to_nat z) v
      else l
  | None => l
  end.

Definition YEAR_MS : num := 365 * 24 * 60 * 60 * 1000.

(** [isNumber] of [./utils], a file that is not among the sources: the
    number test of the [typy] package, which is [Number.isFinite].  It
    holds of the finite numbers and fails on [NaN] and on the two
    infinities, so that [analyze] refuses such a starting capital like a
    non-positive one.  The argument is a number by its type; the theorems
    on [analyze] assume a finite starting capital, where the test holds. *)
Definition isNumber (v : num) : bool := is_finite v.

Section Analyze.

(** Library functions and the clock, left abstract:
    [Series.average], [Series.std] (data-forge), [math.std] (mathjs),
    [Math.sqrt], and the value of [new Date()]. *)
Variable Series_average : list (option num) -> num.
Variable Series_std : list (option num) -> num.
Variable math_std : list num -> num.
Variable Math_sqrt : num -> num.
Variable now : Date.

(** [options?.timeframe ?? 0], then the inference from the first trade. *)
Definition timeframeFor (trades : list ITrade) (options : option AnalyzeOptions) : num :=
  let timeframe :=
    match options with
    | Some o => nullish (Opt.timeframe o) 0
    | None => 0
    end in
  if truthy timeframe then timeframe
  else match trades with
       | trade :: _ =>
           match Trade.rateOfReturnSeries trade with
           | Some series =>
               (getTime (Trade.exitTime trade) - getTime (Trade.entryTime trade))
               / of_nat (List.length series)
           | None => timeframe
           end
       | [] => timeframe
       end.

(** The block guarded by [timeframe && options?.startingDate]: it may
    assign [options.endingDate], and allocates [rateOfReturnList].
    Returns the caller's [options] object as the block leaves it. *)
Definition dateRangeBlock (timeframe : num) (options : option AnalyzeOptions)
    : option AnalyzeOptions * result (option (list (option num))) :=
  match options with
  | Some o =>
      match Opt.startingDate o with
      | Some starting =>
          if truthy timeframe
          then
            let o := match Opt.endingDate o with
                     | Some _ => o
                     | None => Opt.mkAnalyzeOptions (Opt.startingDate o) (Some now)
                                                    (Opt.timeframe o)
                     end in
            let ending := nullish (Opt.endingDate o) now in
            let barCountOfDateRange :=
              Math_floor ((getTime ending - getTime starting) / timeframe) in
            (Some o,
             n <- new_Array barCountOfDateRange ;;
             Ok (Some (repeat (Some 0) n)))
          else (Some o, Ok None)
      | None => (Some o, Ok None)
      end
  | None => (None, Ok None)
  end.

Definition scatter (timeframe : num) (starting : Date)
    (list_ : list (option num)) (series : list ITimestampedValue)
    : list (option num) :=
  fold_left
    (fun acc rateOfReturn =>
       array_assign acc
         (Math_round ((getTime (time rateOfReturn) - getTime starting) / timeframe))
         (value rateOfReturn))
    series list_.

(** The body of [for (const trade of trades)]. *)
Definition analyzeStep (timeframe : num) (options : option AnalyzeOptions)
    (acc : Acc) (trade : ITrade) : result Acc :=
  let totalTrades := S (Acc.totalTrades acc) in
  let maxRiskPct :=
    match Trade.riskPct trade with
    | Some riskPct =>
        Some (Math_max riskPct
                (match Acc.maxRiskPct acc with
                 | Some m => if truthy m then m else 0
                 | None => 0
                 end))
    | None => Acc.maxRiskPct acc
    end in
  rateOfReturnList <-
    match Acc.rateOfReturnList acc with
    | Some list_ =>
        match Trade.rateOfReturnSeries trade, options with
        | Some series, Some o =>
            match Opt.startingDate o with
            | Some starting => Ok (Some (scatter timeframe starting list_ series))
            | None => TypeError
            end
        | _, _ => TypeError
        end
    | None => Ok None
    end ;;
  let workingCapital := Acc.workingCapital acc * Trade.growth trade in
  let barCount := (Acc.barCount acc + Trade.holdingPeriod trade)%nat in
  let '(peakCapital, workingDrawdown) :=
    if workingCapital <? Acc.peakCapital acc
    then (Acc.peakCapital acc, workingCapital - Acc.peakCapital acc)
    else (workingCapital, 0) in
  let '(totalProfits, numWinningTrades, totalLosses, numLosingTrades) :=
    if Trade.profit trade >? 0
    then (Acc.totalProfits acc + Trade.profit trade, S (Acc.numWinningTrades acc),
          Acc.totalLosses acc, Acc.numLosingTrades acc)
    else (Acc.totalProfits acc, Acc.numWinningTrades acc,
          Acc.totalLosses acc + Trade.profit trade, S (Acc.numLosingTrades acc)) in
  let maxDrawdown := Math_min workingDrawdown (Acc.maxDrawdown acc) in
  let maxDrawdownPct :=
    Math_min ((maxDrawdown / peakCapital) * 100) (Acc.maxDrawdownPct acc) in
  Ok (Acc.mkAcc workingCapital barCount peakCapital workingDrawdown
                maxDrawdown maxDrawdownPct totalProfits totalLosses
                numWinningTrades numLosingTrades totalTrades maxRiskPct
                rateOfReturnList).

Fixpoint analyzeLoop (timeframe : num) (options : option AnalyzeOptions)
    (trades : list ITrade) (acc : Acc) : result Acc :=
  match trades with
  | [] => Ok acc
  | trade :: rest =>
      acc' <- analyzeStep timeframe options acc trade ;;
      analyzeLoop timeframe options rest acc'
  end.

Definition initialAcc (startingCapital : num)
    (rateOfReturnList : option (list (option num))) : Acc :=
  Acc.mkAcc startingCapital 0 startingCapital 0 0 0 0 0 0 0 0 None
            rateOfReturnList.

(** [trades.filter(t => t.rmultiple !== undefined).map(t => t.rmultiple)] *)
Fixpoint rmultiplesOf (trades : list ITrade) : list num :=
  match trades with
  | [] => []
  | trade :: rest =>
      match Trade.rmultiple trade with
      | Some r => r :: rmultiplesOf rest
      | None => rmultiplesOf rest
      end
  end.

(** The statements after the loop: the record [analyze] returns. *)
Definition summarize (startingCapital : num) (timeframe : num)
    (trades : list ITrade) (acc : Acc) : IAnalysis :=
  let rmultiples := rmultiplesOf trades in
  let expectency :=
    if Nat.ltb 0 (List.length rmultiples)
    then Some (Series_average (map Some rmultiples)) else None in
  let rmultipleStdDev :=
    if Nat.ltb 0 (List.length rmultiples)
    then Some (math_std rmultiples) else None in
  let systemQuality :=
    match expectency, rmultipleStdDev with
    | Some e, Some sd => if Num.eqb sd 0 then None else Some (e / sd)
    | _, _ => None
    end in
  let absTotalLosses := Math_abs (Acc.totalLosses acc) in
  let profitFactor :=
    if absTotalLosses >? 0
    then Some (Acc.totalProfits acc / absTotalLosses) else None in
  let profit := Acc.workingCapital acc - startingCapital in
  let profitPct := (profit / startingCapital) * 100 in
  let totalTrades := Acc.totalTrades acc in
  let numWinningTrades := Acc.numWinningTrades acc in
  let numLosingTrades := Acc.numLosingTrades acc in
  let proportionWinning :=
    if Nat.ltb 0 totalTrades
    then of_nat numWinningTrades / of_nat totalTrades else 0 in
  let proportionLosing :=
    if Nat.ltb 0 totalTrades
    then of_nat numLosingTrades / of_nat totalTrades else 0 in
  let averageWinningTrade :=
    if Nat.ltb 0 numWinningTrades
    then Acc.totalProfits acc / of_nat numWinningTrades else 0 in
  let averageLosingTrade :=
    if Nat.ltb 0 numLosingTrades
    then Acc.totalLosses acc / of_nat numLosingTrades else 0 in
  let sharpeRatio :=
    match Acc.rateOfReturnList acc with
    | Some list_ =>
        (Series_average list_ / Series_std list_)
        * Math_sqrt (YEAR_MS / timeframe)
    | None => 0
    end in
  {| Analysis.startingCapital := startingCapital;
     Analysis.finalCapital := Acc.workingCapital acc;
     Analysis.profit := profit;
     Analysis.profitPct := profitPct;
     Analysis.growth := Acc.workingCapital acc / startingCapital;
     Analysis.totalTrades := totalTrades;
     Analysis.barCount := Acc.barCount acc;
     Analysis.maxDrawdown := Acc.maxDrawdown acc;
     Analysis.maxDrawdownPct := Acc.maxDrawdownPct acc;
     Analysis.maxRiskPct := Acc.maxRiskPct acc;
     Analysis.expectency := expectency;
     Analysis.rmultipleStdDev := rmultipleStdDev;
     Analysis.sharpeRatio := sharpeRatio;
     Analysis.systemQuality := systemQuality;
     Analysis.profitFactor := profitFactor;
     Analysis.proportionProfitable := proportionWinning;
     Analysis.percentProfitable := proportionWinning * 100;
     Analysis.returnOnAccount := profitPct / Math_abs (Acc.maxDrawdownPct acc);
     Analysis.averageProfitPerTrade := profit / of_nat totalTrades;
     Analysis.numWinningTrades := numWinningTrades;
     Analysis.numLosingTrades := numLosingTrades;
     Analysis.averageWinningTrade := averageWinningTrade;
     Analysis.averageLosingTrade := averageLosingTrade;
     Analysis.expectedValue :=
       proportionWinning * averageWinningTrade
       + proportionLosing * averageLosingTrade |}.

(** [analyze]: the caller's [options] object after the call, and the
    returned record or the exception. *)
Definition analyze (startingCapital : num) (trades : list ITrade)
    (options : option AnalyzeOptions)
    : option AnalyzeOptions * result IAnalysis :=
  if (negb (isNumber startingCapital) || (startingCapital <=? 0))%bool
  then (options,
        Throw "Expected 'startingCapital' argument to 'analyze' to be a positive number that specifies the amount of capital used to simulate trading.")
  else
    let timeframe := timeframeFor trades options in
    let '(options, allocated) := dateRangeBlock timeframe options in
    (options,
     rateOfReturnList <- allocated ;;
     acc <- analyzeLoop timeframe options trades
              (initialAcc startingCapital rateOfReturnList) ;;
     Ok (summarize startingCapital timeframe trades acc)).

End Analyze.

(** ** Test scaffolding: bars and strategies of the scenarios *)

Definition bar (t : Z) (o h l c : num) : IBar :=
  Bar.mkBar (mkDate (of_Z t)) o h l c.

Definition alwaysEnter : IEntryRuleArgs unit -> list (option IEnterPositionOptions) :=
  fun _ => [None].

(** Enters long whenever flat; [stop], [trailing] and [target] are the
    constant distances of the three optional callbacks. *)
Definition constStrategy (stop trailing target : option num) (fee : option num)
    : IStrategy unit :=
  Strategy.mkStrategy None None None alwaysEnter None
    (option_map (fun d _ => d) stop)
    (option_map (fun d _ => d) trailing)
    (option_map (fun d _ => d) target)
    (option_map (fun f _ => f) fee).

(** The status, price and reason [exitPosition(price, reason)] leaves. *)
Definition exitsWith (st' : State) (price : num) (reason : string) : Prop :=
  positionStatus st' = Exit /\
  exitPrice st' = Some price /\
  exitReason st' = Some reason.

(** The stop-loss test of [exitOnCondition] does not fire on [bar]. *)
Definition stopNotHit (position : IPosition) (bar : IBar) : Prop :=
  match curStopPrice position with
  | Some stop =>
      match direction position with
      | Long => (Bar.low bar <=? stop) = false
      | Short => (Bar.high bar >=? stop) = false
      end
  | None => True
  end.

(** The profit-target test of [exitOnCondition] does not fire on [bar]. *)
Definition targetNotHit (position : IPosition) (bar : IBar) : Prop :=
  match profitTarget position with
  | Some target =>
      match direction position with
      | Long => (Bar.high bar >=? target) = false
      | Short => (Bar.low bar <=? target) = false
      end
  | None => True
  end.

(** Scenario S2 (with the target of S3): long from 100, stop distance 5,
    target distance 10.  The position after the entry bar, and the state of
    the run that holds it. *)
Definition stopAndTarget : IStrategy unit :=
  constStrategy (Some 5) None (Some 10) None.

Definition gapDownFront : list IBar :=
  [bar 0 100 100 100 100; bar 1 100 101 96 100].

Definition gapDownPosition : IPosition :=
  mkPosition Long (mkDate 1) 100 1 0 0 0%nat 0 1
    (Some 95) (Some 95) (Some 5) (Some 5) (Some 5) (Some 0) (Some 110)
    None None None.

Definition gapDownState : State :=
  mkState [] Position None None Long (Some gapDownPosition)
          (CBuffer.push (bar 1 100 101 96 100) (CBuffer.new IBar 1)).

(** The stop price of the open position, if there is one. *)
Definition stopOf (st : State) : option num :=
  match openPosition st with
  | Some position => curStopPrice position
  | None => None
  end.

(** Scenario S4: a signal bar, then three bars closing at 102, 108, 106;
    trailing distance 5, no initial stop. *)
Definition trailing5 : IStrategy unit := constStrategy None (Some 5) None None.

Definition ratchetBars : list IBar :=
  [bar 0 100 100 100 100; bar 1 100 103 99 102;
   bar 2 102 109 101 108; bar 3 108 108 105 106].

(** The state of the S4 run after its signal bar: entry pending. *)
Definition ratchetSignalled : State :=
  mkState [] Enter None None Long None
          (CBuffer.push (bar 0 100 100 100 100) (CBuffer.new IBar 1)).

(** The number of samples of a series, when the series exists. *)
Definition sampleCount (series : option (list ITimestampedValue)) : option nat :=
  option_map (@List.length ITimestampedValue) series.

(** One rate-of-return sample per bar held: on a position, on a trade. *)
Definition positionSampled (position : IPosition) : Prop :=
  sampleCount (rateOfReturnSeries position) = Some (holdingPeriod position).

Definition tradeSampled (trade : ITrade) : Prop :=
  sampleCount (Trade.rateOfReturnSeries trade) = Some (Trade.holdingPeriod trade).

Definition stateSampled (st : State) : Prop :=
  Forall tradeSampled (completedTrades st) /\
  match openPosition st with
  | Some position => positionSampled position
  | None => True
  end.

(** A position is open exactly in the states Position and Exit. *)
Definition statusAgrees (st : State) : Prop :=
  match positionStatus st with
  | None_ | Enter => openPosition st = None
  | Position | Exit => exists position, openPosition st = Some position
  end.

(** The precondition of [backtest] on its input: at least one bar, and at
    least [lookbackPeriod] of them. *)
Definition enoughBars {P : Type} (strategy : IStrategy P) (bars : list IBar) : Prop :=
  Nat.ltb (List.length bars) (lookbackPeriodOf strategy) = false.

(** Scenario S1: enter on the first bar, never exit, no fees. *)
Definition alwaysIn : IStrategy unit := constStrategy None None None None.

Definition risingBars : list IBar :=
  [bar 0 100 100 100 100; bar 1 110 110 110 110; bar 2 120 120 120 120].

(** Long with the stop 5 below the entry. *)
Definition stop5 : IStrategy unit := constStrategy (Some 5) None None None.

(** The stop is hit on the last bar: the exit is still pending when the
    bars run out. *)
Definition stoppedLastBars : list IBar :=
  [bar 0 100 100 100 100; bar 1 100 101 96 100; bar 2 98 99 90 92].

(** Long from 100 with the stop at 95; the next bar opens at 95. *)
Definition openAtStopFront : list IBar :=
  [bar 0 100 100 100 100; bar 1 100 101 96 100].

Definition openAtStopBar : IBar := bar 2 95 96 94 95.

(** The growth of a trade before fees, from its entry and exit prices. *)
Definition rawGrowth (direction : TradeDirection) (entryPrice exitPrice : num) : num :=
  match direction with
  | Long => exitPrice / entryPrice
  | Short => (entryPrice * 2 - exitPrice) / entryPrice
  end.

Definition rawGrowthOf (trade : ITrade) : num :=
  rawGrowth (Trade.direction trade) (Trade.entryPrice trade) (Trade.exitPrice trade).

(** The strategy with its [fees] member replaced. *)
Definition withFees {P : Type} (f : option (unit -> num)) (s : IStrategy P)
    : IStrategy P :=
  Strategy.mkStrategy (Strategy.parameters s) (Strategy.lookbackPeriod s)
    (Strategy.prepIndicators s) (Strategy.entryRule s) (Strategy.exitRule s)
    (Strategy.stopLoss s) (Strategy.trailingStopLoss s)
    (Strategy.profitTarget s) f.

Definition rmap {A B : Type} (g : A -> B) (r : result A) : result B :=
  match r with
  | Ok a => Ok (g a)
  | Throw msg => Throw msg
  end.

(** Two trades closed from the same position at the same time, price and
    reason, one with fee [f] and one free of fees. *)
Definition sameClose (f : num) (trade trade0 : ITrade) : Prop :=
  exists position t price reason,
    trade = finalizePosition position t price reason f /\
    trade0 = finalizePosition position t price reason 0.

(** Two states of a run that differ in their completed trades only, which
    are the same closes with and without the fee. *)
Definition sameRun (f : num) (st st0 : State) : Prop :=
  st = set_completedTrades (completedTrades st) st0 /\
  Forall2 (sameClose f) (completedTrades st) (completedTrades st0).

(** Scenario S1 with a fee of one percent. *)
Definition onePercentFee : IStrategy unit :=
  constStrategy None None None (Some (1 / 100)).

(** A fee of a quarter, on bars that enter at 100 and end at 150. *)
Definition quarterFee : IStrategy unit :=
  constStrategy None None None (Some (1 / 4)).

Definition halfUpBars : list IBar :=
  [bar 0 100 100 100 100; bar 1 100 100 100 100; bar 2 150 150 150 150].

(** The entry bar opens at a price of zero. *)
Definition zeroEntryBars : list IBar :=
  [bar 0 100 100 100 100; bar 1 0 50 0 50; bar 2 50 50 50 50].

(** The reducer's capital figures are finite numbers, the peak is
    positive and the two drawdown figures are at most zero. *)
Definition accSound (acc : Acc) : Prop :=
  exists w pk d dp : Q,
    Acc.workingCapital acc = Fin w /\
    Acc.peakCapital acc = Fin pk /\ (0 < pk)%Q /\
    Acc.maxDrawdown acc = Fin d /\ (d <= 0)%Q /\
    Acc.maxDrawdownPct acc = Fin dp /\ (dp <= 0)%Q.

Definition finiteGrowth (trade : ITrade) : Prop :=
  is_finite (Trade.growth trade) = true.

(** The working capital [analyze]'s loop holds after each trade, in
    order: the capital before it times the trade's growth. *)
Fixpoint workingCapitals (capital : num) (trades : list ITrade) : list num :=
  match trades with
  | [] => []
  | trade :: rest =>
      let capital := capital * Trade.growth trade in
      capital :: workingCapitals capital rest
  end.

(** The working capital is a finite number after every trade: no growth
    is [NaN] or infinite and no product leaves the range of the numbers. *)
Definition staysFinite (capital : num) (trades : list ITrade) : Prop :=
  Forall (fun c => is_finite c = true) (workingCapitals capital trades).

(** Stand-ins for the library functions the analyzer calls. *)
Definition noAverage : list (option num) -> num := fun _ => NaN.
Definition noStd : list num -> num := fun _ => NaN.
Definition noSqrt : num -> num := fun _ => NaN.

(** A closed trade with the given growth and profit. *)
Definition closedTrade (growth profit : num) : ITrade :=
  Trade.mkTrade Long (mkDate 0) 100 (mkDate 1) 100 profit 0 growth
                None None None None 1 "finalize" None None None 0.

(** Scenario S5: growths 1.10 and 0.95. *)
Definition twoTrades : list ITrade :=
  [closedTrade (11 / 10) 100; closedTrade (95 / 100) (-50)].

(** A gain of a half, then a loss of a half. *)
Definition upAndDown : list ITrade :=
  [closedTrade (3 / 2) 500; closedTrade (1 / 2) (-750)].

(** A strategy whose entry rule never calls [enterPosition]. *)
Definition neverEnters : IStrategy unit :=
  Strategy.mkStrategy None None None (fun _ => []) None None None None None.

(** The lookback buffer after the given bars were pushed, in order. *)
Definition pushAll (bars : list IBar) (buffer : CBuffer.CBuffer IBar)
    : CBuffer.CBuffer IBar :=
  fold_left (fun buf b => CBuffer.push b buf) bars buffer.

(** The strategy of scenario S1 with a lookback period of three bars. *)
Definition lookbackThree : IStrategy unit :=
  Strategy.mkStrategy None (Some 3%nat) None alwaysEnter None None None None None.

(** The position the Enter case has built when it runs the exit check. *)
Definition entered {P : Type} (strategy : IStrategy P)
    (options : IBacktestOptions) (params : option P) (b : IBar) (st : State)
    : IPosition :=
  applyProfitTarget strategy params b st
    (initialiseRateOfReturn options
       (initialiseRisk options b
          (applyStopLoss strategy params b st
             (newPosition (positionDirection st) b)))).

(** A property [T] of every completed trade and [Q] of the open position. *)
Definition holds (Q : IPosition -> Prop) (T : ITrade -> Prop) (st : State) : Prop :=
  Forall T (completedTrades st) /\
  match openPosition st with
  | Some position => Q position
  | None => True
  end.

(** The series the Position case will push to exist on the position. *)
Definition ready {P : Type} (strategy : IStrategy P)
    (options : IBacktestOptions) (p : IPosition) : Prop :=
  (recordRateOfReturn options = true -> isSome (rateOfReturnSeries p) = true) /\
  (recordStopPrice options = true ->
   isSome (Strategy.trailingStopLoss strategy) = true ->
   isSome (stopPriceSeries p) = true) /\
  (recordRisk options = true ->
   isSome (riskSeries p) = true \/
   (isSome (curStopPrice p) = false /\ isSome (curRiskPct p) = false)) /\
  (recordRisk options = true ->
   isSome (Strategy.stopLoss strategy) = true ->
   isSome (riskSeries p) = true).

(** A rule calls its handle at most once per invocation. *)
Definition callsOnce {P : Type} (strategy : IStrategy P) : Prop :=
  (forall args, (List.length (Strategy.entryRule strategy args) <= 1)%nat) /\
  (forall rule, Strategy.exitRule strategy = Some rule ->
                forall args, (List.length (rule args) <= 1)%nat).

(** [recordRisk] is not combined with a trailing stop that has no initial
    stop beside it. *)
Definition riskRecordable {P : Type} (strategy : IStrategy P)
    (options : IBacktestOptions) : Prop :=
  recordRisk options = true ->
  isSome (Strategy.trailingStopLoss strategy) = true ->
  isSome (Strategy.stopLoss strategy) = true.

(** A run state from which the loop cannot fail. *)
Definition sound {P : Type} (strategy : IStrategy P)
    (options : IBacktestOptions) (st : State) : Prop :=
  statusAgrees st /\
  match openPosition st with
  | Some p => ready strategy options p
  | None => True
  end.

(** The lookback buffer has the size of the lookback period, and it is
    full once the run has left the state None. *)
Definition warmedUp (lookback : nat) (st : State) : Prop :=
  CBuffer.size (lookbackBuffer st) = lookback /\
  (positionStatus st <> None_ ->
   (lookback <= CBuffer.length (lookbackBuffer st))%nat).

(** The open position has a stop price and no risk series. *)
Definition riskUnrecorded (st : State) : Prop :=
  match openPosition st with
  | Some position =>
      isSome (curStopPrice position) = true /\ riskSeries position = None
  | None => True
  end.

(** [recordRisk] alone among the recording options. *)
Definition riskOnly : IBacktestOptions := mkOptions false true false.

(** A trade counts as winning when its profit is greater than zero. *)
Definition winning (trade : ITrade) : bool := Trade.profit trade >? 0.

(** The capital after compounding the growth of the trades, in order. *)
Definition compound (capital : num) (trades : list ITrade) : num :=
  fold_left (fun c trade => c * Trade.growth trade) trades capital.

(** [analyze] does not enter its date-range block: no options, no
    starting date, or no usable timeframe. *)
Definition noDateRange (trades : list ITrade) (options : option AnalyzeOptions) : Prop :=
  match options with
  | Some o =>
      Opt.startingDate o = None \/ truthy (timeframeFor trades options) = false
  | None => True
  end.

(** Scenario S5 cut in two. *)
Definition firstTrade : list ITrade := [closedTrade (11 / 10) 100].
Definition secondTrade : list ITrade := [closedTrade (95 / 100) (-50)].

(** Bars a status has taken since the last close: the signal bar, then the
    entry bar. *)
Definition barsTaken (status : PositionStatus) : nat :=
  match status with
  | None_ => 0
  | Enter => 1
  | Position | Exit => 2
  end.

(** Bars a run has spent on its pending or open position: the signal bar,
    the entry bar and one bar per update. *)
Definition barsUsed (st : State) : nat :=
  match positionStatus st, openPosition st with
  | None_, _ => 0
  | Enter, _ => 1
  | _, Some position => holdingPeriod position + 2
  | _, None => 2
  end.

(** Bars spent on closed trades: each its holding period, which counts the
    closing bar, and its signal and entry bars. *)
Definition barsSpent (trades : list ITrade) : nat :=
  list_sum (map (fun trade => Trade.holdingPeriod trade + 2)%nat trades).

(** * Properties *)

(** ** Numbers *)

Lemma le_Fin (a b : Q) : (Fin a <=? Fin b) = true <-> (a <= b)%Q.
Proof. apply Qle_bool_iff. Qed.

Lemma lt_Fin (a b : Q) : (Fin a <? Fin b) = true <-> (a < b)%Q.
Proof.
  unfold Num.lt, Qlt_bool. rewrite negb_true_iff.
  split; intro H.
  - apply Qnot_le_lt. intro Hle. apply Qle_bool_iff in Hle. congruence.
  - destruct (Qle_bool b a) eqn:E; [|reflexivity].
    apply Qle_bool_iff in E. exfalso. now apply (Qlt_not_le a b).
Qed.

Lemma lt_Fin_false (a b : Q) : (Fin a <? Fin b) = false <-> (b <= a)%Q.
Proof.
  unfold Num.lt, Qlt_bool. rewrite negb_false_iff. apply Qle_bool_iff.
Qed.

Lemma Fin_equiv_eq (a b : Q) : (a == b)%Q -> Fin (Qred a) = Fin (Qred b).
Proof. intro H. f_equal. now apply Qred_complete. Qed.

(** ** The intrabar exit check *)

Section ExitOrder.

Variable P : Type.
Variable strategy : IStrategy P.
Variable params : option P.
Variable bar : IBar.
Variable st : State.
Variable position : IPosition.
Hypothesis Hopen : openPosition st = Some position.
Hypothesis Hstatus : positionStatus st = Position.

Lemma exitPosition_in_position (price : num) (reason : string) :
  exists st', exitPosition (Some price, Some reason) st = Ok st'
              /\ exitsWith st' price reason
              /\ openPosition st' = openPosition st
              /\ completedTrades st' = completedTrades st.
Proof.
  unfold exitPosition. rewrite Hstatus. simpl.
  eexists. split; [reflexivity|]. repeat split.
Qed.

Lemma stopLossExit_none : stopNotHit position bar -> stopLossExit position bar = None.
Proof.
  unfold stopNotHit, stopLossExit.
  destruct (curStopPrice position); [|reflexivity].
  destruct (direction position); intros ->; reflexivity.
Qed.

Lemma profitTargetExit_none :
  targetNotHit position bar -> profitTargetExit position bar = None.
Proof.
  unfold targetNotHit, profitTargetExit.
  destruct (profitTarget position); [|reflexivity].
  destruct (direction position); intros ->; reflexivity.
Qed.

(** C1. [exitOnCondition] tests the stop-loss first, then the profit
    target, then the strategy's exit rule, and the first test that fires
    decides.  A Long stop fires when [bar.low <= curStopPrice] and exits
    at [min(curStopPrice, bar.open)]; a Short stop fires when
    [bar.high >= curStopPrice] and exits at [max(curStopPrice, bar.open)];
    both with reason "stop-loss", whatever the profit target and the exit
    rule are.  The profit target decides only when the stop did not fire,
    the exit rule only when neither fired. *)
Theorem exitOnCondition_order :
  (forall stop,
      curStopPrice position = Some stop -> direction position = Long ->
      (Bar.low bar <=? stop) = true ->
      exists st', exitOnCondition strategy params bar st = Ok st'
                  /\ exitsWith st' (Math_min stop (Bar.open bar)) "stop-loss")
  /\ (forall stop,
      curStopPrice position = Some stop -> direction position = Short ->
      (Bar.high bar >=? stop) = true ->
      exists st', exitOnCondition strategy params bar st = Ok st'
                  /\ exitsWith st' (Math_max stop (Bar.open bar)) "stop-loss")
  /\ (forall target,
      stopNotHit position bar ->
      profitTarget position = Some target ->
      match direction position with
      | Long => (Bar.high bar >=? target) = true
      | Short => (Bar.low bar <=? target) = true
      end ->
      exists st', exitOnCondition strategy params bar st = Ok st'
                  /\ exitsWith st' target "profit-target")
  /\ (stopNotHit position bar -> targetNotHit position bar ->
      exitOnCondition strategy params bar st =
      match Strategy.exitRule strategy with
      | Some rule =>
          call_handle exitPosition (rule (openArgs params position bar st)) st
      | None => Ok st
      end).
Proof.
  unfold exitOnCondition. rewrite Hopen. simpl.
  repeat split.
  - intros stop Hs Hd Hlow. unfold stopLossExit. rewrite Hs, Hd, Hlow.
    destruct (exitPosition_in_position (Math_min stop (Bar.open bar)) "stop-loss")
      as (st' & E & X & _).
    now exists st'.
  - intros stop Hs Hd Hhigh. unfold stopLossExit. rewrite Hs, Hd, Hhigh.
    destruct (exitPosition_in_position (Math_max stop (Bar.open bar)) "stop-loss")
      as (st' & E & X & _).
    now exists st'.
  - intros target Hstop Ht Hhit. rewrite (stopLossExit_none Hstop).
    unfold profitTargetExit. rewrite Ht.
    destruct (exitPosition_in_position target "profit-target")
      as (st' & E & X & _).
    destruct (direction position); rewrite Hhit; now exists st'.
  - intros Hstop Htarget.
    now rewrite (stopLossExit_none Hstop), (profitTargetExit_none Htarget).
Qed.

End ExitOrder.

(** C1 at the gap-down of scenario S2: long from 100, stop at 95, the
    bar opens at 90; the state is the one the run reaches after the entry
    bar. *)
Lemma exitOnCondition_order_witness :
  exists st',
    runLoop stopAndTarget gapDownFront None = Ok gapDownState /\
    exitOnCondition stopAndTarget None (bar 2 90 92 88 91) gapDownState = Ok st'
    /\ exitsWith st' 90 "stop-loss".
Proof.
  destruct (proj1 (exitOnCondition_order stopAndTarget None
                     (bar 2 90 92 88 91) gapDownState (position := gapDownPosition)
                     eq_refl eq_refl)
                  95 eq_refl eq_refl eq_refl) as (st' & Hexit & Hwith).
  exists st'. split; [reflexivity|]. split; [exact Hexit|exact Hwith].
Defined.

(** ** What the handles and the exit check leave untouched *)

Ltac inv_bind H :=
  match type of H with
  | bind ?c _ = Ok _ =>
      let E := fresh "E" in
      destruct c eqn:E; cbn [bind] in H; [|discriminate H]
  end.

Lemma exitPosition_frame (call : option num * option string) (st st' : State) :
  exitPosition call st = Ok st' ->
  positionStatus st = Position /\ positionStatus st' = Exit /\
  openPosition st' = openPosition st /\
  completedTrades st' = completedTrades st /\
  lookbackBuffer st' = lookbackBuffer st.
Proof.
  destruct call as [price reason]. unfold exitPosition.
  destruct (positionStatus st) eqn:E; simpl; try discriminate.
  intros [= <-]. repeat split.
Qed.

Lemma call_exitPosition_frame (calls : list (option num * option string)) :
  forall st st', call_handle exitPosition calls st = Ok st' ->
  (positionStatus st' = positionStatus st \/ positionStatus st' = Exit) /\
  openPosition st' = openPosition st /\
  completedTrades st' = completedTrades st /\
  lookbackBuffer st' = lookbackBuffer st.
Proof.
  induction calls as [|c rest IH]; simpl; intros st st' H.
  - injection H as <-. auto.
  - inv_bind H. apply exitPosition_frame in E as (_ & Ex & Eo & Ec & El).
    apply IH in H as (Hs & Ho & Hc & Hl).
    rewrite Ho, Hc, Hl. repeat split; auto.
    right. destruct Hs as [-> | ->]; auto.
Qed.

Lemma exitOnCondition_frame (P : Type) (strategy : IStrategy P)
    (params : option P) (b : IBar) (st st' : State) :
  exitOnCondition strategy params b st = Ok st' ->
  (positionStatus st' = positionStatus st \/ positionStatus st' = Exit) /\
  openPosition st' = openPosition st /\
  completedTrades st' = completedTrades st /\
  lookbackBuffer st' = lookbackBuffer st.
Proof.
  unfold exitOnCondition. intro H. inv_bind H.
  destruct (openPosition st) as [p|] eqn:Eo; [|discriminate].
  destruct (stopLossExit p b).
  { apply exitPosition_frame in H. rewrite Eo in H. intuition congruence. }
  destruct (profitTargetExit p b).
  { apply exitPosition_frame in H. rewrite Eo in H. intuition congruence. }
  destruct (Strategy.exitRule strategy).
  - apply call_exitPosition_frame in H. now rewrite Eo in H.
  - injection H as <-. auto.
Qed.

(** ** The trailing stop *)

Ltac stage :=
  repeat match goal with
         | |- context [match ?x with _ => _ end] => destruct x eqn:?
         | |- context [if ?x then _ else _] => destruct x eqn:?
         end;
  cbn in *; try congruence; auto.

Section Stages.

Variable P : Type.
Variable strategy : IStrategy P.
Variable options : IBacktestOptions.
Variable params : option P.

Lemma updateRunUp_fields (b : IBar) (p : IPosition) :
  direction (updateRunUp b p) = direction p /\
  initialStopPrice (updateRunUp b p) = initialStopPrice p /\
  curStopPrice (updateRunUp b p) = curStopPrice p /\
  holdingPeriod (updateRunUp b p) = holdingPeriod p /\
  rateOfReturnSeries (updateRunUp b p) = rateOfReturnSeries p.
Proof. unfold updateRunUp. stage. Qed.

Lemma updatePosition_fields (p : IPosition) (b : IBar) :
  direction (updatePosition p b) = direction p /\
  initialStopPrice (updatePosition p b) = initialStopPrice p /\
  curStopPrice (updatePosition p b) = curStopPrice p /\
  holdingPeriod (updatePosition p b) = S (holdingPeriod p) /\
  rateOfReturnSeries (updatePosition p b) = rateOfReturnSeries p.
Proof.
  destruct p as [d et ep g pr pp hp cr ru isp [stop|] iur irp crp crm pt rs rr sp];
    cbn; rewrite Nat.add_1_r; auto.
Qed.

Lemma recordRiskSample_fields (b : IBar) (p p' : IPosition) :
  recordRiskSample options b p = Ok p' ->
  direction p' = direction p /\
  initialStopPrice p' = initialStopPrice p /\
  curStopPrice p' = curStopPrice p /\
  holdingPeriod p' = holdingPeriod p /\
  rateOfReturnSeries p' = rateOfReturnSeries p.
Proof.
  unfold recordRiskSample, pushSample. destruct p as [d et ep g pr pp hp cr ru isp csp iur irp crp crm pt rs rr sp]. cbn.
  destruct crp, (recordRisk options), rs; cbn;
    try discriminate; intros [= <-]; auto.
Qed.

Lemma recordRateOfReturnSample_fields (b : IBar) (p p' : IPosition) :
  recordRateOfReturnSample options b p = Ok p' ->
  direction p' = direction p /\
  initialStopPrice p' = initialStopPrice p /\
  curStopPrice p' = curStopPrice p /\
  holdingPeriod p' = holdingPeriod p.
Proof.
  unfold recordRateOfReturnSample, pushSample. destruct p as [d et ep g pr pp hp cr ru isp csp iur irp crp crm pt rs rr sp]. cbn.
  destruct (recordRateOfReturn options), rr; cbn;
    try discriminate; intros [= <-]; auto.
Qed.

Lemma revaluateTrailingStop_stop (b : IBar) (st : State) (p p' : IPosition)
    (tsl : IOpenPositionRuleArgs P -> num) :
  Strategy.trailingStopLoss strategy = Some tsl ->
  revaluateTrailingStop strategy options params b st p = Ok p' ->
  direction p' = direction p /\
  initialStopPrice p' = initialStopPrice p /\
  curStopPrice p' =
    Some (trailedStop (direction p) (initialStopPrice p) (Bar.close b)
                      (tsl (openArgs params p b st))).
Proof.
  unfold revaluateTrailingStop, pushSample. intros ->.
  destruct p as [d et ep g pr pp hp cr ru isp csp iur irp crp crm pt rs rr sp]. cbn.
  destruct (recordStopPrice options); cbn.
  - destruct sp; cbn; try discriminate.
    intros [= <-]; auto.
  - intros [= <-]; auto.
Qed.

(** The position the Enter case builds before the exit check, when the
    strategy has no [stopLoss]. *)
Lemma enter_stages_no_stop (b : IBar) (st : State) :
  Strategy.stopLoss strategy = None ->
  let p := applyProfitTarget strategy params b st
             (initialiseRateOfReturn options
                (initialiseRisk options b
                   (applyStopLoss strategy params b st
                      (newPosition (positionDirection st) b)))) in
  direction p = positionDirection st /\ initialStopPrice p = None.
Proof.
  intros Hs. unfold applyStopLoss. rewrite Hs.
  unfold applyProfitTarget, initialiseRateOfReturn, initialiseRisk, newPosition.
  cbn. destruct (Strategy.profitTarget strategy), (recordRateOfReturn options);
    cbn; auto.
Qed.

Lemma applyTrailingStop_no_initial (b : IBar) (st : State) (p : IPosition)
    (tsl : IOpenPositionRuleArgs P -> num) :
  Strategy.trailingStopLoss strategy = Some tsl ->
  initialStopPrice p = None ->
  let p' := applyTrailingStop strategy options params b st p in
  direction p' = direction p /\
  initialStopPrice p' = None /\
  curStopPrice p' =
    Some (match direction p with
          | Long => Bar.close b - tsl (openArgs params p b st)
          | Short => Bar.close b + tsl (openArgs params p b st)
          end).
Proof.
  intros Ht Hi. unfold applyTrailingStop. rewrite Ht.
  destruct p as [d et ep g pr pp hp cr ru isp csp iur irp crp crm pt rs rr sp]. cbn in *. subst isp.
  destruct (recordStopPrice options); cbn; auto.
Qed.

End Stages.

(** One bar in the Position state: the stop it leaves, when the strategy
    has a trailing stop. *)
Lemma casePosition_stop (P : Type) (strategy : IStrategy P)
    (options : IBacktestOptions) (params : option P) (b : IBar)
    (st st' : State) (p : IPosition) (tsl : IOpenPositionRuleArgs P -> num)
    (d : num) :
  Strategy.trailingStopLoss strategy = Some tsl ->
  (forall args, tsl args = d) ->
  openPosition st = Some p ->
  casePosition strategy options params b st = Ok st' ->
  exists p', openPosition st' = Some p' /\
             direction p' = direction p /\
             initialStopPrice p' = initialStopPrice p /\
             curStopPrice p' =
               Some (trailedStop (direction p) (initialStopPrice p) (Bar.close b) d).
Proof.
  intros Ht Hd Ho H. unfold casePosition in H. rewrite Ho in H. cbn in H.
  inv_bind H. apply recordRiskSample_fields in E as (D1 & I1 & _).
  inv_bind H. apply recordRateOfReturnSample_fields in E as (D2 & I2 & _).
  inv_bind H. inv_bind H.
  apply (revaluateTrailingStop_stop _ _ _ _ _ _ Ht) in E0 as (D3 & I3 & C3).
  injection H as <-. eexists. split; [reflexivity|].
  destruct (updateRunUp_fields b a2) as (D4 & I4 & C4 & _).
  destruct (updatePosition_fields p b) as (D0 & I0 & _).
  rewrite D4, I4, C4, D3, I3, C3, Hd, D2, I2, D1, I1, D0, I0. auto.
Qed.

(** C2 (as amended).  Long entry, trailing distance 5, no initial stop,
    bars closing at 102, 108, 106: the stop is 97 after the entry bar, 103
    after the bar closing at 108, and 101 after the bar closing at 106.
    The stop is recomputed from each close; it is not kept at 103 when the
    close falls back. *)
Theorem trailing_stop_follows_close :
  forall (P : Type) (strategy : IStrategy P) (options : IBacktestOptions)
         (params : option P) (tsl : IOpenPositionRuleArgs P -> num)
         (b1 b2 b3 : IBar) (st st1 st2 st3 : State),
    Strategy.stopLoss strategy = None ->
    Strategy.trailingStopLoss strategy = Some tsl ->
    (forall args, tsl args = 5) ->
    positionDirection st = Long ->
    Bar.close b1 = 102 -> Bar.close b2 = 108 -> Bar.close b3 = 106 ->
    caseEnter strategy options params b1 st = Ok st1 ->
    casePosition strategy options params b2 st1 = Ok st2 ->
    casePosition strategy options params b3 st2 = Ok st3 ->
    stopOf st1 = Some 97 /\ stopOf st2 = Some 103 /\ stopOf st3 = Some 101.
Proof.
  intros P strategy options params tsl b1 b2 b3 st st1 st2 st3
         Hs Ht Hd Hl C1 C2 C3 H1 H2 H3.
  unfold caseEnter in H1. inv_bind H1. cbn zeta in H1. inv_bind H1.
  injection H1 as <-.
  destruct (enter_stages_no_stop strategy options params b1 st Hs) as (D0 & I0).
  match type of E0 with
  | exitOnCondition _ _ _ (set_positionStatus _ (set_openPosition (Some ?q) _)) = _ =>
      set (p0 := q) in *
  end.
  destruct (applyTrailingStop_no_initial strategy options params b1 a0 p0 Ht I0)
    as (D1 & I1 & S1).
  set (p1 := applyTrailingStop strategy options params b1 a0 p0) in *.
  destruct (updateRunUp_fields b1 p1) as (D1' & I1' & S1' & _).
  assert (O1 : openPosition (set_openPosition (Some (updateRunUp b1 p1)) a0)
               = Some (updateRunUp b1 p1)) by (destruct a0; reflexivity).
  destruct (casePosition_stop _ _ _ _ _ Ht Hd O1 H2) as (p2 & O2 & D2 & I2 & S2).
  destruct (casePosition_stop _ _ _ _ _ Ht Hd O2 H3) as (p3 & O3 & D3 & I3 & S3).
  unfold stopOf. rewrite O1, O2, O3, S1', S1, S2, S3.
  rewrite D2, I2, D1', I1', D1, I1, D0, Hl, Hd, C1, C2, C3.
  repeat split.
Qed.

(** C2 on the bars of scenario S4. *)
Lemma trailing_stop_follows_close_witness :
  exists st1 st2 st3,
    runLoop trailing5 (firstn 1 ratchetBars) None = Ok ratchetSignalled /\
    caseEnter trailing5 defaultOptions None (bar 1 100 103 99 102)
              ratchetSignalled = Ok st1 /\
    casePosition trailing5 defaultOptions None (bar 2 102 109 101 108) st1 = Ok st2 /\
    casePosition trailing5 defaultOptions None (bar 3 108 108 105 106) st2 = Ok st3 /\
    stopOf st1 = Some 97 /\ stopOf st2 = Some 103 /\ stopOf st3 = Some 101.
Proof.
  do 3 eexists.
  split; [reflexivity|].
  split; [reflexivity|]. split; [reflexivity|]. split; [reflexivity|].
  exact (trailing_stop_follows_close
           trailing5 defaultOptions None
           (bar 1 100 103 99 102) (bar 2 102 109 101 108) (bar 3 108 108 105 106)
           ratchetSignalled eq_refl eq_refl (fun _ => eq_refl) eq_refl
           eq_refl eq_refl eq_refl eq_refl eq_refl eq_refl).
Defined.

(** C2 as stated fails: on the bars of S4 the stop is 103 after the bar
    closing at 108 and 101, not 103, after the bar closing at 106. *)
Lemma trailing_stop_loosens :
  exists st2 st3,
    runLoop trailing5 (firstn 3 ratchetBars) None = Ok st2 /\
    runLoop trailing5 ratchetBars None = Ok st3 /\
    stopOf st2 = Some 103 /\
    stopOf st3 = Some 101 /\
    stopOf st3 <> Some 103.
Proof.
  do 2 eexists.
  split; [vm_compute; reflexivity|]. split; [vm_compute; reflexivity|].
  repeat split. discriminate.
Qed.

(** ** The rate-of-return series has one sample per bar held *)

Lemma enterPosition_frame (o : option IEnterPositionOptions) (st st' : State) :
  enterPosition o st = Ok st' ->
  positionStatus st = None_ /\ positionStatus st' = Enter /\
  openPosition st' = openPosition st /\
  completedTrades st' = completedTrades st /\
  lookbackBuffer st' = lookbackBuffer st.
Proof.
  unfold enterPosition.
  destruct (positionStatus st) eqn:E; simpl; try discriminate.
  intros [= <-]. repeat split.
Qed.

Lemma call_enterPosition_frame (calls : list (option IEnterPositionOptions)) :
  forall st st', call_handle enterPosition calls st = Ok st' ->
  (positionStatus st' = positionStatus st \/
   positionStatus st = None_ /\ positionStatus st' = Enter) /\
  openPosition st' = openPosition st /\
  completedTrades st' = completedTrades st /\
  lookbackBuffer st' = lookbackBuffer st.
Proof.
  induction calls as [|c rest IH]; simpl; intros st st' H.
  - injection H as <-. auto.
  - inv_bind H. apply enterPosition_frame in E as (En & Ex & Eo & Ec & El).
    apply IH in H as (Hs & Ho & Hc & Hl).
    rewrite Ho, Hc, Hl. repeat split; auto.
    right. split; [assumption|]. destruct Hs as [-> | [_ ->]]; auto.
Qed.

Lemma finalizePosition_sampled (p : IPosition) (t : Date) (price : num)
    (reason : string) (fee : num) :
  positionSampled p -> tradeSampled (finalizePosition p t price reason fee).
Proof.
  unfold positionSampled, tradeSampled, sampleCount.
  destruct p as [d et ep g pr pp hp cr ru isp csp iur irp crp crm pt rs rr sp].
  cbn. destruct rr as [l|]; cbn; [|discriminate].
  intros [= <-]. rewrite length_app. cbn. reflexivity.
Qed.

Section Sampled.

Variable P : Type.
Variable strategy : IStrategy P.
Variable options : IBacktestOptions.
Variable lookback : nat.
Variable params : option P.
Variable fee : num.
Hypothesis Hrecord : recordRateOfReturn options = true.

Lemma applyTrailingStop_sampled (b : IBar) (st : State) (p : IPosition) :
  positionSampled p ->
  positionSampled (applyTrailingStop strategy options params b st p).
Proof.
  unfold positionSampled, applyTrailingStop.
  destruct p as [d et ep g pr pp hp cr ru isp csp iur irp crp crm pt rs rr sp].
  cbn. intro H.
  destruct (Strategy.trailingStopLoss strategy), isp, (recordStopPrice options);
    cbn; exact H.
Qed.

Lemma updateRunUp_sampled (b : IBar) (p : IPosition) :
  positionSampled p -> positionSampled (updateRunUp b p).
Proof.
  unfold positionSampled.
  destruct (updateRunUp_fields b p) as (_ & _ & _ & -> & ->). auto.
Qed.

Lemma enter_stages_sampled (b : IBar) (st : State) :
  positionSampled
    (applyProfitTarget strategy params b st
       (initialiseRateOfReturn options
          (initialiseRisk options b
             (applyStopLoss strategy params b st
                (newPosition (positionDirection st) b))))).
Proof.
  unfold positionSampled, applyProfitTarget, initialiseRateOfReturn,
    initialiseRisk, applyStopLoss, newPosition.
  rewrite Hrecord.
  destruct (Strategy.profitTarget strategy), (Strategy.stopLoss strategy),
    (recordRisk options); reflexivity.
Qed.

Lemma caseEnter_sampled (b : IBar) (st st' : State) :
  stateSampled st -> caseEnter strategy options params b st = Ok st' ->
  stateSampled st'.
Proof.
  intros [Ht _] H. unfold caseEnter in H. inv_bind H. cbn zeta in H.
  inv_bind H. injection H as <-.
  apply exitOnCondition_frame in E0 as (_ & _ & Ec & _).
  destruct st, a0; cbn in *. subst. split; [assumption|].
  apply updateRunUp_sampled, applyTrailingStop_sampled.
  apply (enter_stages_sampled b
           (mkState completedTrades0 positionStatus0 exitPrice0 exitReason0
                    positionDirection0 openPosition0 lookbackBuffer0)).
Qed.

Lemma casePosition_sampled (b : IBar) (st st' : State) :
  stateSampled st -> casePosition strategy options params b st = Ok st' ->
  stateSampled st'.
Proof.
  intros [Ht Hp] H. unfold casePosition in H. inv_bind H.
  destruct (openPosition st) as [p|] eqn:Eo; [|discriminate].
  cbn zeta in H. inv_bind H. inv_bind H. inv_bind H. inv_bind H.
  injection H as <-.
  apply exitOnCondition_frame in E2 as (_ & _ & Ec & _).
  assert (Ha1 : positionSampled a1).
  { clear E3 Ec.
    apply recordRiskSample_fields in E0 as (_ & _ & _ & Hh & Hr).
    destruct (updatePosition_fields p b) as (_ & _ & _ & Hh0 & Hr0).
    unfold recordRateOfReturnSample, pushSample in E1. rewrite Hrecord in E1.
    unfold positionSampled, sampleCount in *.
    destruct p as [d et ep g pr pp hp cr ru isp csp iur irp crp crm pt rs rr sp].
    destruct a0 as [d' et' ep' g' pr' pp' hp' cr' ru' isp' csp' iur' irp' crp'
                    crm' pt' rs' rr' sp'].
    cbn in Hp, Hh, Hr, Hh0, Hr0, E1. subst rr' hp'. rewrite Hr0 in E1.
    destruct rr as [l|]; cbn in *; [|discriminate].
    injection E1 as <-. injection Hp as <-. cbn.
    rewrite length_app, Hh0. cbn. now rewrite Nat.add_1_r. }
  assert (Ha3 : positionSampled a3).
  { clear E0 E1 Ec. unfold revaluateTrailingStop, pushSample in E3.
    unfold positionSampled in *.
    destruct a1 as [d et ep g pr pp hp cr ru isp csp iur irp crp crm pt rs rr sp].
    cbn in *.
    destruct (Strategy.trailingStopLoss strategy), (recordStopPrice options), sp;
      cbn in E3; try discriminate; injection E3 as <-; exact Ha1. }
  destruct st, a2; cbn in *. subst. split; [assumption|].
  now apply updateRunUp_sampled.
Qed.

Lemma loopBody_sampled (b : IBar) (st st' : State) :
  stateSampled st ->
  loopBody strategy options lookback params fee b st = Ok st' ->
  stateSampled st'.
Proof.
  intros Hs H. unfold loopBody in H.
  set (st0 := set_lookbackBuffer _ st) in H.
  assert (Hs0 : stateSampled st0) by (destruct st; exact Hs).
  clearbody st0.
  destruct (Nat.ltb _ lookback); [now injection H as <-|].
  destruct (positionStatus st0).
  - unfold caseNone in H. apply call_enterPosition_frame in H as (_ & Ho & Hc & _).
    unfold stateSampled. now rewrite Ho, Hc.
  - eapply caseEnter_sampled; eauto.
  - eapply casePosition_sampled; eauto.
  - unfold caseExit, closePosition in H. inv_bind H.
    destruct Hs0 as [Ht Hp].
    destruct (openPosition st0) as [p|] eqn:Eo; [|discriminate].
    injection H as <-. destruct st0; cbn in *. subst. split; [|exact I].
    apply Forall_app. split; [assumption|]. constructor; [|constructor].
    now apply finalizePosition_sampled.
Qed.

Lemma forOf_sampled (bars : list IBar) :
  forall st st', stateSampled st ->
  forOf strategy options lookback params fee bars st = Ok st' ->
  stateSampled st'.
Proof.
  induction bars as [|b rest IH]; simpl; intros st st' Hs H.
  - now injection H as <-.
  - inv_bind H. eauto using loopBody_sampled.
Qed.

End Sampled.

(** How a successful [backtest] ends: the loop's final state, and the
    trade list with the open position finalized at the last bar. *)
Lemma backtest_inv (P : Type) (strategy : IStrategy P) (bars : list IBar)
    (options : option IBacktestOptions) (trades : list ITrade) :
  backtest strategy bars options = Ok trades ->
  exists tf st,
    timeframeOf bars = Ok tf /\
    runLoop strategy bars options = Ok st /\
    ((openPosition st = None /\ trades = completedTrades st) \/
     (exists p lastBar,
         openPosition st = Some p /\
         series_last (indicatorsOf strategy bars) = Ok lastBar /\
         trades = completedTrades st ++
                  [finalizePosition p
                     (new_Date (getTime (Bar.time lastBar) + tf))
                     (Bar.close lastBar) "finalize" (feesOf strategy)])).
Proof.
  unfold backtest. destruct bars as [|b0 rest]; [discriminate|].
  destruct (Nat.ltb _ _); [discriminate|].
  intro H. inv_bind H. inv_bind H. exists a, a0. repeat split.
  destruct (openPosition a0) as [p|]; cbn in H.
  - inv_bind H. injection H as <-. right. exists p, a1. auto.
  - injection H as <-. auto.
Qed.

(** C3 (as amended).  With [recordRateOfReturn] on, every trade that
    [backtest] returns has exactly as many rate-of-return samples as its
    [holdingPeriod]: one per position update and one at the close, the
    close counting as a bar held. *)
Theorem rateOfReturnSeries_length :
  forall (P : Type) (strategy : IStrategy P) (bars : list IBar)
         (options : IBacktestOptions) (trades : list ITrade),
    recordRateOfReturn options = true ->
    backtest strategy bars (Some options) = Ok trades ->
    Forall (fun trade =>
              exists series,
                Trade.rateOfReturnSeries trade = Some series /\
                List.length series = Trade.holdingPeriod trade)
           trades.
Proof.
  intros P strategy bars options trades Hrec H.
  apply backtest_inv in H as (tf & st & _ & Hrun & Hend).
  assert (Hs : stateSampled st).
  { unfold runLoop in Hrun. eapply forOf_sampled; [exact Hrec| |exact Hrun].
    split; [constructor|exact I]. }
  assert (Hall : Forall tradeSampled trades).
  { destruct Hs as [Ht Hp].
    destruct Hend as [[_ ->] | (p & lastBar & Ho & _ & ->)]; [assumption|].
    rewrite Ho in Hp. apply Forall_app. split; [assumption|].
    constructor; [|constructor]. now apply finalizePosition_sampled. }
  eapply Forall_impl; [|exact Hall].
  intros t Ht. unfold tradeSampled, sampleCount in Ht.
  destruct (Trade.rateOfReturnSeries t) as [l|]; [|discriminate].
  injection Ht as Ht. now exists l.
Qed.

(** C3 on the bars of scenario S4, with the series recorded. *)
Lemma rateOfReturnSeries_length_witness :
  exists trades,
    backtest trailing5 ratchetBars (Some (mkOptions false false true)) = Ok trades /\
    Forall (fun trade =>
              exists series,
                Trade.rateOfReturnSeries trade = Some series /\
                List.length series = Trade.holdingPeriod trade)
           trades.
Proof.
  eexists. split; [vm_compute; reflexivity|].
  exact (rateOfReturnSeries_length trailing5 ratchetBars
           (mkOptions false false true) eq_refl eq_refl).
Defined.

(** C3 as stated fails: the S4 run yields one trade held 3 bars with 3
    samples, not 4. *)
Lemma rateOfReturnSeries_not_one_more :
  exists trade series,
    backtest trailing5 ratchetBars (Some (mkOptions false false true)) = Ok [trade] /\
    Trade.rateOfReturnSeries trade = Some series /\
    Trade.holdingPeriod trade = 3%nat /\
    List.length series = 3%nat /\
    List.length series <> (Trade.holdingPeriod trade + 1)%nat.
Proof.
  do 2 eexists. split; [vm_compute; reflexivity|].
  cbn. repeat split. discriminate.
Qed.

(** ** The end of the series *)

Section Loop.

Variable P : Type.
Variable strategy : IStrategy P.
Variable options : IBacktestOptions.
Variable lookback : nat.
Variable params : option P.
Variable fee : num.

Lemma forOf_app (l1 l2 : list IBar) (st : State) :
  forOf strategy options lookback params fee (l1 ++ l2) st =
  (st' <- forOf strategy options lookback params fee l1 st ;;
   forOf strategy options lookback params fee l2 st').
Proof.
  revert st. induction l1 as [|b rest IH]; intro st; simpl; [reflexivity|].
  destruct (loopBody strategy options lookback params fee b st); simpl; auto.
Qed.

Lemma loopBody_statusAgrees (b : IBar) (st st' : State) :
  statusAgrees st ->
  loopBody strategy options lookback params fee b st = Ok st' ->
  statusAgrees st'.
Proof.
  intros Hs H. unfold loopBody in H.
  set (st0 := set_lookbackBuffer _ st) in H.
  assert (Hs0 : statusAgrees st0) by (destruct st; exact Hs).
  clearbody st0.
  destruct (Nat.ltb _ lookback); [now injection H as <-|].
  unfold statusAgrees in *.
  destruct (positionStatus st0) eqn:E0.
  - unfold caseNone in H.
    apply call_enterPosition_frame in H as ([Hst | [_ Hst]] & Ho & _);
      rewrite Hst, ?E0, Ho; exact Hs0.
  - unfold caseEnter in H. inv_bind H. cbn zeta in H. inv_bind H.
    injection H as <-.
    apply exitOnCondition_frame in E1 as (Hst & _).
    destruct st0, a0; cbn in *.
    destruct Hst as [-> | ->]; eauto.
  - unfold casePosition in H. inv_bind H.
    destruct (openPosition st0) as [p|] eqn:Eo; [|discriminate].
    cbn zeta in H. do 4 inv_bind H. injection H as <-.
    apply exitOnCondition_frame in E3 as (Hst & _).
    destruct st0, a2; cbn in *.
    destruct Hst as [-> | ->]; subst; eauto.
  - unfold caseExit, closePosition in H. inv_bind H.
    destruct (openPosition st0); [|discriminate].
    injection H as <-. destruct st0; reflexivity.
Qed.

Lemma forOf_statusAgrees (bars : list IBar) :
  forall st st', statusAgrees st ->
  forOf strategy options lookback params fee bars st = Ok st' ->
  statusAgrees st'.
Proof.
  induction bars as [|b rest IH]; simpl; intros st st' Hs H.
  - now injection H as <-.
  - inv_bind H. eauto using loopBody_statusAgrees.
Qed.

(** A bar seen in state None completes no trade. *)
Lemma loopBody_None_trades (b : IBar) (st st' : State) :
  positionStatus st = None_ ->
  loopBody strategy options lookback params fee b st = Ok st' ->
  completedTrades st' = completedTrades st.
Proof.
  intros Hn H. unfold loopBody in H.
  set (st0 := set_lookbackBuffer _ st) in H.
  assert (Hn0 : positionStatus st0 = None_) by (destruct st; exact Hn).
  assert (Hc0 : completedTrades st0 = completedTrades st) by (destruct st; reflexivity).
  clearbody st0.
  destruct (Nat.ltb _ lookback); [injection H as <-; exact Hc0|].
  rewrite Hn0 in H. unfold caseNone in H.
  apply call_enterPosition_frame in H as (_ & _ & Hc & _). congruence.
Qed.

End Loop.

Lemma initialState_statusAgrees (n : nat) : statusAgrees (initialState n).
Proof. reflexivity. Qed.

Lemma runLoop_statusAgrees (P : Type) (strategy : IStrategy P)
    (bars : list IBar) (options : option IBacktestOptions) (st : State) :
  runLoop strategy bars options = Ok st -> statusAgrees st.
Proof.
  unfold runLoop. apply forOf_statusAgrees, initialState_statusAgrees.
Qed.

Lemma enoughBars_cons (P : Type) (strategy : IStrategy P) (bars : list IBar) :
  enoughBars strategy bars -> exists b rest, bars = b :: rest.
Proof.
  unfold enoughBars, lookbackPeriodOf. destruct bars as [|b rest]; [|eauto].
  destruct (Strategy.lookbackPeriod strategy) as [[|n]|]; discriminate.
Qed.

(** [backtest] when the loop ends with a position open. *)
Lemma backtest_open (P : Type) (strategy : IStrategy P) (bars : list IBar)
    (options : option IBacktestOptions) (st : State) (p : IPosition) :
  enoughBars strategy bars ->
  runLoop strategy bars options = Ok st ->
  openPosition st = Some p ->
  exists tf lastBar,
    timeframeOf bars = Ok tf /\
    series_last (indicatorsOf strategy bars) = Ok lastBar /\
    backtest strategy bars options =
    Ok (completedTrades st ++
        [finalizePosition p (new_Date (getTime (Bar.time lastBar) + tf))
                          (Bar.close lastBar) "finalize" (feesOf strategy)]).
Proof.
  intros He Hrun Ho.
  destruct (enoughBars_cons He) as (b0 & rest & ->).
  assert (Hlast : exists lastBar, series_last (indicatorsOf strategy (b0 :: rest)) = Ok lastBar).
  { unfold runLoop in Hrun.
    destruct (indicatorsOf strategy (b0 :: rest)) as [|x l]; [|simpl; eauto].
    simpl in Hrun. injection Hrun as <-. discriminate Ho. }
  destruct Hlast as (lastBar & Hlast).
  unfold backtest. unfold enoughBars in He. rewrite He.
  unfold timeframeOf at 1. cbn [series_last series_first bind].
  rewrite Hrun. cbn [bind]. rewrite Ho, Hlast. cbn [bind].
  eexists _, lastBar. repeat split; try reflexivity.
Qed.

(** [backtest] when the loop ends with no position open. *)
Lemma backtest_flat (P : Type) (strategy : IStrategy P) (bars : list IBar)
    (options : option IBacktestOptions) (st : State) :
  enoughBars strategy bars ->
  runLoop strategy bars options = Ok st ->
  openPosition st = None ->
  backtest strategy bars options = Ok (completedTrades st).
Proof.
  intros He Hrun Ho.
  destruct (enoughBars_cons He) as (b0 & rest & ->).
  unfold backtest. unfold enoughBars in He. rewrite He.
  unfold timeframeOf. cbn [series_last series_first bind].
  rewrite Hrun. cbn [bind]. now rewrite Ho.
Qed.

Lemma finalizePosition_fields (p : IPosition) (t : Date) (price : num)
    (reason : string) (fee : num) :
  let trade := finalizePosition p t price reason fee in
  Trade.direction trade = direction p /\
  Trade.entryTime trade = entryTime p /\
  Trade.entryPrice trade = entryPrice p /\
  Trade.exitTime trade = t /\
  Trade.exitPrice trade = price /\
  Trade.exitReason trade = reason.
Proof.
  destruct p as [d et ep g pr pp hp cr ru isp csp iur irp crp crm pt rs [rr|] sp];
    cbn; repeat split.
Qed.

(** What [finalizePosition] computes at the close: the profit and the
    growth from the entry and exit prices, the fee taken off the growth,
    and one more bar held. *)
Lemma finalizePosition_close (p : IPosition) (t : Date) (price : num)
    (reason : string) (fee : num) :
  let trade := finalizePosition p t price reason fee in
  let raw := rawGrowth (direction p) (entryPrice p) price in
  Trade.profit trade = match direction p with
                       | Long => price - entryPrice p
                       | Short => entryPrice p - price
                       end /\
  Trade.growth trade = raw - raw * fee /\
  Trade.holdingPeriod trade = (holdingPeriod p + 1)%nat /\
  Trade.profitPct trade = (Trade.profit trade / entryPrice p) * 100 /\
  Trade.rmultiple trade
  = option_map (fun risk => Trade.profit trade / risk) (initialUnitRisk p) /\
  Trade.rateOfReturnSeries trade
  = option_map
      (fun series =>
         series ++ [mkSample t (Trade.growth trade / growth p - 1)])
      (rateOfReturnSeries p).
Proof.
  destruct p as [d et ep g pr pp hp cr ru isp csp [iur|] irp crp crm pt rs [rr|] sp];
    cbn -[Num.sub Num.mul Num.div]; repeat split.
Qed.

(** C6.  A position still open after the last bar is finalized at the
    last bar's close, at the last bar's time plus the timeframe, with
    reason "finalize"; the timeframe is
    [round((last.time - first.time) / count)] over the input series.
    The last bar finalized at is the last of the indicator series, which
    is the input series when the strategy has no [prepIndicators].
    The trade appended is the open position closed by [finalizePosition]:
    it keeps the position's direction, entry time and entry price, its
    profit is the last close less the entry price (the entry price less
    the last close for a short), its growth is the ratio of the two prices
    with the fee taken off, and it has held one bar more than the
    position. *)
Theorem open_position_finalized_at_last_bar :
  forall (P : Type) (strategy : IStrategy P) (bars : list IBar)
         (options : option IBacktestOptions) (st : State) (position : IPosition),
    enoughBars strategy bars ->
    runLoop strategy bars options = Ok st ->
    openPosition st = Some position ->
    exists first last lastBar trade,
      series_first bars = Ok first /\
      series_last bars = Ok last /\
      series_last (indicatorsOf strategy bars) = Ok lastBar /\
      (Strategy.prepIndicators strategy = None -> lastBar = last) /\
      backtest strategy bars options = Ok (completedTrades st ++ [trade]) /\
      Trade.exitPrice trade = Bar.close lastBar /\
      Trade.exitTime trade =
        new_Date (getTime (Bar.time lastBar)
                  + Math_round ((getTime (Bar.time last) - getTime (Bar.time first))
                                / series_count bars)) /\
      Trade.exitReason trade = "finalize" /\
      trade = finalizePosition position (Trade.exitTime trade)
                (Bar.close lastBar) "finalize" (feesOf strategy) /\
      Trade.direction trade = direction position /\
      Trade.entryTime trade = entryTime position /\
      Trade.entryPrice trade = entryPrice position /\
      Trade.profit trade =
        match direction position with
        | Long => Bar.close lastBar - entryPrice position
        | Short => entryPrice position - Bar.close lastBar
        end /\
      Trade.growth trade =
        rawGrowth (direction position) (entryPrice position) (Bar.close lastBar)
        - rawGrowth (direction position) (entryPrice position) (Bar.close lastBar)
          * feesOf strategy /\
      Trade.holdingPeriod trade = (holdingPeriod position + 1)%nat /\
      Trade.profitPct trade = (Trade.profit trade / entryPrice position) * 100 /\
      Trade.rmultiple trade
      = option_map (fun risk => Trade.profit trade / risk)
                   (initialUnitRisk position) /\
      Trade.rateOfReturnSeries trade
      = option_map
          (fun series =>
             series ++ [mkSample (Trade.exitTime trade)
                                 (Trade.growth trade / growth position - 1)])
          (rateOfReturnSeries position).
Proof.
  intros P strategy bars options st position He Hrun Ho.
  destruct (@backtest_open _ _ _ _ _ _ He Hrun Ho) as (tf & lastBar & Htf & Hlast & Hb).
  destruct (enoughBars_cons He) as (b0 & rest & ->).
  unfold timeframeOf in Htf. cbn [series_last series_first bind] in Htf.
  injection Htf as <-.
  exists b0, (List.last rest b0), lastBar. eexists.
  split; [reflexivity|]. split; [reflexivity|]. split; [exact Hlast|].
  split.
  { intro Hprep. unfold indicatorsOf in Hlast. rewrite Hprep in Hlast.
    cbn in Hlast. now injection Hlast as <-. }
  split; [exact Hb|].
  match goal with
  | |- context [finalizePosition ?p ?t ?x ?r ?f] =>
      destruct (finalizePosition_fields p t x r f) as (Fd & Ft & Fe & Fx & Fp & Fr);
      destruct (finalizePosition_close p t x r f) as (Cp & Cg & Ch & Cq & Cm & Cs)
  end.
  split; [exact Fp|]. split; [exact Fx|]. split; [exact Fr|].
  split; [rewrite Fx; reflexivity|].
  split; [exact Fd|]. split; [exact Ft|]. split; [exact Fe|].
  split; [exact Cp|]. split; [exact Cg|]. split; [exact Ch|].
  split; [exact Cq|]. split; [exact Cm|].
  rewrite Fx. exact Cs.
Qed.

(** C6 on scenario S1: entry at 110, finalized at the last close 120 with
    a profit of 10 after two bars held. *)
Lemma open_position_finalized_at_last_bar_witness :
  exists st trade,
    runLoop alwaysIn risingBars None = Ok st /\
    backtest alwaysIn risingBars None = Ok (completedTrades st ++ [trade]) /\
    Trade.entryPrice trade = 110 /\
    Trade.exitPrice trade = 120 /\
    Trade.exitTime trade = mkDate 3 /\
    Trade.exitReason trade = "finalize" /\
    Trade.profit trade = 10 /\
    Trade.growth trade = 120 / 110 - (120 / 110) * 0 /\
    Trade.holdingPeriod trade = 2%nat.
Proof.
  destruct (@open_position_finalized_at_last_bar unit alwaysIn risingBars None
              _ _ eq_refl eq_refl eq_refl)
    as (first & last & lastBar & trade & Hf & Hl & Hi & _ & Hb & Hp & Ht & Hr
        & _ & _ & _ & He & Hprofit & Hgrowth & Hheld & _).
  injection Hf as <-. injection Hl as <-. injection Hi as <-.
  eexists _, trade. split; [reflexivity|]. split; [exact Hb|].
  split; [exact He|]. split; [exact Hp|]. split; [exact Ht|].
  split; [exact Hr|]. split; [exact Hprofit|]. split; [exact Hgrowth|exact Hheld].
Defined.

(** C8.  A transition still pending when the bars run out is not
    committed as signalled.  (a) When the entry rule calls [enterPosition]
    on the last bar (the state goes from None to Enter there), [backtest]
    returns the trades completed before that bar and nothing for the
    signal.  (b) When the loop ends in state Exit, whatever [exitPrice] and
    [exitReason] were recorded, the position is still open and is
    finalized at the last bar's close with reason "finalize": the trade
    appended is that position closed by [finalizePosition] at the last
    close, one timeframe after the last bar, with the profit and the growth
    of the last close and one more bar held; the recorded exit price and
    reason appear nowhere in it. *)
Theorem pending_transition_not_committed :
  forall (P : Type) (strategy : IStrategy P) (bars : list IBar)
         (options : option IBacktestOptions),
    enoughBars strategy bars ->
    (forall front lastBar st st',
        indicatorsOf strategy bars = front ++ [lastBar] ->
        forOf strategy (nullish options defaultOptions) (lookbackPeriodOf strategy)
              (Strategy.parameters strategy) (feesOf strategy) front
              (initialState (lookbackPeriodOf strategy)) = Ok st ->
        loopBody strategy (nullish options defaultOptions) (lookbackPeriodOf strategy)
                 (Strategy.parameters strategy) (feesOf strategy) lastBar st = Ok st' ->
        positionStatus st = None_ ->
        positionStatus st' = Enter ->
        backtest strategy bars options = Ok (completedTrades st))
    /\
    (forall st,
        runLoop strategy bars options = Ok st ->
        positionStatus st = Exit ->
        exists position lastBar trade,
          openPosition st = Some position /\
          series_last (indicatorsOf strategy bars) = Ok lastBar /\
          backtest strategy bars options = Ok (completedTrades st ++ [trade]) /\
          Trade.entryTime trade = entryTime position /\
          Trade.exitPrice trade = Bar.close lastBar /\
          Trade.exitReason trade = "finalize" /\
          (exists tf,
              timeframeOf bars = Ok tf /\
              Trade.exitTime trade = new_Date (getTime (Bar.time lastBar) + tf)) /\
          trade = finalizePosition position (Trade.exitTime trade)
                    (Bar.close lastBar) "finalize" (feesOf strategy) /\
          Trade.direction trade = direction position /\
          Trade.entryPrice trade = entryPrice position /\
          Trade.profit trade =
            match direction position with
            | Long => Bar.close lastBar - entryPrice position
            | Short => entryPrice position - Bar.close lastBar
            end /\
          Trade.growth trade =
            rawGrowth (direction position) (entryPrice position) (Bar.close lastBar)
            - rawGrowth (direction position) (entryPrice position)
                (Bar.close lastBar)
              * feesOf strategy /\
          Trade.holdingPeriod trade = (holdingPeriod position + 1)%nat /\
          Trade.profitPct trade
          = (Trade.profit trade / entryPrice position) * 100 /\
          Trade.rmultiple trade
          = option_map (fun risk => Trade.profit trade / risk)
                       (initialUnitRisk position) /\
          Trade.rateOfReturnSeries trade
          = option_map
              (fun series =>
                 series ++ [mkSample (Trade.exitTime trade)
                                     (Trade.growth trade / growth position - 1)])
              (rateOfReturnSeries position)).
Proof.
  intros P strategy bars options He. split.
  - intros front lastBar st st' Hind Hfront Hlast Hnone Henter.
    assert (Hrun : runLoop strategy bars options = Ok st').
    { unfold runLoop. rewrite Hind, forOf_app, Hfront. cbn [bind].
      simpl. rewrite Hlast. reflexivity. }
    assert (Hag : statusAgrees st') by exact (@runLoop_statusAgrees _ _ _ _ _ Hrun).
    unfold statusAgrees in Hag. rewrite Henter in Hag.
    rewrite (@backtest_flat _ _ _ _ _ He Hrun Hag).
    f_equal. eapply loopBody_None_trades; eauto.
  - intros st Hrun Hexit.
    assert (Hag : statusAgrees st) by exact (@runLoop_statusAgrees _ _ _ _ _ Hrun).
    unfold statusAgrees in Hag. rewrite Hexit in Hag.
    destruct Hag as (position & Ho).
    destruct (@backtest_open _ _ _ _ _ _ He Hrun Ho) as (tf & lastBar & Htf & Hl & Hb).
    exists position, lastBar. eexists.
    split; [exact Ho|]. split; [exact Hl|]. split; [exact Hb|].
    match goal with
    | |- context [finalizePosition ?p ?t ?x ?r ?f] =>
        destruct (finalizePosition_fields p t x r f) as (Fd & Ft & Fe & Fx & Fp & Fr);
        destruct (finalizePosition_close p t x r f) as (Cp & Cg & Ch & Cq & Cm & Cs)
    end.
    split; [exact Ft|]. split; [exact Fp|]. split; [exact Fr|].
    split; [exists tf; split; [exact Htf|exact Fx]|].
    split; [rewrite Fx; reflexivity|].
    split; [exact Fd|]. split; [exact Fe|].
    split; [exact Cp|]. split; [exact Cg|]. split; [exact Ch|].
  split; [exact Cq|]. split; [exact Cm|].
  rewrite Fx. exact Cs.
Qed.

(** C8 on two runs.  (a) A single bar: the entry signalled on it yields
    no trade.  (b) The stop is hit on the last bar: the pending exit at
    the stop, 95, is replaced by the last close, 92, and the trade shows a
    loss of 8 from the entry at 100. *)
Lemma pending_transition_not_committed_witness :
  backtest alwaysIn [bar 0 100 100 100 100] None = Ok []
  /\
  exists st trade,
    runLoop stop5 stoppedLastBars None = Ok st /\
    positionStatus st = Exit /\
    exitPrice st = Some 95 /\
    exitReason st = Some "stop-loss" /\
    backtest stop5 stoppedLastBars None = Ok [trade] /\
    Trade.exitPrice trade = 92 /\
    Trade.exitReason trade = "finalize" /\
    Trade.entryPrice trade = 100 /\
    Trade.profit trade = -8 /\
    Trade.growth trade = 92 / 100 - (92 / 100) * 0 /\
    Trade.holdingPeriod trade = 2%nat.
Proof.
  split.
  - exact (proj1 (@pending_transition_not_committed unit alwaysIn
                    [bar 0 100 100 100 100] None eq_refl)
                 [] (bar 0 100 100 100 100) _ _ eq_refl eq_refl eq_refl
                 eq_refl eq_refl).
  - destruct (proj2 (@pending_transition_not_committed unit stop5 stoppedLastBars
                       None eq_refl) _ eq_refl eq_refl)
      as (position & lastBar & trade & Ho & Hl & Hb & _ & Hp & Hr & _ & _ & _
          & He & Hprofit & Hgrowth & Hheld & _).
    injection Hl as <-. injection Ho as <-.
    eexists _, trade. split; [reflexivity|].
    split; [reflexivity|]. split; [reflexivity|]. split; [reflexivity|].
    split; [exact Hb|]. split; [exact Hp|]. split; [exact Hr|].
    split; [exact He|]. split; [exact Hprofit|].
    split; [exact Hgrowth|exact Hheld].
Defined.

(** ** Division by the unit risk *)

Lemma div_zero_not_finite (x : num) : is_finite (x / 0) = false.
Proof.
  destruct x as [| | |a]; try reflexivity.
  cbn. unfold inf_of_sign. destruct (Qsign a); reflexivity.
Qed.

Lemma sub_self (q : Q) : Fin q - Fin q = 0.
Proof.
  unfold Num.sub.
  transitivity (Fin (Qred 0)); [apply Fin_equiv_eq; ring | reflexivity].
Qed.

(** A bar that opens at the current stop price: [updatePosition] computes
    a unit risk of zero and divides the profit by it. *)
Lemma updatePosition_at_stop (p : IPosition) (b : IBar) (q : Q) :
  curStopPrice p = Some (Fin q) ->
  Bar.open b = Fin q ->
  curRMultiple (updatePosition p b) = Some (profit (updatePosition p b) / 0)
  /\ is_finite (profit (updatePosition p b) / 0) = false.
Proof.
  intros Hs Ho. split; [|apply div_zero_not_finite].
  destruct p as [d et ep g pr pp hp cr ru isp csp iur irp crp crm pt rs rr sp].
  cbn in Hs. subst csp. unfold updatePosition.
  cbn -[Num.sub Num.div Num.add Num.mul]. rewrite Ho.
  destruct d; rewrite sub_self; reflexivity.
Qed.

(** C9.  [updatePosition] divides by the unit risk with no zero guard,
    and a zero unit risk is reachable: a long position with its stop 5
    below the entry at 100 is open when a bar opens at 95, the stop price.
    The unit risk is then [95 - 95 = 0] and [curRMultiple] is the profit
    divided by zero, here [-Infinity]; [backtest] runs through on these
    bars. *)
Theorem unit_risk_zero_reachable :
  exists (strategy : IStrategy unit) (front : list IBar) (b : IBar)
         (st : State) (position : IPosition) (stop : num),
    enoughBars strategy (front ++ [b]) /\
    runLoop strategy front None = Ok st /\
    positionStatus st = Position /\
    openPosition st = Some position /\
    curStopPrice position = Some stop /\
    Bar.open b = stop /\
    Bar.open b - stop = 0 /\
    curRMultiple (updatePosition position b)
      = Some (profit (updatePosition position b) / 0) /\
    profit (updatePosition position b) / 0 = NInf /\
    exists trades, backtest strategy (front ++ [b]) None = Ok trades.
Proof.
  exists stop5, openAtStopFront, openAtStopBar.
  eexists. eexists. exists 95.
  split; [reflexivity|]. split; [vm_compute; reflexivity|].
  split; [reflexivity|]. split; [reflexivity|]. split; [reflexivity|].
  split; [reflexivity|]. split; [reflexivity|].
  split; [reflexivity|]. split; [reflexivity|].
  eexists. vm_compute. reflexivity.
Qed.

(** ** Fees *)

Section Trades.

Variable P : Type.
Variable strategy : IStrategy P.
Variable options : IBacktestOptions.
Variable lookback : nat.
Variable params : option P.

(** The rules and the position bookkeeping do not read
    [completedTrades]. *)

Lemma call_handle_commute (C S : Type) (handle : C -> S -> result S)
    (g : S -> S) :
  (forall c s, handle c (g s) = rmap g (handle c s)) ->
  forall calls s,
    call_handle handle calls (g s) = rmap g (call_handle handle calls s).
Proof.
  intros Hh. induction calls as [|c rest IH]; intro s; simpl; [reflexivity|].
  rewrite Hh. destruct (handle c s); simpl; auto.
Qed.

Lemma enterPosition_trades (c : list ITrade) (o : option IEnterPositionOptions)
    (st : State) :
  enterPosition o (set_completedTrades c st)
  = rmap (set_completedTrades c) (enterPosition o st).
Proof.
  destruct st as [ct [] ep er pd op lb]; reflexivity.
Qed.

Lemma exitPosition_trades (c : list ITrade) (call : option num * option string)
    (st : State) :
  exitPosition call (set_completedTrades c st)
  = rmap (set_completedTrades c) (exitPosition call st).
Proof.
  destruct call. destruct st as [ct [] ep er pd op lb]; reflexivity.
Qed.

Lemma openArgs_trades (c : list ITrade) (p : IPosition) (b : IBar) (st : State) :
  openArgs params p b (set_completedTrades c st) = openArgs params p b st.
Proof. destruct st; reflexivity. Qed.

Lemma exitOnCondition_trades (c : list ITrade) (b : IBar) (st : State) :
  exitOnCondition strategy params b (set_completedTrades c st)
  = rmap (set_completedTrades c) (exitOnCondition strategy params b st).
Proof.
  unfold exitOnCondition.
  replace (openPosition (set_completedTrades c st)) with (openPosition st)
    by (destruct st; reflexivity).
  destruct (openPosition st) as [p|]; [|reflexivity]. cbn [isSome assert bind].
  destruct (stopLossExit p b); [apply exitPosition_trades|].
  destruct (profitTargetExit p b); [apply exitPosition_trades|].
  destruct (Strategy.exitRule strategy); [|reflexivity].
  rewrite openArgs_trades.
  apply call_handle_commute. intros. apply exitPosition_trades.
Qed.

Lemma caseNone_trades (c : list ITrade) (b : IBar) (st : State) :
  caseNone strategy params b (set_completedTrades c st)
  = rmap (set_completedTrades c) (caseNone strategy params b st).
Proof.
  unfold caseNone.
  replace (lookbackData (set_completedTrades c st)) with (lookbackData st)
    by (destruct st; reflexivity).
  apply call_handle_commute. intros. apply enterPosition_trades.
Qed.

Lemma caseEnter_trades (c : list ITrade) (b : IBar) (st : State) :
  caseEnter strategy options params b (set_completedTrades c st)
  = rmap (set_completedTrades c) (caseEnter strategy options params b st).
Proof.
  unfold caseEnter, applyStopLoss, applyProfitTarget, applyTrailingStop.
  replace (openPosition (set_completedTrades c st)) with (openPosition st)
    by (destruct st; reflexivity).
  replace (positionDirection (set_completedTrades c st))
    with (positionDirection st) by (destruct st; reflexivity).
  destruct (openPosition st); [reflexivity|]. cbn [isSome negb assert bind].
  rewrite !openArgs_trades.
  match goal with
  | |- context [set_positionStatus Position
                  (set_openPosition (Some ?q) (set_completedTrades c st))] =>
      replace (set_positionStatus Position
                 (set_openPosition (Some q) (set_completedTrades c st)))
        with (set_completedTrades c
                (set_positionStatus Position (set_openPosition (Some q) st)))
        by (destruct st; reflexivity)
  end.
  rewrite exitOnCondition_trades.
  destruct (exitOnCondition strategy params b _) as [s1|]; [|reflexivity].
  cbn [rmap bind]. rewrite !openArgs_trades.
  destruct s1; reflexivity.
Qed.

Lemma casePosition_trades (c : list ITrade) (b : IBar) (st : State) :
  casePosition strategy options params b (set_completedTrades c st)
  = rmap (set_completedTrades c) (casePosition strategy options params b st).
Proof.
  unfold casePosition, revaluateTrailingStop.
  replace (openPosition (set_completedTrades c st)) with (openPosition st)
    by (destruct st; reflexivity).
  destruct (openPosition st) as [p|]; [|reflexivity]. cbn [isSome assert bind].
  destruct (recordRiskSample options b (updatePosition p b)) as [p1|];
    [|reflexivity]. cbn [bind].
  destruct (recordRateOfReturnSample options b p1) as [p2|]; [|reflexivity].
  cbn [bind].
  replace (set_openPosition (Some p2) (set_completedTrades c st))
    with (set_completedTrades c (set_openPosition (Some p2) st))
    by (destruct st; reflexivity).
  rewrite exitOnCondition_trades.
  destruct (exitOnCondition strategy params b _) as [s1|]; [|reflexivity].
  cbn [rmap bind]. rewrite ?openArgs_trades.
  match goal with
  | |- bind ?r _ = _ => destruct r as [p3|]; [|reflexivity]
  end.
  cbn [rmap bind]. destruct s1; reflexivity.
Qed.

(** One bar, with the fee [f] and free of fees, from states of the same
    run. *)
Lemma loopBody_sameRun (f : num) (b : IBar) (st st0 st' : State) :
  sameRun f st st0 ->
  loopBody strategy options lookback params f b st = Ok st' ->
  exists st0',
    loopBody strategy options lookback params 0 b st0 = Ok st0' /\
    sameRun f st' st0'.
Proof.
  intros [Hst Hc]. set (c := completedTrades st) in *. clearbody c.
  subst st. unfold loopBody.
  replace (set_lookbackBuffer
             (CBuffer.push b (lookbackBuffer (set_completedTrades c st0)))
             (set_completedTrades c st0))
    with (set_completedTrades c
            (set_lookbackBuffer (CBuffer.push b (lookbackBuffer st0)) st0))
    by (destruct st0; reflexivity).
  set (s := set_lookbackBuffer _ st0).
  assert (Hcs : completedTrades s = completedTrades st0)
    by (destruct st0; reflexivity).
  rewrite <- Hcs in Hc. clearbody s. clear Hcs st0.
  replace (lookbackBuffer (set_completedTrades c s)) with (lookbackBuffer s)
    by (destruct s; reflexivity).
  replace (positionStatus (set_completedTrades c s)) with (positionStatus s)
    by (destruct s; reflexivity).
  destruct (Nat.ltb _ lookback).
  { intros [= <-]. exists s. split; [reflexivity|].
    split; destruct s; [reflexivity|exact Hc]. }
  assert (Hframe : forall r : result State,
             (forall s1, r = Ok s1 -> completedTrades s1 = completedTrades s) ->
             rmap (set_completedTrades c) r = Ok st' ->
             exists st0', r = Ok st0' /\ sameRun f st' st0').
  { intros [s1|] Hs1; [|discriminate]. intros [= <-].
    exists s1. split; [reflexivity|].
    specialize (Hs1 s1 eq_refl).
    split; destruct s1; cbn in *; [reflexivity|congruence]. }
  destruct (positionStatus s) eqn:Es.
  - rewrite caseNone_trades. apply Hframe. intros s1 H1.
    unfold caseNone in H1. now apply call_enterPosition_frame in H1.
  - rewrite caseEnter_trades. apply Hframe. intros s1 H1.
    unfold caseEnter in H1. inv_bind H1. cbn zeta in H1. inv_bind H1.
    injection H1 as <-.
    apply exitOnCondition_frame in E0 as (_ & _ & Ec & _).
    destruct s, a0; cbn in *. exact Ec.
  - rewrite casePosition_trades. apply Hframe. intros s1 H1.
    unfold casePosition in H1. inv_bind H1.
    destruct (openPosition s); [|discriminate].
    cbn zeta in H1. do 4 inv_bind H1. injection H1 as <-.
    apply exitOnCondition_frame in E2 as (_ & _ & Ec & _).
    destruct s, a2; cbn in *. exact Ec.
  - unfold caseExit, closePosition.
    replace (openPosition (set_completedTrades c s)) with (openPosition s)
      by (destruct s; reflexivity).
    destruct (openPosition s) as [p|]; [|discriminate].
    cbn [isSome assert bind]. intros [= <-].
    eexists. split; [reflexivity|].
    destruct s as [ct ps ep er pd op lb]. cbn in *.
    split; [reflexivity|]. cbn.
    apply Forall2_app; [exact Hc|]. constructor; [|constructor].
    exists p, (Bar.time b), (nullish ep (Bar.open b)), (nullish er "exit-rule").
    split; reflexivity.
Qed.

Lemma forOf_sameRun (f : num) (bars : list IBar) :
  forall st st0 st',
    sameRun f st st0 ->
    forOf strategy options lookback params f bars st = Ok st' ->
    exists st0',
      forOf strategy options lookback params 0 bars st0 = Ok st0' /\
      sameRun f st' st0'.
Proof.
  induction bars as [|b rest IH]; simpl; intros st st0 st' Hr H.
  - injection H as <-. eauto.
  - inv_bind H.
    destruct (@loopBody_sameRun _ _ _ _ _ Hr E) as (s0 & -> & Hr').
    cbn [bind]. eauto.
Qed.

End Trades.

(** A finite quotient less nothing is itself: the growth of a close free
    of fees, [g - g * 0], is the raw growth [g]. *)
Lemma div_less_nothing (x y : num) :
  is_finite (x / y) = true -> x / y - (x / y) * 0 = x / y.
Proof.
  destruct x as [| | |a], y as [| | |b]; try discriminate; try reflexivity.
  - cbn. destruct (Qlt_bool b 0); discriminate.
  - cbn. destruct (Qlt_bool b 0); discriminate.
  - unfold Num.div. destruct (Qeq_bool b 0).
    + unfold inf_of_sign. destruct (Qsign a); discriminate.
    + intros _. unfold Num.sub, Num.mul. apply Fin_equiv_eq.
      rewrite !Qred_correct. unfold inject_Z. ring.
Qed.

Lemma rawGrowth_less_nothing (d : TradeDirection) (e x : num) :
  is_finite (rawGrowth d e x) = true ->
  rawGrowth d e x - rawGrowth d e x * 0 = rawGrowth d e x.
Proof. destruct d; apply div_less_nothing. Qed.

Lemma finalizePosition_growth (p : IPosition) (t : Date) (price : num)
    (reason : string) (f : num) :
  let raw := rawGrowth (direction p) (entryPrice p) price in
  Trade.growth (finalizePosition p t price reason f) = raw - raw * f.
Proof.
  destruct p as [d et ep g pr pp hp cr ru isp csp iur irp crp crm pt rs [rr|] sp];
    reflexivity.
Qed.

Lemma sameClose_growth (f : num) (trade trade0 : ITrade) :
  sameClose f trade trade0 ->
  Trade.direction trade0 = Trade.direction trade /\
  Trade.entryPrice trade0 = Trade.entryPrice trade /\
  Trade.exitPrice trade0 = Trade.exitPrice trade /\
  Trade.growth trade = rawGrowthOf trade - rawGrowthOf trade * f /\
  (is_finite (rawGrowthOf trade) = true ->
   Trade.growth trade0 = rawGrowthOf trade /\
   Trade.growth trade = Trade.growth trade0 - Trade.growth trade0 * f).
Proof.
  intros (p & t & price & reason & -> & ->).
  destruct (finalizePosition_fields p t price reason f) as (D & _ & E & _ & X & _).
  destruct (finalizePosition_fields p t price reason 0) as (D0 & _ & E0 & _ & X0 & _).
  unfold rawGrowthOf. rewrite D, E, X, D0, E0, X0, !finalizePosition_growth.
  repeat split.
  - now apply rawGrowth_less_nothing.
  - now rewrite rawGrowth_less_nothing.
Qed.

Section WithFees.

Variable P : Type.
Variable strategy : IStrategy P.
Variable fee : option (unit -> num).

Lemma forOf_withFees (options : IBacktestOptions) (lookback : nat)
    (params : option P) (f : num) (bars : list IBar) :
  forall st,
    forOf (withFees fee strategy) options lookback params f bars st
    = forOf strategy options lookback params f bars st.
Proof.
  induction bars as [|b rest IH]; intro st; simpl; [reflexivity|].
  replace (loopBody (withFees fee strategy) options lookback params f b st)
    with (loopBody strategy options lookback params f b st) by reflexivity.
  destruct (loopBody strategy options lookback params f b st); simpl; auto.
Qed.

End WithFees.

(** C5, as the code has it.  Fees are applied once per trade, at the
    close, by one subtraction: the recorded growth of every trade of a run
    is [raw - raw * fees], where [raw] is the growth before fees computed
    from the trade's own entry and exit prices ([exitPrice / entryPrice],
    or [(entryPrice * 2 - exitPrice) / entryPrice] for a short).  The same
    run with the strategy's fees removed yields the same closes, trade for
    trade; when [raw] is a finite number the growth free of fees is [raw]
    itself, and the growth with fees is that growth less its fee share,
    [g0 - g0 * fees].  Every equation is between the values the code
    computes, in the code's order of operations. *)
Theorem fees_applied_once_at_close :
  forall (P : Type) (strategy : IStrategy P) (bars : list IBar)
         (options : option IBacktestOptions) (trades : list ITrade),
    backtest strategy bars options = Ok trades ->
    exists trades0,
      backtest (withFees None strategy) bars options = Ok trades0 /\
      Forall2
        (fun trade trade0 =>
           Trade.direction trade0 = Trade.direction trade /\
           Trade.entryPrice trade0 = Trade.entryPrice trade /\
           Trade.exitPrice trade0 = Trade.exitPrice trade /\
           Trade.growth trade
           = rawGrowthOf trade - rawGrowthOf trade * feesOf strategy /\
           (is_finite (rawGrowthOf trade) = true ->
            Trade.growth trade0 = rawGrowthOf trade /\
            Trade.growth trade
            = Trade.growth trade0 - Trade.growth trade0 * feesOf strategy))
        trades trades0.
Proof.
  intros P strategy bars options trades H.
  assert (Hrel : exists trades0,
             backtest (withFees None strategy) bars options = Ok trades0 /\
             Forall2 (sameClose (feesOf strategy)) trades trades0).
  { unfold backtest in *. destruct bars as [|b0 rest]; [discriminate|].
    change (lookbackPeriodOf (withFees None strategy))
      with (lookbackPeriodOf strategy).
    destruct (Nat.ltb _ _); [discriminate|].
    inv_bind H. cbn [bind]. inv_bind H.
    unfold runLoop in *.
    change (indicatorsOf (withFees None strategy) (b0 :: rest))
      with (indicatorsOf strategy (b0 :: rest)) in *.
    change (lookbackPeriodOf (withFees None strategy))
      with (lookbackPeriodOf strategy).
    change (feesOf (withFees None strategy)) with 0.
    change (Strategy.parameters (withFees None strategy))
      with (Strategy.parameters strategy).
    rewrite forOf_withFees.
    assert (H0 : sameRun (feesOf strategy)
                   (initialState (lookbackPeriodOf strategy))
                   (initialState (lookbackPeriodOf strategy)))
      by (split; [reflexivity|constructor]).
    destruct (@forOf_sameRun _ _ _ _ _ _ _ _ _ _ H0 E0) as (st0 & -> & Hst & Hc).
    cbn [bind].
    replace (openPosition st0) with (openPosition a0)
      by (rewrite Hst; destruct st0; reflexivity).
    destruct (openPosition a0) as [p|].
    - inv_bind H. injection H as <-. cbn [bind]. eexists. split; [reflexivity|].
      apply Forall2_app; [exact Hc|]. constructor; [|constructor].
      eexists _, _, _, _. split; reflexivity.
    - injection H as <-. eauto. }
  destruct Hrel as (trades0 & Hb & Hall).
  exists trades0. split; [exact Hb|].
  eapply Forall2_impl; [|exact Hall].
  intros t t0 Hs. now apply sameClose_growth.
Qed.

(** C5 on a run that enters at 100 and is finalized at 150, with a fee of
    a quarter: the raw growth 3/2 is recorded as [3/2 - 3/2 * 1/4 = 9/8],
    and as 3/2 when the fee is removed. *)
Lemma fees_applied_once_at_close_witness :
  exists trade trade0,
    backtest quarterFee halfUpBars None = Ok [trade] /\
    backtest (withFees None quarterFee) halfUpBars None = Ok [trade0] /\
    rawGrowthOf trade = 3 / 2 /\
    Trade.growth trade0 = 3 / 2 /\
    Trade.growth trade = 9 / 8 /\
    Trade.growth trade
    = Trade.growth trade0 - Trade.growth trade0 * feesOf quarterFee.
Proof.
  destruct (@fees_applied_once_at_close unit quarterFee halfUpBars None _ eq_refl)
    as (trades0 & H0 & Hall).
  vm_compute in H0. injection H0 as <-.
  apply Forall2_cons_iff in Hall. destruct Hall as ((_ & _ & _ & _ & Hg) & _).
  destruct (Hg eq_refl) as (_ & Hratio).
  eexists _, _. split; [reflexivity|]. split; [reflexivity|].
  split; [reflexivity|]. split; [reflexivity|]. split; [reflexivity|].
  exact Hratio.
Defined.

(** The subtraction of the fee share is not the multiplication by
    [1 - fees] once numbers are rounded: entered at 90 and closed at 99
    with a fee of one percent, the code's [growth - growth * fees] is
    greater than [growth * (1 - fees)] in binary64. *)
Example fee_share_rounds_apart :
  let fees := (1 / 100)%float in
  let raw := (99 / 90)%float in
  Binary64.finalGrowth Long 90 99 fees = (raw - raw * fees)%float /\
  PrimFloat.eqb (Binary64.finalGrowth Long 90 99 fees)
                (raw * (1 - fees))%float = false /\
  PrimFloat.ltb (raw * (1 - fees))%float
                (Binary64.finalGrowth Long 90 99 fees) = true.
Proof. repeat split. Qed.

(** C5 as the specification words it fails when the entry price is zero.
    With a fee of one percent and an entry at 0, the raw growth [50 / 0]
    is [Infinity] and the recorded growth [Infinity - Infinity * 0.01] is
    [NaN], not [Infinity * (1 - 0.01) = Infinity]. *)
Lemma fee_factor_fails_at_zero_entry :
  exists trade,
    backtest onePercentFee zeroEntryBars None = Ok [trade] /\
    Trade.entryPrice trade = 0 /\
    Trade.exitPrice trade = 50 /\
    rawGrowthOf trade = PInf /\
    Trade.growth trade = NaN /\
    rawGrowthOf trade * (1 - feesOf onePercentFee) = PInf /\
    Trade.growth trade <> rawGrowthOf trade * (1 - feesOf onePercentFee).
Proof.
  eexists. split; [vm_compute; reflexivity|].
  repeat split. discriminate.
Qed.

(** ** The analyzer's peak capital and drawdown *)

Lemma Math_min_Fin (a b : Q) :
  exists c, Math_min (Fin a) (Fin b) = Fin c /\ (c <= a)%Q /\ (c <= b)%Q.
Proof.
  unfold Math_min. destruct (Fin a <=? Fin b) eqn:E.
  - exists a. apply le_Fin in E. repeat split; [apply Qle_refl|exact E].
  - exists b. repeat split; [|apply Qle_refl].
    apply Qlt_le_weak, Qnot_le_lt. intro H. apply le_Fin in H. congruence.
Qed.

Lemma div_Fin_pos (a b : Q) :
  (0 < b)%Q -> Fin a / Fin b = Fin (Qred (a / b)).
Proof.
  intro Hb. unfold Num.div.
  destruct (Qeq_bool b 0) eqn:E; [|reflexivity].
  apply Qeq_bool_iff in E. rewrite E in Hb. now apply Qlt_irrefl in Hb.
Qed.

Lemma analyzeStep_sound (tf : num) (opts : option AnalyzeOptions)
    (acc acc' : Acc) (trade : ITrade) :
  accSound acc -> finiteGrowth trade ->
  analyzeStep tf opts acc trade = Ok acc' ->
  accSound acc' /\
  (Acc.peakCapital acc <=? Acc.peakCapital acc') = true /\
  (Acc.maxDrawdown acc' <=? 0) = true /\
  (Acc.maxDrawdownPct acc' <=? 0) = true.
Proof.
  intros (w & pk & d & dp & Hw & Hpk & Hpos & Hd & Hdle & Hdp & Hdple) Hg H.
  unfold finiteGrowth in Hg.
  destruct (Trade.growth trade) as [| | |g] eqn:Eg; try discriminate.
  unfold analyzeStep in H. inv_bind H.
  rewrite Hw, Hpk, Hd, Hdp, Eg in H.
  change (Fin w * Fin g) with (Fin (Qred (w * g))) in H.
  set (w' := Qred (w * g)) in H.
  destruct (Trade.profit trade >? 0);
    destruct (Fin w' <? Fin pk) eqn:Elt.
  all: cbv zeta beta iota in H.
  all: try (change (Fin w' - Fin pk) with (Fin (Qred (w' - pk))) in H).
  all: try (apply lt_Fin in Elt;
            assert (Hwd : (Qred (w' - pk) <= 0)%Q)
              by (rewrite Qred_correct; lra);
            destruct (Math_min_Fin (Qred (w' - pk)) d) as (m & Em & Hm1 & Hm2);
            rewrite Em in H;
            rewrite (div_Fin_pos m Hpos) in H;
            change (Fin (Qred (m / pk)) * 100)
              with (Fin (Qred (Qred (m / pk) * inject_Z 100))) in H;
            destruct (Math_min_Fin (Qred (Qred (m / pk) * inject_Z 100)) dp)
              as (mp & Emp & Hp1 & Hp2);
            rewrite Emp in H; injection H as <-; cbn [Acc.workingCapital
              Acc.peakCapital Acc.maxDrawdown Acc.maxDrawdownPct];
            rewrite Hpk;
            split; [exists w', pk, m, mp; repeat split; auto; lra|];
            split; [apply le_Fin, Qle_refl|];
            split; apply le_Fin; unfold inject_Z; lra).
  all: apply lt_Fin_false in Elt;
       assert (Hpos' : (0 < w')%Q) by lra;
       change (Fin (inject_Z 0)) with (Fin 0) in H;
       destruct (Math_min_Fin 0 d) as (m & Em & Hm1 & Hm2);
       rewrite Em in H;
       rewrite (div_Fin_pos m Hpos') in H;
       change (Fin (Qred (m / w')) * 100)
         with (Fin (Qred (Qred (m / w') * inject_Z 100))) in H;
       destruct (Math_min_Fin (Qred (Qred (m / w') * inject_Z 100)) dp)
         as (mp & Emp & Hp1 & Hp2);
       rewrite Emp in H; injection H as <-; cbn [Acc.workingCapital
         Acc.peakCapital Acc.maxDrawdown Acc.maxDrawdownPct];
       rewrite Hpk;
       (split; [exists w', w', m, mp; repeat split; auto; lra|]);
       (split; [apply le_Fin; exact Elt|]);
       split; apply le_Fin; unfold inject_Z; lra.
Qed.

Lemma analyzeLoop_sound (tf : num) (opts : option AnalyzeOptions)
    (trades : list ITrade) :
  forall acc acc',
    accSound acc -> Forall finiteGrowth trades ->
    analyzeLoop tf opts trades acc = Ok acc' ->
    accSound acc'.
Proof.
  induction trades as [|t rest IH]; simpl; intros acc acc' Ha Hf H.
  - now injection H as <-.
  - inv_bind H. inversion Hf as [|? ? Ht Hrest]; subst.
    destruct (@analyzeStep_sound _ _ _ _ _ Ha Ht E) as (Ha' & _). eauto.
Qed.

Lemma initialAcc_sound (startingCapital : num)
    (rl : option (list (option num))) :
  is_finite startingCapital = true ->
  (startingCapital >? 0) = true ->
  accSound (initialAcc startingCapital rl).
Proof.
  destruct startingCapital as [| | |c]; try discriminate. intros _ Hpos.
  apply lt_Fin in Hpos. exists c, c, 0%Q, 0%Q.
  repeat split; auto; apply Qle_refl.
Qed.

Lemma mul_finite (c : Q) (g : num) :
  is_finite (Fin c * g) = true -> is_finite g = true.
Proof.
  destruct g as [| | |q]; cbn; try discriminate; auto;
    unfold inf_of_sign; destruct (Qsign c); discriminate.
Qed.

(** A capital that stays finite is multiplied by finite growths only. *)
Lemma staysFinite_growth (trades : list ITrade) :
  forall capital,
    is_finite capital = true ->
    staysFinite capital trades -> Forall finiteGrowth trades.
Proof.
  unfold staysFinite.
  induction trades as [|t rest IH]; intros capital Hc H; [constructor|].
  cbn [workingCapitals] in H. inversion H as [|? ? Ht Hrest]; subst.
  constructor.
  - destruct capital as [| | |c]; try discriminate.
    exact (mul_finite _ _ Ht).
  - exact (IH _ Ht Hrest).
Qed.

Lemma capital_accepted (startingCapital : num) :
  is_finite startingCapital = true ->
  (startingCapital <=? 0) = false ->
  (negb (isNumber startingCapital) || (startingCapital <=? 0))%bool = false.
Proof. unfold isNumber. now intros -> ->. Qed.

(** C7, as the code has it.  For a finite positive starting capital and
    a trade list along which the working capital stays a finite number:
    in every iteration of [analyze]'s loop the peak capital does not
    decrease and the two drawdown figures are at most zero; and so are
    [maxDrawdown] and [maxDrawdownPct] of the record [analyze] returns. *)
Theorem drawdown_invariants :
  forall (Series_average Series_std : list (option num) -> num)
         (math_std : list num -> num) (Math_sqrt : num -> num) (now : Date)
         (startingCapital : num) (trades : list ITrade)
         (options : option AnalyzeOptions),
    is_finite startingCapital = true ->
    (startingCapital >? 0) = true ->
    staysFinite startingCapital trades ->
    (forall tf opts rl front trade back acc acc',
        trades = front ++ trade :: back ->
        analyzeLoop tf opts front (initialAcc startingCapital rl) = Ok acc ->
        analyzeStep tf opts acc trade = Ok acc' ->
        (Acc.peakCapital acc <=? Acc.peakCapital acc') = true /\
        (Acc.maxDrawdown acc' <=? 0) = true /\
        (Acc.maxDrawdownPct acc' <=? 0) = true)
    /\
    (forall analysis,
        snd (analyze Series_average Series_std math_std Math_sqrt now
                     startingCapital trades options) = Ok analysis ->
        (Analysis.maxDrawdown analysis <=? 0) = true /\
        (Analysis.maxDrawdownPct analysis <=? 0) = true).
Proof.
  intros avg std mstd sqrt now startingCapital trades options Hfin Hpos Hstays.
  pose proof (staysFinite_growth Hfin Hstays) as Hgrowth.
  split.
  - intros tf opts rl front trade back acc acc' -> Hloop Hstep.
    apply Forall_app in Hgrowth as (Hfront & Hback).
    inversion Hback as [|? ? Ht _]; subst.
    assert (Ha : accSound acc).
    { eapply analyzeLoop_sound; [|exact Hfront|exact Hloop].
      now apply initialAcc_sound. }
    destruct (@analyzeStep_sound _ _ _ _ _ Ha Ht Hstep) as (_ & ? & ? & ?). auto.
  - intros analysis H. unfold analyze in H.
    destruct (negb (isNumber startingCapital) || (startingCapital <=? 0))%bool;
      [discriminate|].
    destruct (dateRangeBlock now (timeframeFor trades options) options)
      as [opts' allocated].
    cbn [snd] in H. inv_bind H. inv_bind H. injection H as <-.
    assert (Ha : accSound a0).
    { eapply analyzeLoop_sound; [|exact Hgrowth|exact E0].
      now apply initialAcc_sound. }
    destruct Ha as (w & pk & d & dp & _ & _ & _ & Hd & Hdle & Hdp & Hdple).
    cbn [summarize Analysis.maxDrawdown Analysis.maxDrawdownPct].
    rewrite Hd, Hdp. split; apply le_Fin; assumption.
Qed.

(** C7 on a capital of 1000 that grows by a half to 1500 and is then
    halved to 750: a drawdown of 750, fifty percent of the peak. *)
Lemma drawdown_invariants_witness :
  exists analysis,
    snd (analyze noAverage noAverage noStd noSqrt (mkDate 0) 1000 upAndDown None)
    = Ok analysis /\
    workingCapitals 1000 upAndDown = [1500; 750] /\
    Analysis.maxDrawdown analysis = -750 /\
    Analysis.maxDrawdownPct analysis = -50 /\
    (Analysis.maxDrawdown analysis <=? 0) = true /\
    (Analysis.maxDrawdownPct analysis <=? 0) = true.
Proof.
  eexists. split; [vm_compute; reflexivity|].
  split; [reflexivity|]. split; [reflexivity|]. split; [reflexivity|].
  refine (proj2 (@drawdown_invariants noAverage noAverage noStd noSqrt (mkDate 0)
                   1000 upAndDown None eq_refl eq_refl _) _ eq_refl).
  repeat constructor.
Defined.

(** C7 as the specification words it, for any trade list, fails on a
    growth that is not a number.  [backtest] returns such a trade when the
    entry bar opens at zero ([50 / 0 - (50 / 0) * 0] is [NaN]); [analyze]
    then holds a working capital and a peak capital of [NaN], which does
    not compare as at least the starting capital, and returns a
    [maxDrawdownPct] of [NaN], which does not compare as at most zero. *)
Lemma drawdown_pct_not_a_number :
  exists trade acc analysis,
    backtest alwaysIn zeroEntryBars None = Ok [trade] /\
    Trade.growth trade = NaN /\
    analyzeStep 0 None (initialAcc 1000 None) trade = Ok acc /\
    Acc.peakCapital acc = NaN /\
    (Acc.peakCapital (initialAcc 1000 None) <=? Acc.peakCapital acc) = false /\
    (Acc.maxDrawdownPct acc <=? 0) = false /\
    analyze noAverage noAverage noStd noSqrt (mkDate 0) 1000 [trade] None
    = (None, Ok analysis) /\
    Analysis.maxDrawdownPct analysis = NaN /\
    (Analysis.maxDrawdownPct analysis <=? 0) = false.
Proof.
  do 3 eexists. split; [vm_compute; reflexivity|].
  split; [reflexivity|]. split; [vm_compute; reflexivity|].
  split; [reflexivity|]. split; [reflexivity|]. split; [reflexivity|].
  split; [vm_compute; reflexivity|]. split; reflexivity.
Qed.

(** ** The analyzer's [options] argument *)

(** C10.  When the argument check passes (the starting capital is a finite
    number greater than zero), [options.startingDate] is set, the timeframe
    in use is truthy (not zero) and [options.endingDate] is undefined,
    [analyze] leaves the caller's [options] object with [endingDate] set to
    the current time and its other two fields as they were, so the object
    differs from what was passed; this holds whether the call then returns
    or throws. *)
Theorem analyze_assigns_endingDate :
  forall (Series_average Series_std : list (option num) -> num)
         (math_std : list num -> num) (Math_sqrt : num -> num) (now : Date)
         (startingCapital : num) (trades : list ITrade)
         (options : AnalyzeOptions) (starting : Date),
    is_finite startingCapital = true ->
    (startingCapital <=? 0) = false ->
    Opt.startingDate options = Some starting ->
    truthy (timeframeFor trades (Some options)) = true ->
    Opt.endingDate options = None ->
    exists options',
      fst (analyze Series_average Series_std math_std Math_sqrt now
                   startingCapital trades (Some options)) = Some options' /\
      Opt.endingDate options' = Some now /\
      Opt.startingDate options' = Opt.startingDate options /\
      Opt.timeframe options' = Opt.timeframe options /\
      options' <> options.
Proof.
  intros avg std mstd sqrt now startingCapital trades options starting
         Hfin Hcap Hstart Htf Hend.
  unfold analyze. rewrite (@capital_accepted _ Hfin Hcap). unfold dateRangeBlock.
  rewrite Hstart, Htf, Hend. cbn [fst].
  eexists. split; [reflexivity|]. repeat split.
  intro Heq. rewrite <- Heq in Hend. discriminate Hend.
Qed.

(** C10 on an empty trade list with a starting date and a timeframe of
    one millisecond. *)
Lemma analyze_assigns_endingDate_witness :
  exists options',
    fst (analyze noAverage noAverage noStd noSqrt (mkDate 1000) 1000 []
                 (Some (Opt.mkAnalyzeOptions (Some (mkDate 10)) None (Some 1))))
    = Some options' /\
    Opt.endingDate options' = Some (mkDate 1000) /\
    Opt.startingDate options' = Some (mkDate 10) /\
    Opt.timeframe options' = Some 1 /\
    options' <> Opt.mkAnalyzeOptions (Some (mkDate 10)) None (Some 1).
Proof.
  exact (@analyze_assigns_endingDate noAverage noAverage noStd noSqrt
           (mkDate 1000) 1000 []
           (Opt.mkAnalyzeOptions (Some (mkDate 10)) None (Some 1))
           (mkDate 10) eq_refl eq_refl eq_refl eq_refl eq_refl).
Defined.

(** ** The analysis of no trades *)

Lemma zero_div_pos (c : Q) : (0 < c)%Q -> (0 / Fin c) * 100 = 0.
Proof.
  intro Hc. rewrite div_Fin_pos by exact Hc. unfold Num.mul.
  transitivity (Fin (Qred 0)); [|reflexivity].
  apply Fin_equiv_eq. rewrite Qred_correct. unfold inject_Z. field.
  intro H. rewrite H in Hc. now apply Qlt_irrefl in Hc.
Qed.

(** C4, the code at an empty trade list.  For a finite positive starting
    capital and no options, [analyze] returns a record whose
    [finalCapital] is the starting capital, but whose
    [averageProfitPerTrade] ([profit / totalTrades], that is [0 / 0]) and
    [returnOnAccount] ([profitPct / |maxDrawdownPct|], also [0 / 0]) are
    [NaN], while the guarded averages next to them are zero. *)
Theorem analyze_empty_divides_by_zero :
  forall (Series_average Series_std : list (option num) -> num)
         (math_std : list num -> num) (Math_sqrt : num -> num) (now : Date)
         (startingCapital : num),
    is_finite startingCapital = true ->
    (startingCapital >? 0) = true ->
    exists analysis,
      analyze Series_average Series_std math_std Math_sqrt now
              startingCapital [] None = (None, Ok analysis) /\
      Analysis.finalCapital analysis = startingCapital /\
      Analysis.averageProfitPerTrade analysis = NaN /\
      Analysis.returnOnAccount analysis = NaN /\
      Analysis.averageWinningTrade analysis = 0 /\
      Analysis.averageLosingTrade analysis = 0 /\
      Analysis.proportionProfitable analysis = 0.
Proof.
  intros avg std mstd sqrt now startingCapital Hfin Hpos.
  destruct startingCapital as [| | |c]; try discriminate.
  apply lt_Fin in Hpos.
  assert (Hle : (Fin c <=? 0) = false).
  { destruct (Fin c <=? 0) eqn:E; [|reflexivity].
    apply le_Fin in E. unfold inject_Z in *. lra. }
  unfold analyze. rewrite (@capital_accepted (Fin c) eq_refl Hle).
  cbn [timeframeFor dateRangeBlock].
  eexists. split; [reflexivity|].
  cbn [bind analyzeLoop initialAcc summarize Acc.workingCapital Acc.totalTrades
       Acc.maxDrawdownPct Acc.numWinningTrades Acc.numLosingTrades
       Analysis.finalCapital Analysis.averageProfitPerTrade
       Analysis.returnOnAccount Analysis.averageWinningTrade
       Analysis.averageLosingTrade Analysis.proportionProfitable].
  rewrite sub_self, (zero_div_pos Hpos).
  repeat split.
Qed.

(** C4 at a starting capital of 1000. *)
Lemma analyze_empty_divides_by_zero_witness :
  exists analysis,
    analyze noAverage noAverage noStd noSqrt (mkDate 0) 1000 [] None
    = (None, Ok analysis) /\
    Analysis.finalCapital analysis = 1000 /\
    Analysis.averageProfitPerTrade analysis = NaN /\
    Analysis.returnOnAccount analysis = NaN.
Proof.
  destruct (@analyze_empty_divides_by_zero noAverage noAverage noStd noSqrt
              (mkDate 0) 1000 eq_refl eq_refl)
    as (analysis & Ha & Hf & Hp & Hr & _).
  exists analysis. auto.
Defined.

(** ** The scenarios S1, S2, S3 and S5, run on the model *)

(** S1: entry fills on the bar after the signal, at 110; the position is
    finalized at the last close. *)
Example scenario_S1 :
  exists trade,
    backtest alwaysIn risingBars None = Ok [trade] /\
    Trade.entryPrice trade = 110 /\
    Trade.exitPrice trade = 120 /\
    Trade.growth trade = 12 / 11 /\
    Trade.exitReason trade = "finalize".
Proof. eexists. split; [vm_compute; reflexivity|]. repeat split. Qed.

(** S2: the bar after the entry gaps down through the stop at 95 and
    opens at 90. *)
Example scenario_S2 :
  exists trade,
    backtest stop5 (gapDownFront ++ [bar 2 90 92 88 91; bar 3 91 91 91 91]) None
    = Ok [trade] /\
    Trade.exitPrice trade = 90 /\
    Trade.exitReason trade = "stop-loss".
Proof. eexists. split; [vm_compute; reflexivity|]. repeat split. Qed.

(** S3: the bar after the entry reaches the target at 110. *)
Example scenario_S3 :
  exists trade,
    backtest stopAndTarget
             (gapDownFront ++ [bar 2 105 115 104 112; bar 3 112 112 112 112]) None
    = Ok [trade] /\
    Trade.exitPrice trade = 110 /\
    Trade.exitReason trade = "profit-target".
Proof. eexists. split; [vm_compute; reflexivity|]. repeat split. Qed.

(** S5: capital 1000 through growths 1.10 and 0.95. *)
Example scenario_S5 :
  exists analysis,
    snd (analyze noAverage noAverage noStd noSqrt (mkDate 0) 1000 twoTrades None)
    = Ok analysis /\
    Analysis.finalCapital analysis = 1045 /\
    Analysis.profit analysis = 45 /\
    Analysis.numWinningTrades analysis = 1%nat /\
    Analysis.numLosingTrades analysis = 1%nat /\
    Analysis.profitFactor analysis = Some 2.
Proof. eexists. split; [vm_compute; reflexivity|]. repeat split. Qed.


(** * Further properties of the simulator *)

From Stdlib Require Import Lia.

(** ** The rule handles *)

(** A rule that calls its handle twice in one invocation always throws:
    the first call leaves the state Enter (or Exit), where the handle's
    assertion fails; if the first call itself is not allowed, it throws
    already. *)
Theorem handle_called_twice_throws :
  forall (st : State),
    (forall c1 c2 rest,
        call_handle enterPosition (c1 :: c2 :: rest) st
        = Throw "Can only enter a position when not already in one.")
    /\
    (forall c1 c2 rest,
        call_handle exitPosition (c1 :: c2 :: rest) st
        = Throw "Can only exit a position when we are in a position.").
Proof.
  intro st. split; intros c1 c2 rest.
  - destruct st as [ct [] ep er pd op lb]; reflexivity.
  - destruct c1 as [p1 r1], c2 as [p2 r2].
    destruct st as [ct [] ep er pd op lb]; reflexivity.
Qed.

(** ** A strategy that never enters *)

Section NeverEnters.

Variable P : Type.
Variable strategy : IStrategy P.
Variable options : IBacktestOptions.
Variable lookback : nat.
Variable params : option P.
Variable fee : num.
Hypothesis Hnever : forall args, Strategy.entryRule strategy args = [].

Lemma forOf_never_enters (bars : list IBar) :
  forall st,
    positionStatus st = None_ ->
    exists st',
      forOf strategy options lookback params fee bars st = Ok st' /\
      positionStatus st' = None_ /\
      openPosition st' = openPosition st /\
      completedTrades st' = completedTrades st.
Proof.
  induction bars as [|b rest IH]; intros st Hs; simpl.
  - exists st. auto.
  - unfold loopBody.
    set (st0 := set_lookbackBuffer _ st).
    assert (H0 : positionStatus st0 = None_ /\ openPosition st0 = openPosition st
                 /\ completedTrades st0 = completedTrades st)
      by (destruct st; cbn in *; auto).
    clearbody st0. destruct H0 as (H0 & Ho & Hc).
    destruct (Nat.ltb _ lookback); cbn [bind].
    + destruct (IH st0 H0) as (st' & E & ? & ? & ?).
      exists st'. rewrite <- Ho, <- Hc. auto.
    + rewrite H0. unfold caseNone. rewrite Hnever. cbn [call_handle bind].
      destruct (IH st0 H0) as (st' & E & ? & ? & ?).
      exists st'. rewrite <- Ho, <- Hc. auto.
Qed.

End NeverEnters.

(** When the entry rule never calls [enterPosition], [backtest] returns
    the empty trade list, on every input with enough bars. *)
Theorem never_entering_no_trades :
  forall (P : Type) (strategy : IStrategy P) (bars : list IBar)
         (options : option IBacktestOptions),
    enoughBars strategy bars ->
    (forall args, Strategy.entryRule strategy args = []) ->
    backtest strategy bars options = Ok [].
Proof.
  intros P strategy bars options He Hnever.
  destruct (@forOf_never_enters P strategy (nullish options defaultOptions)
              (lookbackPeriodOf strategy) (Strategy.parameters strategy)
              (feesOf strategy) Hnever (indicatorsOf strategy bars)
              (initialState (lookbackPeriodOf strategy)) eq_refl)
    as (st & Hrun & _ & Ho & Hc).
  rewrite (@backtest_flat _ _ _ _ _ He Hrun Ho). now rewrite Hc.
Qed.

Lemma never_entering_no_trades_witness :
  backtest neverEnters risingBars None = Ok [].
Proof.
  exact (@never_entering_no_trades unit neverEnters risingBars None eq_refl
           (fun _ => eq_refl)).
Defined.

(** ** The lookback warm-up *)

Section Warmup.

Variable P : Type.
Variable strategy : IStrategy P.
Variable options : IBacktestOptions.
Variable lookback : nat.
Variable params : option P.
Variable fee : num.

Lemma forOf_warmup (bars : list IBar) :
  forall st,
    CBuffer.size (lookbackBuffer st) = lookback ->
    (CBuffer.length (lookbackBuffer st) + List.length bars < lookback)%nat ->
    forOf strategy options lookback params fee bars st
    = Ok (set_lookbackBuffer (pushAll bars (lookbackBuffer st)) st).
Proof.
  induction bars as [|b rest IH]; intros st Hsize Hlen; simpl.
  - destruct st; reflexivity.
  - simpl in Hlen. unfold loopBody.
    set (buf := CBuffer.push b (lookbackBuffer st)).
    assert (Hb : CBuffer.size buf = lookback /\
                 CBuffer.length buf = S (CBuffer.length (lookbackBuffer st))).
    { unfold buf, CBuffer.push.
      cbn [CBuffer.size CBuffer.length]. split; [exact Hsize|].
      rewrite Hsize.
      destruct (Nat.ltb_spec (CBuffer.length (lookbackBuffer st)) lookback); lia. }
    destruct Hb as (Hbs & Hbl).
    replace (lookbackBuffer (set_lookbackBuffer buf st)) with buf
      by (destruct st; reflexivity).
    rewrite Hbl.
    destruct (Nat.ltb_spec (S (CBuffer.length (lookbackBuffer st))) lookback);
      [|lia].
    cbn [bind]. rewrite IH.
    + destruct st; reflexivity.
    + destruct st; exact Hbs.
    + replace (lookbackBuffer (set_lookbackBuffer buf st)) with buf
        by (destruct st; reflexivity).
      lia.
Qed.

End Warmup.

(** Until [lookbackPeriod] bars have been pushed, the loop only fills the
    lookback buffer: over fewer bars than the lookback period it ends in
    the initial state with the bars buffered, whatever the strategy's
    rules would do. *)
Theorem warmup_invokes_no_rule :
  forall (P : Type) (strategy : IStrategy P) (options : IBacktestOptions)
         (lookback : nat) (params : option P) (fee : num) (bars : list IBar),
    (List.length bars < lookback)%nat ->
    forOf strategy options lookback params fee bars (initialState lookback)
    = Ok (set_lookbackBuffer (pushAll bars (CBuffer.new IBar lookback))
                             (initialState lookback)).
Proof.
  intros P strategy options lookback params fee bars Hlen.
  apply (@forOf_warmup P strategy options lookback params fee bars
           (initialState lookback)); [reflexivity|exact Hlen].
Qed.

Lemma warmup_invokes_no_rule_witness :
  exists st,
    forOf lookbackThree defaultOptions 3 None 0 (firstn 2 risingBars)
          (initialState 3) = Ok st /\
    positionStatus st = None_ /\
    CBuffer.length (lookbackBuffer st) = 2%nat.
Proof.
  eexists. split.
  - apply (@warmup_invokes_no_rule unit lookbackThree defaultOptions 3 None 0
             (firstn 2 risingBars)).
    cbn. apply le_n.
  - split; reflexivity.
Defined.

(** ** Status and open position *)

(** After any run of the loop, a position is open exactly when the status
    is Position or Exit: the assertions on [openPosition] in the Enter,
    Position and Exit cases hold in every state the loop reaches. *)
Theorem position_open_iff_status :
  forall (P : Type) (strategy : IStrategy P) (bars : list IBar)
         (options : option IBacktestOptions) (st : State),
    runLoop strategy bars options = Ok st ->
    (isSome (openPosition st) = true <->
     positionStatus st = Position \/ positionStatus st = Exit).
Proof.
  intros P strategy bars options st Hrun.
  assert (Hag : statusAgrees st).
  { unfold runLoop in Hrun.
    eapply forOf_statusAgrees; [|exact Hrun]. apply initialState_statusAgrees. }
  unfold statusAgrees in Hag.
  destruct (positionStatus st); split; intro H.
  - rewrite Hag in H. discriminate.
  - destruct H; discriminate.
  - rewrite Hag in H. discriminate.
  - destruct H; discriminate.
  - auto.
  - destruct Hag as (p & ->). reflexivity.
  - auto.
  - destruct Hag as (p & ->). reflexivity.
Qed.

Lemma position_open_iff_status_witness :
  isSome (openPosition gapDownState) = true <->
  positionStatus gapDownState = Position \/ positionStatus gapDownState = Exit.
Proof.
  exact (@position_open_iff_status unit stopAndTarget gapDownFront None
           gapDownState eq_refl).
Defined.

(** ** What each step of the Enter and Position cases writes *)

Lemma le_lt_trans_zero (r x : num) :
  (0 <=? r) = true -> (x >? r) = true -> (0 <=? x) = true.
Proof.
  destruct r as [| | |a], x as [| | |b]; cbn; try discriminate; auto.
  intros Ha Hb. apply Qle_bool_iff in Ha. apply Qle_bool_iff.
  unfold Qlt_bool in Hb. apply negb_true_iff in Hb.
  destruct (Qlt_le_dec a b) as [Hlt|Hle].
  - apply Qlt_le_weak. eapply Qle_lt_trans; eauto.
  - apply Qle_bool_iff in Hle. congruence.
Qed.

Ltac split_position p :=
  destruct p as [d et ep g pr pp hp cr ru isp csp iur irp crp crm pt rs rr sp].

Section Footprint.

Variable P : Type.
Variable strategy : IStrategy P.
Variable options : IBacktestOptions.
Variable params : option P.

Lemma entered_identity (b : IBar) (st : State) :
  entryTime (entered strategy options params b st) = Bar.time b /\
  entryPrice (entered strategy options params b st) = Bar.open b /\
  runUp (entered strategy options params b st) = 0 /\
  holdingPeriod (entered strategy options params b st) = 0%nat.
Proof.
  unfold entered, applyProfitTarget, initialiseRateOfReturn, initialiseRisk,
    applyStopLoss, newPosition.
  destruct (Strategy.profitTarget strategy), (Strategy.stopLoss strategy),
    (recordRisk options), (recordRateOfReturn options); repeat split.
Qed.

Lemma entered_series (b : IBar) (st : State) :
  stopPriceSeries (entered strategy options params b st) = None /\
  sampleCount (rateOfReturnSeries (entered strategy options params b st))
    = (if recordRateOfReturn options then Some 0%nat else None) /\
  isSome (curStopPrice (entered strategy options params b st)) = isSome (Strategy.stopLoss strategy) /\
  isSome (curRiskPct (entered strategy options params b st)) = isSome (Strategy.stopLoss strategy) /\
  sampleCount (riskSeries (entered strategy options params b st))
    = (if (isSome (Strategy.stopLoss strategy) && recordRisk options)%bool
       then Some 1%nat else None).
Proof.
  unfold entered, applyProfitTarget, initialiseRateOfReturn, initialiseRisk,
    applyStopLoss, newPosition.
  destruct (Strategy.profitTarget strategy), (Strategy.stopLoss strategy),
    (recordRisk options), (recordRateOfReturn options); repeat split.
Qed.

Lemma applyTrailingStop_identity (b : IBar) (st : State) (p : IPosition) :
  let q := applyTrailingStop strategy options params b st p in
  entryTime q = entryTime p /\ entryPrice q = entryPrice p /\
  runUp q = runUp p /\ holdingPeriod q = holdingPeriod p.
Proof.
  unfold applyTrailingStop. split_position p. cbn.
  destruct (Strategy.trailingStopLoss strategy), isp, (recordStopPrice options);
    repeat split.
Qed.

Lemma applyTrailingStop_series (b : IBar) (st : State) (p : IPosition) :
  let q := applyTrailingStop strategy options params b st p in
  riskSeries q = riskSeries p /\
  rateOfReturnSeries q = rateOfReturnSeries p /\
  curRiskPct q = curRiskPct p /\
  isSome (curStopPrice q)
    = (isSome (Strategy.trailingStopLoss strategy) || isSome (curStopPrice p))%bool /\
  sampleCount (stopPriceSeries q)
    = (if (isSome (Strategy.trailingStopLoss strategy) && recordStopPrice options)%bool
       then Some 1%nat else sampleCount (stopPriceSeries p)).
Proof.
  unfold applyTrailingStop. split_position p. cbn.
  destruct (Strategy.trailingStopLoss strategy), isp, (recordStopPrice options);
    repeat split.
Qed.

Lemma updateRunUp_footprint (b : IBar) (p : IPosition) :
  let q := updateRunUp b p in
  entryTime q = entryTime p /\ entryPrice q = entryPrice p /\
  holdingPeriod q = holdingPeriod p /\
  riskSeries q = riskSeries p /\
  rateOfReturnSeries q = rateOfReturnSeries p /\
  stopPriceSeries q = stopPriceSeries p /\
  curStopPrice q = curStopPrice p /\
  curRiskPct q = curRiskPct p /\
  ((0 <=? runUp p) = true -> (0 <=? runUp q) = true).
Proof.
  unfold updateRunUp. split_position p. cbn.
  destruct d; cbn.
  - destruct (Bar.high b - ep >? ru) eqn:E; cbn; repeat split; auto.
    intro H. eapply le_lt_trans_zero; eauto.
  - destruct (ep - Bar.low b >? ru) eqn:E; cbn; repeat split; auto.
    intro H. eapply le_lt_trans_zero; eauto.
Qed.

Lemma updatePosition_footprint (p : IPosition) (b : IBar) :
  let q := updatePosition p b in
  entryTime q = entryTime p /\ entryPrice q = entryPrice p /\
  runUp q = runUp p /\
  holdingPeriod q = S (holdingPeriod p) /\
  riskSeries q = riskSeries p /\
  rateOfReturnSeries q = rateOfReturnSeries p /\
  stopPriceSeries q = stopPriceSeries p /\
  curStopPrice q = curStopPrice p /\
  isSome (curRiskPct q) = (isSome (curStopPrice p) || isSome (curRiskPct p))%bool.
Proof.
  split_position p. unfold updatePosition. cbn.
  destruct csp, crp; cbn; rewrite Nat.add_1_r; repeat split.
Qed.

Lemma recordRiskSample_footprint (b : IBar) (p : IPosition) :
  match recordRiskSample options b p with
  | Ok q =>
      entryTime q = entryTime p /\ entryPrice q = entryPrice p /\
      runUp q = runUp p /\ holdingPeriod q = holdingPeriod p /\
      rateOfReturnSeries q = rateOfReturnSeries p /\
      stopPriceSeries q = stopPriceSeries p /\
      curStopPrice q = curStopPrice p /\
      curRiskPct q = curRiskPct p /\
      sampleCount (riskSeries q)
        = (if (recordRisk options && isSome (curRiskPct p))%bool
           then option_map S (sampleCount (riskSeries p))
           else sampleCount (riskSeries p))
  | Throw _ =>
      recordRisk options = true /\ isSome (curRiskPct p) = true /\
      riskSeries p = None
  end.
Proof.
  unfold recordRiskSample, pushSample. split_position p. cbn.
  destruct crp, (recordRisk options), rs; cbn; repeat split.
  all: rewrite length_app; cbn; now rewrite Nat.add_1_r.
Qed.

Lemma recordRateOfReturnSample_footprint (b : IBar) (p : IPosition) :
  match recordRateOfReturnSample options b p with
  | Ok q =>
      entryTime q = entryTime p /\ entryPrice q = entryPrice p /\
      runUp q = runUp p /\ holdingPeriod q = holdingPeriod p /\
      riskSeries q = riskSeries p /\
      stopPriceSeries q = stopPriceSeries p /\
      curStopPrice q = curStopPrice p /\
      curRiskPct q = curRiskPct p /\
      isSome (rateOfReturnSeries q) = isSome (rateOfReturnSeries p)
  | Throw _ =>
      recordRateOfReturn options = true /\ rateOfReturnSeries p = None
  end.
Proof.
  unfold recordRateOfReturnSample, pushSample. split_position p. cbn.
  destruct (recordRateOfReturn options), rr; cbn; repeat split.
Qed.

Lemma revaluateTrailingStop_footprint (b : IBar) (st : State) (p : IPosition) :
  match revaluateTrailingStop strategy options params b st p with
  | Ok q =>
      entryTime q = entryTime p /\ entryPrice q = entryPrice p /\
      runUp q = runUp p /\ holdingPeriod q = holdingPeriod p /\
      riskSeries q = riskSeries p /\
      rateOfReturnSeries q = rateOfReturnSeries p /\
      curRiskPct q = curRiskPct p /\
      isSome (curStopPrice q)
        = (isSome (Strategy.trailingStopLoss strategy)
           || isSome (curStopPrice p))%bool /\
      sampleCount (stopPriceSeries q)
        = (if (isSome (Strategy.trailingStopLoss strategy)
               && recordStopPrice options)%bool
           then option_map S (sampleCount (stopPriceSeries p))
           else sampleCount (stopPriceSeries p))
  | Throw _ =>
      isSome (Strategy.trailingStopLoss strategy) = true /\
      recordStopPrice options = true /\ stopPriceSeries p = None
  end.
Proof.
  unfold revaluateTrailingStop, pushSample. split_position p. cbn.
  destruct (Strategy.trailingStopLoss strategy), (recordStopPrice options), sp;
    cbn; repeat split.
  all: try (rewrite length_app; cbn; now rewrite Nat.add_1_r).
  all: destruct csp; reflexivity.
Qed.

End Footprint.


(** ** Invariants of the open position, carried to the trades *)

Lemma finalizePosition_footprint (p : IPosition) (t : Date) (price : num)
    (reason : string) (fee : num) :
  let trade := finalizePosition p t price reason fee in
  Trade.holdingPeriod trade = S (holdingPeriod p) /\
  Trade.runUp trade = runUp p /\
  Trade.riskSeries trade = riskSeries p /\
  Trade.stopPriceSeries trade = stopPriceSeries p /\
  Trade.stopPrice trade = curStopPrice p.
Proof.
  split_position p. destruct rr; cbn; rewrite Nat.add_1_r; repeat split.
Qed.

Section PositionInvariant.

Variable P : Type.
Variable strategy : IStrategy P.
Variable options : IBacktestOptions.
Variable lookback : nat.
Variable params : option P.
Variable fee : num.
Variable Q : IPosition -> Prop.
Variable T : ITrade -> Prop.
Variable okBar : IBar -> Prop.

Hypothesis Henter :
  forall b st s1,
    okBar b ->
    Q (updateRunUp b
         (applyTrailingStop strategy options params b s1
            (entered strategy options params b st))).

Hypothesis Hposition :
  forall b st p p1 p2 p3,
    okBar b -> Q p ->
    recordRiskSample options b (updatePosition p b) = Ok p1 ->
    recordRateOfReturnSample options b p1 = Ok p2 ->
    revaluateTrailingStop strategy options params b st p2 = Ok p3 ->
    Q (updateRunUp b p3).

Hypothesis Hclose :
  forall p t price reason, Q p -> T (finalizePosition p t price reason fee).

Lemma loopBody_holds (b : IBar) (st st' : State) :
  okBar b -> holds Q T st ->
  loopBody strategy options lookback params fee b st = Ok st' ->
  holds Q T st'.
Proof.
  intros Hb Hs H. unfold loopBody in H.
  set (st0 := set_lookbackBuffer _ st) in H.
  assert (Hs0 : holds Q T st0) by (destruct st; exact Hs).
  clearbody st0. clear Hs st.
  destruct (Nat.ltb _ lookback); [now injection H as <-|].
  destruct Hs0 as [Ht Hp].
  destruct (positionStatus st0).
  - unfold caseNone in H. apply call_enterPosition_frame in H as (_ & Ho & Hc & _).
    unfold holds. now rewrite Ho, Hc.
  - unfold caseEnter in H. inv_bind H. cbn zeta in H. inv_bind H.
    injection H as <-.
    apply exitOnCondition_frame in E0 as (_ & _ & Ec & _).
    destruct st0 as [ct ps ep er pd op lb], a0; cbn in *. subst.
    split; [assumption|].
    exact (@Henter b (mkState ct ps ep er pd op lb) _ Hb).
  - unfold casePosition in H. inv_bind H.
    destruct (openPosition st0) as [p|] eqn:Eo; [|discriminate].
    cbn zeta in H. do 4 inv_bind H. injection H as <-.
    apply exitOnCondition_frame in E2 as (_ & _ & Ec & _).
    assert (Hq : Q (updateRunUp b a3))
      by exact (@Hposition b _ p _ _ _ Hb Hp E0 E1 E3).
    destruct st0, a2; cbn in *. subst. split; assumption.
  - unfold caseExit, closePosition in H. inv_bind H.
    destruct (openPosition st0) as [p|] eqn:Eo; [|discriminate].
    injection H as <-. destruct st0; cbn in *. subst. split; [|exact I].
    apply Forall_app. split; [assumption|]. constructor; [|constructor].
    now apply Hclose.
Qed.

Lemma forOf_holds (bars : list IBar) :
  forall st st',
    Forall okBar bars -> holds Q T st ->
    forOf strategy options lookback params fee bars st = Ok st' ->
    holds Q T st'.
Proof.
  induction bars as [|b rest IH]; simpl; intros st st' Hb Hs H.
  - now injection H as <-.
  - inv_bind H. inversion Hb; subst. eauto using loopBody_holds.
Qed.

End PositionInvariant.

(** The invariant at the level of [backtest]: a property kept by the open
    position's updates and carried over by [finalizePosition] holds of every
    trade returned. *)
Lemma backtest_holds (P : Type) (strategy : IStrategy P) (bars : list IBar)
    (options : option IBacktestOptions) (trades : list ITrade)
    (Q : IPosition -> Prop) (T : ITrade -> Prop) (okBar : IBar -> Prop) :
  (forall b st s1,
      okBar b ->
      Q (updateRunUp b
           (applyTrailingStop strategy (nullish options defaultOptions)
              (Strategy.parameters strategy) b s1
              (entered strategy (nullish options defaultOptions)
                       (Strategy.parameters strategy) b st)))) ->
  (forall b st p p1 p2 p3,
      okBar b -> Q p ->
      recordRiskSample (nullish options defaultOptions) b (updatePosition p b) = Ok p1 ->
      recordRateOfReturnSample (nullish options defaultOptions) b p1 = Ok p2 ->
      revaluateTrailingStop strategy (nullish options defaultOptions)
        (Strategy.parameters strategy) b st p2 = Ok p3 ->
      Q (updateRunUp b p3)) ->
  (forall p t price reason,
      Q p -> T (finalizePosition p t price reason (feesOf strategy))) ->
  Forall okBar (indicatorsOf strategy bars) ->
  backtest strategy bars options = Ok trades ->
  Forall T trades.
Proof.
  intros Henter Hposition Hclose Hbars H.
  apply backtest_inv in H as (tf & st & _ & Hrun & Hend).
  assert (Hs : holds Q T st).
  { unfold runLoop in Hrun.
    eapply forOf_holds; [exact Henter|exact Hposition|exact Hclose|exact Hbars| |exact Hrun].
    split; [constructor|exact I]. }
  destruct Hs as [Ht Hp].
  destruct Hend as [[_ ->] | (p & lastBar & Ho & _ & ->)]; [assumption|].
  rewrite Ho in Hp. apply Forall_app. split; [assumption|].
  constructor; [|constructor]. now apply Hclose.
Qed.

Ltac footprint E :=
  let F := fresh "F" in
  match type of E with
  | recordRiskSample ?o ?b ?p = Ok _ =>
      pose proof (recordRiskSample_footprint o b p) as F; rewrite E in F
  | recordRateOfReturnSample ?o ?b ?p = Ok _ =>
      pose proof (recordRateOfReturnSample_footprint o b p) as F; rewrite E in F
  | revaluateTrailingStop ?s ?o ?ps ?b ?st ?p = Ok _ =>
      pose proof (revaluateTrailingStop_footprint s o ps b st p) as F;
      rewrite E in F
  end.

Lemma Forall_True (A : Type) (l : list A) : Forall (fun _ => True) l.
Proof. apply Forall_forall. auto. Qed.

(** ** Run-up *)

(** The run-up of every trade is a number at least zero, whatever the
    prices are: it starts at zero and is only replaced by a value that
    compares greater, which [NaN] never does. *)
Theorem runUp_nonnegative :
  forall (P : Type) (strategy : IStrategy P) (bars : list IBar)
         (options : option IBacktestOptions) (trades : list ITrade),
    backtest strategy bars options = Ok trades ->
    Forall (fun trade => (0 <=? Trade.runUp trade) = true) trades.
Proof.
  intros P strategy bars options trades H.
  apply (@backtest_holds P strategy bars options trades
           (fun p => (0 <=? runUp p) = true)
           (fun t => (0 <=? Trade.runUp t) = true)
           (fun _ => True)); auto using Forall_True.
  - intros b st s1 _.
    apply updateRunUp_footprint.
    destruct (applyTrailingStop_identity strategy (nullish options defaultOptions)
                (Strategy.parameters strategy) b s1
                (entered strategy (nullish options defaultOptions)
                         (Strategy.parameters strategy) b st))
      as (_ & _ & -> & _).
    destruct (entered_identity strategy (nullish options defaultOptions)
                (Strategy.parameters strategy) b st) as (_ & _ & -> & _).
    reflexivity.
  - intros b st p p1 p2 p3 _ Hq E1 E2 E3.
    footprint E1. footprint E2. footprint E3.
    destruct F as (_ & _ & R1 & _), F0 as (_ & _ & R2 & _),
             F1 as (_ & _ & R3 & _).
    destruct (updatePosition_footprint p b) as (_ & _ & R0 & _).
    apply updateRunUp_footprint. now rewrite R3, R2, R1, R0.
  - intros p t price reason Hq.
    destruct (finalizePosition_footprint p t price reason (feesOf strategy))
      as (_ & -> & _).
    exact Hq.
Qed.

Lemma runUp_nonnegative_witness :
  exists trade,
    backtest trailing5 ratchetBars None = Ok [trade] /\
    Trade.runUp trade = 9 /\
    (0 <=? Trade.runUp trade) = true.
Proof.
  eexists. split; [vm_compute; reflexivity|]. split; [reflexivity|].
  pose proof (@runUp_nonnegative unit trailing5 ratchetBars None _ eq_refl) as H.
  apply Forall_inv in H. exact H.
Defined.

(** ** Bars held *)

(** Every trade has been held at least one bar: closing a position counts
    as a bar held. *)
Theorem holdingPeriod_positive :
  forall (P : Type) (strategy : IStrategy P) (bars : list IBar)
         (options : option IBacktestOptions) (trades : list ITrade),
    backtest strategy bars options = Ok trades ->
    Forall (fun trade => (1 <= Trade.holdingPeriod trade)%nat) trades.
Proof.
  intros P strategy bars options trades H.
  apply (@backtest_holds P strategy bars options trades
           (fun _ => True)
           (fun t => (1 <= Trade.holdingPeriod t)%nat)
           (fun _ => True)); auto using Forall_True.
  intros p t price reason _.
  destruct (finalizePosition_footprint p t price reason (feesOf strategy))
    as (-> & _).
  lia.
Qed.

Lemma holdingPeriod_positive_witness :
  exists trade,
    backtest alwaysIn risingBars None = Ok [trade] /\
    (1 <= Trade.holdingPeriod trade)%nat.
Proof.
  eexists. split; [vm_compute; reflexivity|].
  pose proof (@holdingPeriod_positive unit alwaysIn risingBars None _ eq_refl) as H.
  apply Forall_inv in H. exact H.
Defined.

(** ** The risk and stop-price series *)

(** With [recordRisk] on and a [stopLoss] in the strategy, every trade has
    a risk series with one sample per bar held. *)
Theorem riskSeries_length :
  forall (P : Type) (strategy : IStrategy P) (bars : list IBar)
         (options : IBacktestOptions) (trades : list ITrade)
         (stopLoss : IOpenPositionRuleArgs P -> num),
    recordRisk options = true ->
    Strategy.stopLoss strategy = Some stopLoss ->
    backtest strategy bars (Some options) = Ok trades ->
    Forall (fun trade =>
              exists series,
                Trade.riskSeries trade = Some series /\
                List.length series = Trade.holdingPeriod trade)
           trades.
Proof.
  intros P strategy bars options trades sl Hrec Hsl H.
  assert (Hall : Forall (fun t => sampleCount (Trade.riskSeries t)
                                  = Some (Trade.holdingPeriod t)) trades).
  { apply (@backtest_holds P strategy bars (Some options) trades
             (fun p => sampleCount (riskSeries p) = Some (S (holdingPeriod p))
                       /\ isSome (curStopPrice p) = true)
             (fun t => sampleCount (Trade.riskSeries t)
                       = Some (Trade.holdingPeriod t))
             (fun _ => True)); auto using Forall_True; cbn [nullish].
    - intros b st s1 _.
      set (p0 := entered strategy options (Strategy.parameters strategy) b st).
      destruct (entered_identity strategy options (Strategy.parameters strategy) b st)
        as (_ & _ & _ & H0).
      destruct (entered_series strategy options (Strategy.parameters strategy) b st)
        as (_ & _ & C0 & _ & R0).
      rewrite Hsl in C0. rewrite Hsl, Hrec in R0. cbn [isSome andb] in C0, R0.
      fold p0 in H0, C0, R0.
      destruct (applyTrailingStop_identity strategy options
                  (Strategy.parameters strategy) b s1 p0) as (_ & _ & _ & H1).
      destruct (applyTrailingStop_series strategy options
                  (Strategy.parameters strategy) b s1 p0) as (R1 & _ & _ & C1 & _).
      destruct (updateRunUp_footprint b
                  (applyTrailingStop strategy options
                     (Strategy.parameters strategy) b s1 p0))
        as (_ & _ & H2 & R2 & _ & _ & C2 & _).
      rewrite R2, H2, C2, R1, H1, C1, R0, H0, C0, orb_true_r. auto.
    - intros b st p p1 p2 p3 _ (Hr & Hc) E1 E2 E3.
      footprint E1. footprint E2. footprint E3.
      destruct (updatePosition_footprint p b)
        as (_ & _ & _ & H0 & R0 & _ & _ & C0 & K0).
      destruct F as (_ & _ & _ & H1 & _ & _ & C1 & _ & R1).
      destruct F0 as (_ & _ & _ & H2 & R2 & _ & C2 & _).
      destruct F1 as (_ & _ & _ & H3 & R3 & _ & _ & C3 & _).
      destruct (updateRunUp_footprint b p3) as (_ & _ & H4 & R4 & _ & _ & C4 & _).
      rewrite Hrec, K0, Hc in R1. cbn [andb orb] in R1.
      rewrite R0, Hr in R1. cbn [option_map] in R1.
      rewrite R4, H4, C4, R3, H3, C3, R2, H2, C2, C1, C0, Hc, R1, H1, H0,
        orb_true_r. auto.
    - intros p t price reason (Hr & _).
      destruct (finalizePosition_footprint p t price reason (feesOf strategy))
        as (-> & _ & -> & _).
      exact Hr. }
  eapply Forall_impl; [|exact Hall].
  intros t Ht. unfold sampleCount in Ht.
  destruct (Trade.riskSeries t) as [l|]; [|discriminate].
  injection Ht as Ht. now exists l.
Qed.

Lemma riskSeries_length_witness :
  exists trade series,
    backtest stop5 stoppedLastBars (Some (mkOptions false true false)) = Ok [trade] /\
    Trade.riskSeries trade = Some series /\
    List.length series = Trade.holdingPeriod trade.
Proof.
  pose proof (@riskSeries_length unit stop5 stoppedLastBars
                (mkOptions false true false) _ _ eq_refl eq_refl eq_refl) as H.
  apply Forall_inv in H. destruct H as (series & Hs & Hl).
  eexists _, series. split; [vm_compute; reflexivity|]. split; assumption.
Defined.

(** With [recordStopPrice] on and a [trailingStopLoss] in the strategy,
    every trade has a stop-price series with one sample per bar held. *)
Theorem stopPriceSeries_length :
  forall (P : Type) (strategy : IStrategy P) (bars : list IBar)
         (options : IBacktestOptions) (trades : list ITrade)
         (trailing : IOpenPositionRuleArgs P -> num),
    recordStopPrice options = true ->
    Strategy.trailingStopLoss strategy = Some trailing ->
    backtest strategy bars (Some options) = Ok trades ->
    Forall (fun trade =>
              exists series,
                Trade.stopPriceSeries trade = Some series /\
                List.length series = Trade.holdingPeriod trade)
           trades.
Proof.
  intros P strategy bars options trades tsl Hrec Htsl H.
  assert (Hall : Forall (fun t => sampleCount (Trade.stopPriceSeries t)
                                  = Some (Trade.holdingPeriod t)) trades).
  { apply (@backtest_holds P strategy bars (Some options) trades
             (fun p => sampleCount (stopPriceSeries p) = Some (S (holdingPeriod p)))
             (fun t => sampleCount (Trade.stopPriceSeries t)
                       = Some (Trade.holdingPeriod t))
             (fun _ => True)); auto using Forall_True; cbn [nullish].
    - intros b st s1 _.
      set (p0 := entered strategy options (Strategy.parameters strategy) b st).
      destruct (entered_identity strategy options (Strategy.parameters strategy) b st)
        as (_ & _ & _ & H0).
      fold p0 in H0.
      destruct (applyTrailingStop_identity strategy options
                  (Strategy.parameters strategy) b s1 p0) as (_ & _ & _ & H1).
      destruct (applyTrailingStop_series strategy options
                  (Strategy.parameters strategy) b s1 p0) as (_ & _ & _ & _ & S1).
      destruct (updateRunUp_footprint b
                  (applyTrailingStop strategy options
                     (Strategy.parameters strategy) b s1 p0))
        as (_ & _ & H2 & _ & _ & S2 & _).
      rewrite Htsl, Hrec in S1. cbn [isSome andb] in S1.
      now rewrite S2, H2, S1, H1, H0.
    - intros b st p p1 p2 p3 _ Hs E1 E2 E3.
      footprint E1. footprint E2. footprint E3.
      destruct (updatePosition_footprint p b)
        as (_ & _ & _ & H0 & _ & _ & S0 & _).
      destruct F as (_ & _ & _ & H1 & _ & S1 & _).
      destruct F0 as (_ & _ & _ & H2 & _ & S2 & _).
      destruct F1 as (_ & _ & _ & H3 & _ & _ & _ & _ & S3).
      destruct (updateRunUp_footprint b p3) as (_ & _ & H4 & _ & _ & S4 & _).
      rewrite Htsl, Hrec in S3. cbn [isSome andb] in S3.
      rewrite S4, H4, S3, H3, S2, H2, S1, H1, S0, H0, Hs. reflexivity.
    - intros p t price reason Hs.
      destruct (finalizePosition_footprint p t price reason (feesOf strategy))
        as (-> & _ & _ & -> & _).
      exact Hs. }
  eapply Forall_impl; [|exact Hall].
  intros t Ht. unfold sampleCount in Ht.
  destruct (Trade.stopPriceSeries t) as [l|]; [|discriminate].
  injection Ht as Ht. now exists l.
Qed.

Lemma stopPriceSeries_length_witness :
  exists trade,
    backtest trailing5 ratchetBars (Some (mkOptions true false false)) = Ok [trade] /\
    option_map (map value) (Trade.stopPriceSeries trade) = Some [97; 103; 101] /\
    Trade.holdingPeriod trade = 3%nat.
Proof.
  pose proof (@stopPriceSeries_length unit trailing5 ratchetBars
                (mkOptions true false false) _ _ eq_refl eq_refl eq_refl) as H.
  apply Forall_inv in H. destruct H as (series & Hs & Hl).
  eexists. split; [vm_compute; reflexivity|]. split; reflexivity.
Defined.

(** ** Entries *)

(** Every trade was entered at the open of a bar of the indicator series,
    at that bar's time. *)
Theorem entry_fills_at_bar_open :
  forall (P : Type) (strategy : IStrategy P) (bars : list IBar)
         (options : option IBacktestOptions) (trades : list ITrade),
    backtest strategy bars options = Ok trades ->
    Forall (fun trade =>
              exists b,
                In b (indicatorsOf strategy bars) /\
                Trade.entryTime trade = Bar.time b /\
                Trade.entryPrice trade = Bar.open b)
           trades.
Proof.
  intros P strategy bars options trades H.
  apply (@backtest_holds P strategy bars options trades
           (fun p => exists b, In b (indicatorsOf strategy bars) /\
                               entryTime p = Bar.time b /\
                               entryPrice p = Bar.open b)
           (fun t => exists b, In b (indicatorsOf strategy bars) /\
                               Trade.entryTime t = Bar.time b /\
                               Trade.entryPrice t = Bar.open b)
           (fun b => In b (indicatorsOf strategy bars))); auto.
  - intros b st s1 Hb. exists b. split; [exact Hb|].
    set (p0 := entered strategy (nullish options defaultOptions)
                       (Strategy.parameters strategy) b st).
    destruct (entered_identity strategy (nullish options defaultOptions)
                (Strategy.parameters strategy) b st) as (T0 & P0 & _).
    fold p0 in T0, P0.
    destruct (applyTrailingStop_identity strategy (nullish options defaultOptions)
                (Strategy.parameters strategy) b s1 p0) as (T1 & P1 & _).
    destruct (updateRunUp_footprint b
                (applyTrailingStop strategy (nullish options defaultOptions)
                   (Strategy.parameters strategy) b s1 p0)) as (T2 & P2 & _).
    now rewrite T2, P2, T1, P1, T0, P0.
  - intros b st p p1 p2 p3 _ (b0 & Hin & Ht & Hp) E1 E2 E3.
    footprint E1. footprint E2. footprint E3.
    destruct (updatePosition_footprint p b) as (T0 & P0 & _).
    destruct F as (T1 & P1 & _), F0 as (T2 & P2 & _), F1 as (T3 & P3 & _).
    destruct (updateRunUp_footprint b p3) as (T4 & P4 & _).
    exists b0. split; [exact Hin|].
    now rewrite T4, P4, T3, P3, T2, P2, T1, P1, T0, P0.
  - intros p t price reason (b0 & Hin & Ht & Hp).
    destruct (finalizePosition_fields p t price reason (feesOf strategy))
      as (_ & T0 & P0 & _).
    exists b0. split; [exact Hin|]. now rewrite T0, P0.
  - apply Forall_forall. auto.
Qed.

Lemma entry_fills_at_bar_open_witness :
  exists trade,
    backtest alwaysIn risingBars None = Ok [trade] /\
    In (bar 1 110 110 110 110) risingBars /\
    Trade.entryTime trade = mkDate 1 /\
    Trade.entryPrice trade = 110.
Proof.
  pose proof (@entry_fills_at_bar_open unit alwaysIn risingBars None _ eq_refl) as H.
  apply Forall_inv in H. destruct H as (b & Hin & Ht & Hp).
  eexists. split; [vm_compute; reflexivity|].
  split; [right; left; reflexivity|]. split; reflexivity.
Defined.

(** ** A crash in the Position case *)

Section Crash.

Variable P : Type.
Variable strategy : IStrategy P.
Variable options : IBacktestOptions.
Variable lookback : nat.
Variable params : option P.
Variable fee : num.
Variable trailing : IOpenPositionRuleArgs P -> num.
Hypothesis Hsl : Strategy.stopLoss strategy = None.
Hypothesis Htsl : Strategy.trailingStopLoss strategy = Some trailing.
Hypothesis Hrec : recordRisk options = true.

(** The Enter case leaves a position that the trailing stop has given a
    stop price, without the risk series only an initial stop creates. *)
Lemma caseEnter_unrecorded (b : IBar) (st st1 : State) :
  caseEnter strategy options params b st = Ok st1 ->
  lookbackBuffer st1 = lookbackBuffer st /\
  exists q,
    openPosition st1 = Some q /\
    isSome (curStopPrice q) = true /\ riskSeries q = None.
Proof.
  intro H. unfold caseEnter in H. inv_bind H. cbn zeta in H. inv_bind H.
  injection H as <-.
  fold (entered strategy options params b st) in *.
  set (p0 := entered strategy options params b st) in *.
  destruct (entered_series strategy options params b st)
    as (_ & _ & _ & _ & R0).
  fold p0 in R0. rewrite Hsl in R0. cbn [isSome andb] in R0.
  destruct (applyTrailingStop_series strategy options params b a0 p0)
    as (R1 & _ & _ & C1 & _).
  rewrite Htsl in C1. cbn [isSome orb] in C1.
  set (p1 := applyTrailingStop strategy options params b a0 p0) in *.
  destruct (updateRunUp_footprint b p1) as (_ & _ & _ & R2 & _ & _ & C2 & _).
  rewrite R1 in R2. rewrite <- C2 in C1.
  apply exitOnCondition_frame in E0 as (_ & _ & _ & Hbuf).
  split.
  { transitivity (lookbackBuffer a0); [destruct a0; reflexivity|].
    rewrite Hbuf. destruct st; reflexivity. }
  exists (updateRunUp b p1).
  split; [destruct a0; reflexivity|]. split; [exact C1|].
  rewrite R2. unfold sampleCount in R0.
  destruct (riskSeries p0); [discriminate|reflexivity].
Qed.

(** On such a position the Position case computes a current risk and
    pushes it to the series that does not exist. *)
Lemma casePosition_unrecorded (b : IBar) (st : State) (q : IPosition) :
  openPosition st = Some q ->
  isSome (curStopPrice q) = true -> riskSeries q = None ->
  casePosition strategy options params b st
  = Throw "TypeError: Cannot read properties of undefined".
Proof.
  intros Ho C1 R2. unfold casePosition. rewrite Ho. cbn [isSome assert bind].
  destruct (updatePosition_footprint q b) as (_ & _ & _ & _ & R3 & _ & _ & _ & K3).
  rewrite C1 in K3. cbn [orb] in K3.
  unfold recordRiskSample, pushSample.
  destruct (curRiskPct (updatePosition q b)); [|discriminate].
  rewrite Hrec, R3, R2. reflexivity.
Qed.

Lemma push_warmedUp (b : IBar) (st : State) :
  warmedUp lookback st ->
  let st0 := set_lookbackBuffer (CBuffer.push b (lookbackBuffer st)) st in
  warmedUp lookback st0 /\
  positionStatus st0 = positionStatus st /\
  openPosition st0 = openPosition st.
Proof.
  intros (Hsize & Hfull). cbv zeta.
  split; [|destruct st; split; reflexivity].
  unfold warmedUp.
  replace (positionStatus (set_lookbackBuffer (CBuffer.push b (lookbackBuffer st)) st))
    with (positionStatus st) by (destruct st; reflexivity).
  replace (lookbackBuffer (set_lookbackBuffer (CBuffer.push b (lookbackBuffer st)) st))
    with (CBuffer.push b (lookbackBuffer st)) by (destruct st; reflexivity).
  unfold CBuffer.push. cbn [CBuffer.size CBuffer.length].
  split; [exact Hsize|]. intro Hs. specialize (Hfull Hs).
  destruct (Nat.ltb _ _); lia.
Qed.

Lemma loopBody_unrecorded (b : IBar) (st st' : State) :
  statusAgrees st -> warmedUp lookback st -> riskUnrecorded st ->
  loopBody strategy options lookback params fee b st = Ok st' ->
  warmedUp lookback st' /\ riskUnrecorded st'.
Proof.
  intros Hag Hw Hr H. unfold loopBody in H.
  destruct (push_warmedUp b Hw) as (Hw0 & Hs0 & Ho0).
  set (st0 := set_lookbackBuffer _ st) in *.
  assert (Hr0 : riskUnrecorded st0) by (unfold riskUnrecorded; now rewrite Ho0).
  assert (Hag0 : statusAgrees st0) by (unfold statusAgrees; now rewrite Hs0, Ho0).
  clearbody st0. clear Hag Hw Hr Hs0 Ho0.
  destruct (Nat.ltb_spec (CBuffer.length (lookbackBuffer st0)) lookback) as [Hlt|Hge];
    [injection H as <-; auto|].
  destruct Hw0 as (Hsize & _).
  unfold statusAgrees in Hag0. unfold riskUnrecorded in *.
  destruct (positionStatus st0) eqn:E0.
  - unfold caseNone in H.
    apply call_enterPosition_frame in H as (_ & Ho & _ & Hbuf).
    unfold warmedUp. rewrite Hbuf, Ho. auto.
  - apply caseEnter_unrecorded in H as (Hbuf & q & Ho & Hq).
    unfold warmedUp. rewrite Hbuf, Ho. auto.
  - destruct Hag0 as (q & Ho). rewrite Ho in Hr0. destruct Hr0 as (C1 & R2).
    rewrite (casePosition_unrecorded b st0 Ho C1 R2) in H. discriminate H.
  - unfold caseExit, closePosition in H. inv_bind H.
    destruct (openPosition st0); [|discriminate].
    injection H as <-. unfold warmedUp.
    split; [split; [destruct st0; exact Hsize|intros _; destruct st0; exact Hge]|].
    destruct st0; exact I.
Qed.

Lemma forOf_unrecorded (bars : list IBar) :
  forall st st',
    statusAgrees st -> warmedUp lookback st -> riskUnrecorded st ->
    forOf strategy options lookback params fee bars st = Ok st' ->
    statusAgrees st' /\ warmedUp lookback st' /\ riskUnrecorded st'.
Proof.
  induction bars as [|b rest IH]; simpl; intros st st' Hag Hw Hr H.
  - injection H as <-. auto.
  - inv_bind H.
    destruct (@loopBody_unrecorded _ _ _ Hag Hw Hr E) as (Hw' & Hr').
    eapply IH; [|exact Hw'|exact Hr'|exact H].
    eapply loopBody_statusAgrees; eauto.
Qed.

(** The bar that finds such a run in state Position ends it. *)
Lemma loopBody_crash (b : IBar) (st : State) :
  statusAgrees st -> warmedUp lookback st -> riskUnrecorded st ->
  positionStatus st = Position ->
  loopBody strategy options lookback params fee b st
  = Throw "TypeError: Cannot read properties of undefined".
Proof.
  intros Hag Hw Hr Hs. unfold loopBody.
  destruct (push_warmedUp b Hw) as ((Hsize & Hfull) & Hs0 & Ho0).
  set (st0 := set_lookbackBuffer _ st) in *.
  rewrite Hs in Hs0. rewrite Hs0 in *.
  destruct (Nat.ltb_spec (CBuffer.length (lookbackBuffer st0)) lookback) as [Hlt|Hge].
  { assert (lookback <= CBuffer.length (lookbackBuffer st0))%nat
      by (apply Hfull; discriminate). lia. }
  unfold statusAgrees in Hag. rewrite Hs in Hag. destruct Hag as (q & Ho).
  unfold riskUnrecorded in Hr. rewrite Ho in Hr. destruct Hr as (C1 & R2).
  rewrite <- Ho0 in Ho.
  exact (casePosition_unrecorded b st0 Ho C1 R2).
Qed.

End Crash.

(** With [recordRisk] on, a [trailingStopLoss] and no [stopLoss], [backtest]
    throws a TypeError as soon as a bar finds the run in state Position,
    that is on the bar after an entry bar on which no exit was signalled:
    the trailing stop has given the position a stop price, hence a current
    risk to record, but [riskSeries] was never created, and
    [riskSeries.push] reads a property of [undefined].  Such a run returns
    only if no position ever outlasts its entry bar with bars to follow. *)
Theorem recordRisk_without_stopLoss_throws :
  forall (P : Type) (strategy : IStrategy P) (bars : list IBar)
         (options : option IBacktestOptions)
         (trailing : IOpenPositionRuleArgs P -> num)
         (front : list IBar) (b : IBar) (rest : list IBar) (st : State),
    Strategy.stopLoss strategy = None ->
    Strategy.trailingStopLoss strategy = Some trailing ->
    recordRisk (nullish options defaultOptions) = true ->
    enoughBars strategy bars ->
    indicatorsOf strategy bars = front ++ b :: rest ->
    forOf strategy (nullish options defaultOptions) (lookbackPeriodOf strategy)
          (Strategy.parameters strategy) (feesOf strategy) front
          (initialState (lookbackPeriodOf strategy)) = Ok st ->
    positionStatus st = Position ->
    backtest strategy bars options
    = Throw "TypeError: Cannot read properties of undefined".
Proof.
  intros P strategy bars options trailing front b rest st
         Hsl Htsl Hrec He Hind Hfront Hs.
  assert (Hinit : warmedUp (lookbackPeriodOf strategy)
                    (initialState (lookbackPeriodOf strategy)))
    by (split; [reflexivity|intro Hn; now elim Hn]).
  destruct (@forOf_unrecorded _ _ _ _ _ _ _ Hsl Htsl Hrec front _ _
              (initialState_statusAgrees _) Hinit I Hfront) as (Hag & Hw & Hr).
  pose proof (@loopBody_crash _ strategy _ _ (Strategy.parameters strategy)
                (feesOf strategy) Hrec b st Hag Hw Hr Hs) as Hcrash.
  destruct (enoughBars_cons He) as (b0 & tail & ->).
  unfold backtest. unfold enoughBars in He. rewrite He.
  unfold timeframeOf. cbn [series_last series_first bind].
  unfold runLoop. rewrite Hind, forOf_app, Hfront. cbn [bind forOf].
  rewrite Hcrash. reflexivity.
Qed.

(** On scenario S4 with [recordRisk]: the entry bar leaves the run in state
    Position, and the next bar throws. *)
Lemma recordRisk_without_stopLoss_throws_witness :
  exists st,
    forOf trailing5 riskOnly 1 None 0 (firstn 2 ratchetBars) (initialState 1)
    = Ok st /\
    positionStatus st = Position /\
    backtest trailing5 ratchetBars (Some riskOnly)
    = Throw "TypeError: Cannot read properties of undefined".
Proof.
  eexists. split; [vm_compute; reflexivity|]. split; [reflexivity|].
  eapply (@recordRisk_without_stopLoss_throws unit trailing5 ratchetBars
            (Some riskOnly) _ (firstn 2 ratchetBars) (bar 2 102 109 101 108)
            [bar 3 108 108 105 106]);
    reflexivity.
Defined.

(** ** When [backtest] returns *)

Lemma isSome_sampleCount (series : option (list ITimestampedValue)) :
  isSome (sampleCount series) = isSome series.
Proof. destruct series; reflexivity. Qed.

Section Progress.

Variable P : Type.
Variable strategy : IStrategy P.
Variable options : IBacktestOptions.
Variable lookback : nat.
Variable params : option P.
Variable fee : num.
Hypothesis Honce : callsOnce strategy.
Hypothesis Hcfg : riskRecordable strategy options.

Lemma call_once_enter (calls : list (option IEnterPositionOptions)) (st : State) :
  (List.length calls <= 1)%nat -> positionStatus st = None_ ->
  exists st', call_handle enterPosition calls st = Ok st'.
Proof.
  intros Hl Hs. destruct calls as [|c [|c' rest]]; simpl in *; [eauto| |lia].
  unfold enterPosition. rewrite Hs. cbn. eauto.
Qed.

Lemma exitOnCondition_progress (b : IBar) (st : State) (p : IPosition) :
  positionStatus st = Position -> openPosition st = Some p ->
  exists st', exitOnCondition strategy params b st = Ok st'.
Proof.
  intros Hs Ho. unfold exitOnCondition. rewrite Ho. cbn [isSome assert bind].
  assert (Hexit : forall call, exists st', exitPosition call st = Ok st').
  { intros [price reason]. unfold exitPosition. rewrite Hs. cbn. eauto. }
  destruct (stopLossExit p b); [apply Hexit|].
  destruct (profitTargetExit p b); [apply Hexit|].
  destruct (Strategy.exitRule strategy) as [rule|] eqn:Er; [|eauto].
  pose proof (proj2 Honce rule Er (openArgs params p b st)) as Hl.
  destruct (rule (openArgs params p b st)) as [|c [|c' rest]]; simpl in *;
    [eauto| |lia].
  destruct (Hexit c) as (st' & ->). cbn. eauto.
Qed.

Lemma caseEnter_progress (b : IBar) (st : State) :
  sound strategy options st -> positionStatus st = Enter ->
  exists st', caseEnter strategy options params b st = Ok st' /\
              sound strategy options st'.
Proof.
  intros [Hag _] Hs. unfold statusAgrees in Hag. rewrite Hs in Hag.
  unfold caseEnter. rewrite Hag. cbn [isSome negb assert bind].
  fold (entered strategy options params b st).
  set (p0 := entered strategy options params b st).
  set (s0 := set_positionStatus Position (set_openPosition (Some p0) st)).
  destruct (@exitOnCondition_progress b s0 p0) as (s1 & E);
    [destruct st; reflexivity|destruct st; reflexivity|].
  rewrite E. cbn [bind]. eexists. split; [reflexivity|].
  apply exitOnCondition_frame in E as (Hst & _).
  replace (positionStatus s0) with Position in Hst by (destruct st; reflexivity).
  set (p1 := applyTrailingStop strategy options params b s1 p0).
  split.
  - unfold statusAgrees.
    replace (positionStatus (set_openPosition (Some (updateRunUp b p1)) s1))
      with (positionStatus s1) by (destruct s1; reflexivity).
    replace (openPosition (set_openPosition (Some (updateRunUp b p1)) s1))
      with (Some (updateRunUp b p1)) by (destruct s1; reflexivity).
    destruct Hst as [-> | ->]; eauto.
  - replace (openPosition (set_openPosition (Some (updateRunUp b p1)) s1))
      with (Some (updateRunUp b p1)) by (destruct s1; reflexivity).
    destruct (entered_series strategy options params b st)
      as (S0 & A0 & C0 & K0 & R0).
    fold p0 in S0, A0, C0, K0, R0.
    destruct (applyTrailingStop_series strategy options params b s1 p0)
      as (R1 & A1 & K1 & C1 & S1).
    fold p1 in R1, A1, K1, C1, S1.
    destruct (updateRunUp_footprint b p1)
      as (_ & _ & _ & R2 & A2 & S2 & C2 & K2 & _).
    unfold ready. rewrite R2, A2, S2, C2, K2, R1, A1, K1, C1, K0, C0.
    rewrite <- !isSome_sampleCount, S1, R0, A0.
    repeat split.
    + intros ->. reflexivity.
    + intros -> ->. reflexivity.
    + intros Hr.
      destruct (Strategy.stopLoss strategy) eqn:Esl; cbn [isSome andb orb].
      * rewrite Hr. auto.
      * right. split; [|reflexivity].
        destruct (Strategy.trailingStopLoss strategy) eqn:Et; [|reflexivity].
        specialize (Hcfg Hr). rewrite Et, Esl in Hcfg.
        discriminate (Hcfg eq_refl).
    + intros -> ->. reflexivity.
Qed.

Lemma casePosition_progress (b : IBar) (st : State) :
  sound strategy options st -> positionStatus st = Position ->
  exists st', casePosition strategy options params b st = Ok st' /\
              sound strategy options st'.
Proof.
  intros [Hag Hready] Hs. unfold statusAgrees in Hag. rewrite Hs in Hag.
  destruct Hag as (p & Ho). rewrite Ho in Hready.
  destruct Hready as (Ha & Hb & Hc & Hc').
  unfold casePosition. rewrite Ho. cbn [isSome assert bind].
  destruct (updatePosition_footprint p b)
    as (_ & _ & _ & _ & R0 & A0 & S0 & C0 & K0).
  pose proof (recordRiskSample_footprint options b (updatePosition p b)) as F1.
  destruct (recordRiskSample options b (updatePosition p b)) as [p1|msg].
  2:{ exfalso. destruct F1 as (Hr & Hk & Hn).
      rewrite R0 in Hn. rewrite K0 in Hk.
      destruct (Hc Hr) as [Hsome | (Hx & Hy)].
      - rewrite Hn in Hsome. discriminate.
      - rewrite Hx, Hy in Hk. discriminate. }
  destruct F1 as (_ & _ & _ & _ & A1 & S1 & C1 & K1 & R1).
  cbn [bind].
  pose proof (recordRateOfReturnSample_footprint options b p1) as F2.
  destruct (recordRateOfReturnSample options b p1) as [p2|msg].
  2:{ exfalso. destruct F2 as (Hr & Hn).
      rewrite A1, A0 in Hn. specialize (Ha Hr). rewrite Hn in Ha. discriminate. }
  destruct F2 as (_ & _ & _ & _ & R2 & S2 & C2 & K2 & A2).
  cbn [bind].
  set (s0 := set_openPosition (Some p2) st).
  destruct (@exitOnCondition_progress b s0 p2) as (s1 & E);
    [destruct st; exact Hs|destruct st; reflexivity|].
  rewrite E. cbn [bind].
  pose proof (revaluateTrailingStop_footprint strategy options params b s1 p2) as F3.
  destruct (revaluateTrailingStop strategy options params b s1 p2) as [p3|msg].
  2:{ exfalso. destruct F3 as (Ht & Hr & Hn).
      rewrite S2, S1, S0 in Hn. specialize (Hb Hr Ht).
      rewrite Hn in Hb. discriminate. }
  destruct F3 as (_ & _ & _ & _ & R3 & A3 & K3 & C3 & S3).
  cbn [bind]. eexists. split; [reflexivity|].
  apply exitOnCondition_frame in E as (Hst & _).
  replace (positionStatus s0) with Position in Hst by (destruct st; exact (eq_sym Hs)).
  split.
  - unfold statusAgrees.
    replace (positionStatus (set_openPosition (Some (updateRunUp b p3)) s1))
      with (positionStatus s1) by (destruct s1; reflexivity).
    replace (openPosition (set_openPosition (Some (updateRunUp b p3)) s1))
      with (Some (updateRunUp b p3)) by (destruct s1; reflexivity).
    destruct Hst as [-> | ->]; eauto.
  - replace (openPosition (set_openPosition (Some (updateRunUp b p3)) s1))
      with (Some (updateRunUp b p3)) by (destruct s1; reflexivity).
    destruct (updateRunUp_footprint b p3)
      as (_ & _ & _ & R4 & A4 & S4 & C4 & K4 & _).
    assert (Hrisk : recordRisk options = true ->
                    isSome (riskSeries p) = true -> isSome (riskSeries p1) = true).
    { intros Hr Hsome. rewrite <- isSome_sampleCount, R1, R0.
      rewrite <- isSome_sampleCount in Hsome.
      destruct (sampleCount (riskSeries p)); [|discriminate].
      destruct (recordRisk options && isSome (curRiskPct (updatePosition p b)))%bool;
        reflexivity. }
    unfold ready. rewrite R4, A4, S4, C4, K4, R3, A3, K3, C3, R2, A2, K2, C2,
      A1, K1, C1, A0, C0.
    repeat split.
    + exact Ha.
    + intros Hr Ht. rewrite <- isSome_sampleCount, S3, Ht, Hr.
      cbn [andb]. rewrite S2, S1, S0.
      specialize (Hb Hr Ht). rewrite <- isSome_sampleCount in Hb.
      destruct (sampleCount (stopPriceSeries p)); [reflexivity|discriminate].
    + intros Hr.
      destruct (Strategy.trailingStopLoss strategy) eqn:Et; cbn [isSome orb].
      * left. apply Hrisk; [exact Hr|]. apply Hc'; [exact Hr|].
        apply (Hcfg Hr). rewrite Et. reflexivity.
      * destruct (Hc Hr) as [Hsome | (Hx & Hy)]; [left; auto|].
        right. rewrite K0, Hx, Hy. auto.
    + intros Hr Hsl. apply Hrisk; auto.
Qed.

Lemma loopBody_progress (b : IBar) (st : State) :
  sound strategy options st ->
  exists st', loopBody strategy options lookback params fee b st = Ok st' /\
              sound strategy options st'.
Proof.
  intros Hs. unfold loopBody.
  set (st0 := set_lookbackBuffer _ st).
  assert (Hs0 : sound strategy options st0) by (destruct st; exact Hs).
  clearbody st0. clear Hs st.
  destruct (Nat.ltb _ lookback); [eauto|].
  destruct (positionStatus st0) eqn:Es.
  - unfold caseNone.
    destruct (@call_once_enter
                (Strategy.entryRule strategy
                   (Strategy.mkEntryArgs b (lookbackData st0) params)) st0
                (proj1 Honce _) Es) as (st' & E).
    exists st'. split; [exact E|].
    apply call_enterPosition_frame in E as (Hst & Ho & _).
    destruct Hs0 as [Hag Hr]. unfold sound, statusAgrees in *.
    rewrite Ho. rewrite Es in Hag. rewrite Hag in *.
    destruct Hst as [-> | [_ ->]]; rewrite ?Es; auto.
  - now apply caseEnter_progress.
  - now apply casePosition_progress.
  - destruct Hs0 as [Hag Hr]. unfold statusAgrees in Hag. rewrite Es in Hag.
    destruct Hag as (p & Ho).
    unfold caseExit, closePosition. rewrite Ho. cbn [isSome assert bind].
    eexists. split; [reflexivity|].
    destruct st0; split; [reflexivity|exact I].
Qed.

Lemma forOf_progress (bars : list IBar) :
  forall st,
    sound strategy options st ->
    exists st', forOf strategy options lookback params fee bars st = Ok st'.
Proof.
  induction bars as [|b rest IH]; intros st Hs; simpl; [eauto|].
  destruct (loopBody_progress b Hs) as (st1 & -> & Hs1). cbn [bind]. auto.
Qed.

End Progress.

(** [backtest] returns a trade list (it does not throw) on every input with
    enough bars, provided each rule calls its handle at most once per
    invocation and [recordRisk] is not combined with a trailing stop that
    has no [stopLoss] beside it. *)
Theorem backtest_returns :
  forall (P : Type) (strategy : IStrategy P) (bars : list IBar)
         (options : option IBacktestOptions),
    enoughBars strategy bars ->
    callsOnce strategy ->
    riskRecordable strategy (nullish options defaultOptions) ->
    exists trades, backtest strategy bars options = Ok trades.
Proof.
  intros P strategy bars options He Honce Hcfg.
  destruct (@forOf_progress P strategy (nullish options defaultOptions)
              (lookbackPeriodOf strategy) (Strategy.parameters strategy)
              (feesOf strategy) Honce Hcfg (indicatorsOf strategy bars)
              (initialState (lookbackPeriodOf strategy)))
    as (st & Hrun).
  { split; [apply initialState_statusAgrees|exact I]. }
  fold (runLoop strategy bars options) in Hrun.
  destruct (openPosition st) as [p|] eqn:Eo.
  - destruct (@backtest_open _ _ _ _ _ _ He Hrun Eo) as (tf & lastBar & _ & _ & ->).
    eauto.
  - rewrite (@backtest_flat _ _ _ _ _ He Hrun Eo). eauto.
Qed.

Lemma backtest_returns_witness :
  exists trades,
    backtest stopAndTarget (gapDownFront ++ [bar 2 90 92 88 91])
             (Some (mkOptions true true true)) = Ok trades.
Proof.
  apply (@backtest_returns unit stopAndTarget
           (gapDownFront ++ [bar 2 90 92 88 91]) (Some (mkOptions true true true))).
  - reflexivity.
  - split.
    + intro args. apply le_n.
    + intros rule Hrule. discriminate Hrule.
  - intros _ _. reflexivity.
Defined.

(** * Further properties of the analyzer *)

Lemma analyzeStep_counts (tf : num) (opts : option AnalyzeOptions)
    (acc acc' : Acc) (trade : ITrade) :
  analyzeStep tf opts acc trade = Ok acc' ->
  Acc.totalTrades acc' = S (Acc.totalTrades acc) /\
  Acc.numWinningTrades acc'
    = (Acc.numWinningTrades acc + (if winning trade then 1 else 0))%nat /\
  Acc.numLosingTrades acc'
    = (Acc.numLosingTrades acc + (if winning trade then 0 else 1))%nat /\
  Acc.barCount acc' = (Acc.barCount acc + Trade.holdingPeriod trade)%nat /\
  Acc.workingCapital acc' = Acc.workingCapital acc * Trade.growth trade /\
  isSome (Acc.rateOfReturnList acc') = isSome (Acc.rateOfReturnList acc).
Proof.
  unfold analyzeStep, winning. intro H. inv_bind H.
  assert (Hl : isSome a = isSome (Acc.rateOfReturnList acc)).
  { destruct (Acc.rateOfReturnList acc); [|now injection E as <-].
    destruct (Trade.rateOfReturnSeries trade), opts as [o|]; try discriminate.
    destruct (Opt.startingDate o); [|discriminate]. now injection E as <-. }
  destruct (Acc.workingCapital acc * Trade.growth trade <? Acc.peakCapital acc);
    destruct (Trade.profit trade >? 0);
    cbv zeta beta iota in H; injection H as <-; cbn;
    rewrite ?Nat.add_0_r, ?Nat.add_1_r; repeat split; exact Hl.
Qed.

Lemma analyzeLoop_counts (tf : num) (opts : option AnalyzeOptions)
    (trades : list ITrade) :
  forall acc acc',
    analyzeLoop tf opts trades acc = Ok acc' ->
    Acc.totalTrades acc' = (Acc.totalTrades acc + List.length trades)%nat /\
    Acc.numWinningTrades acc'
      = (Acc.numWinningTrades acc + List.length (filter winning trades))%nat /\
    Acc.numLosingTrades acc'
      = (Acc.numLosingTrades acc
         + List.length (filter (fun t => negb (winning t)) trades))%nat /\
    Acc.barCount acc'
      = (Acc.barCount acc + list_sum (map Trade.holdingPeriod trades))%nat /\
    Acc.workingCapital acc' = compound (Acc.workingCapital acc) trades /\
    isSome (Acc.rateOfReturnList acc') = isSome (Acc.rateOfReturnList acc).
Proof.
  induction trades as [|t rest IH]; simpl; intros acc acc' H.
  - injection H as <-. rewrite !Nat.add_0_r. repeat split.
  - inv_bind H. apply analyzeStep_counts in E as (T1 & W1 & L1 & B1 & C1 & R1).
    apply IH in H as (T2 & W2 & L2 & B2 & C2 & R2).
    rewrite T2, W2, L2, B2, C2, R2, T1, W1, L1, B1, C1, R1.
    unfold compound. simpl.
    destruct (winning t); simpl; repeat split; try reflexivity; try lia.
Qed.

Lemma winners_and_losers (trades : list ITrade) :
  (List.length (filter winning trades)
   + List.length (filter (fun t => negb (winning t)) trades))%nat
  = List.length trades.
Proof.
  induction trades as [|t rest IH]; [reflexivity|].
  cbn [filter]. destruct (winning t); cbn [negb List.length]; lia.
Qed.

Lemma analyze_inv
    (Series_average Series_std : list (option num) -> num)
    (math_std : list num -> num) (Math_sqrt : num -> num) (now : Date)
    (startingCapital : num) (trades : list ITrade)
    (options : option AnalyzeOptions) (analysis : IAnalysis) :
  snd (analyze Series_average Series_std math_std Math_sqrt now
               startingCapital trades options) = Ok analysis ->
  exists rl acc,
    is_finite startingCapital = true /\
    (startingCapital <=? 0) = false /\
    analyzeLoop (timeframeFor trades options)
                (fst (dateRangeBlock now (timeframeFor trades options) options))
                trades (initialAcc startingCapital rl) = Ok acc /\
    analysis = summarize Series_average Series_std math_std Math_sqrt
                         startingCapital (timeframeFor trades options) trades acc.
Proof.
  unfold analyze, isNumber.
  destruct (is_finite startingCapital); [|discriminate].
  destruct (startingCapital <=? 0); [discriminate|]. cbn [negb orb].
  destruct (dateRangeBlock now (timeframeFor trades options) options)
    as [opts' allocated].
  cbn [snd fst]. intro H. inv_bind H. inv_bind H. injection H as <-.
  exists a, a0. auto.
Qed.

Lemma analyze_counted :
  forall (Series_average Series_std : list (option num) -> num)
         (math_std : list num -> num) (Math_sqrt : num -> num) (now : Date)
         (startingCapital : num) (trades : list ITrade)
         (options : option AnalyzeOptions) (analysis : IAnalysis),
    snd (analyze Series_average Series_std math_std Math_sqrt now
                 startingCapital trades options) = Ok analysis ->
    Analysis.totalTrades analysis = List.length trades /\
    Analysis.numWinningTrades analysis = List.length (filter winning trades) /\
    Analysis.numLosingTrades analysis
      = List.length (filter (fun t => negb (winning t)) trades) /\
    (Analysis.numWinningTrades analysis + Analysis.numLosingTrades analysis
     = Analysis.totalTrades analysis)%nat /\
    Analysis.barCount analysis = list_sum (map Trade.holdingPeriod trades) /\
    Analysis.finalCapital analysis = compound startingCapital trades.
Proof.
  intros avg std mstd sqrt now startingCapital trades options analysis H.
  apply analyze_inv in H as (rl & acc & _ & _ & Hloop & ->).
  apply analyzeLoop_counts in Hloop as (T & W & L & B & C & _).
  cbn [initialAcc Acc.totalTrades Acc.numWinningTrades Acc.numLosingTrades
       Acc.barCount Acc.workingCapital Nat.add] in T, W, L, B, C.
  cbn [summarize Analysis.totalTrades
    Analysis.numWinningTrades Analysis.numLosingTrades Analysis.barCount
    Analysis.finalCapital].
  rewrite T, W, L, B, C. repeat split. apply winners_and_losers.
Qed.

(** Every trade is counted once: [totalTrades] is the number of trades,
    the winners are the trades with profit greater than zero and all
    others, zero profit included, are losers; [barCount] adds up the
    holding periods; [finalCapital] compounds the growths in order. *)
Theorem analysis_counts :
  forall (Series_average Series_std : list (option num) -> num)
         (math_std : list num -> num) (Math_sqrt : num -> num) (now : Date)
         (startingCapital : num) (trades : list ITrade)
         (options : option AnalyzeOptions) (analysis : IAnalysis),
    snd (analyze Series_average Series_std math_std Math_sqrt now
                 startingCapital trades options) = Ok analysis ->
    Analysis.totalTrades analysis = List.length trades /\
    Analysis.numWinningTrades analysis = List.length (filter winning trades) /\
    Analysis.numLosingTrades analysis
      = List.length (filter (fun t => negb (winning t)) trades) /\
    (Analysis.numWinningTrades analysis + Analysis.numLosingTrades analysis
     = Analysis.totalTrades analysis)%nat /\
    Analysis.barCount analysis = list_sum (map Trade.holdingPeriod trades) /\
    Analysis.finalCapital analysis = compound startingCapital trades.
Proof. exact analyze_counted. Qed.

Lemma analysis_counts_witness :
  exists analysis,
    snd (analyze noAverage noAverage noStd noSqrt (mkDate 0) 1000
                 (twoTrades ++ [closedTrade 1 0]) None) = Ok analysis /\
    Analysis.totalTrades analysis = 3%nat /\
    Analysis.numWinningTrades analysis = 1%nat /\
    Analysis.numLosingTrades analysis = 2%nat /\
    Analysis.barCount analysis = 3%nat /\
    Analysis.finalCapital analysis = 1045.
Proof.
  eexists. split; [vm_compute; reflexivity|].
  destruct (@analysis_counts noAverage noAverage noStd noSqrt (mkDate 0) 1000
              (twoTrades ++ [closedTrade 1 0]) None _ eq_refl)
    as (T & W & L & _ & B & C).
  repeat split; assumption.
Defined.

Lemma analyzeLoop_no_list (tf : num) (opts : option AnalyzeOptions)
    (trades : list ITrade) :
  forall acc,
    Acc.rateOfReturnList acc = None ->
    exists acc',
      analyzeLoop tf opts trades acc = Ok acc' /\
      Acc.rateOfReturnList acc' = None.
Proof.
  induction trades as [|t rest IH]; simpl; intros acc Hn; [eauto|].
  assert (Hstep : exists a, analyzeStep tf opts acc t = Ok a
                            /\ Acc.rateOfReturnList a = None).
  { unfold analyzeStep. rewrite Hn. cbn [bind].
    destruct (Acc.workingCapital acc * Trade.growth t <? Acc.peakCapital acc);
      destruct (Trade.profit t >? 0); cbv zeta beta iota; eauto. }
  destruct Hstep as (a & -> & Ha). cbn [bind]. auto.
Qed.

Lemma dateRangeBlock_skipped (now : Date) (trades : list ITrade)
    (options : option AnalyzeOptions) :
  noDateRange trades options ->
  dateRangeBlock now (timeframeFor trades options) options = (options, Ok None).
Proof.
  unfold noDateRange, dateRangeBlock. destruct options as [o|]; [|reflexivity].
  intros [-> | ->]; [reflexivity|].
  destruct (Opt.startingDate o); reflexivity.
Qed.

Lemma analyze_no_range :
  forall (Series_average Series_std : list (option num) -> num)
         (math_std : list num -> num) (Math_sqrt : num -> num) (now : Date)
         (startingCapital : num) (trades : list ITrade)
         (options : option AnalyzeOptions),
    is_finite startingCapital = true ->
    (startingCapital <=? 0) = false ->
    noDateRange trades options ->
    exists analysis,
      analyze Series_average Series_std math_std Math_sqrt now
              startingCapital trades options = (options, Ok analysis) /\
      Analysis.sharpeRatio analysis = 0.
Proof.
  intros avg std mstd sqrt now startingCapital trades options Hfin Hcap Hno.
  unfold analyze.
  rewrite (@capital_accepted _ Hfin Hcap), (@dateRangeBlock_skipped now _ _ Hno).
  cbn [bind].
  destruct (@analyzeLoop_no_list (timeframeFor trades options) options trades
              (initialAcc startingCapital None) eq_refl) as (acc & -> & Hn).
  cbn [bind]. eexists. split; [reflexivity|].
  cbn [summarize Analysis.sharpeRatio]. now rewrite Hn.
Qed.

(** Without a date range (no options, no starting date, or no usable
    timeframe) [analyze] throws on nothing but the capital check: for a
    finite starting capital greater than zero and any trade list it returns
    a record, leaves [options] as passed and reports a Sharpe ratio of
    zero. *)
Theorem analyze_without_date_range :
  forall (Series_average Series_std : list (option num) -> num)
         (math_std : list num -> num) (Math_sqrt : num -> num) (now : Date)
         (startingCapital : num) (trades : list ITrade)
         (options : option AnalyzeOptions),
    is_finite startingCapital = true ->
    (startingCapital <=? 0) = false ->
    noDateRange trades options ->
    exists analysis,
      analyze Series_average Series_std math_std Math_sqrt now
              startingCapital trades options = (options, Ok analysis) /\
      Analysis.sharpeRatio analysis = 0.
Proof. exact analyze_no_range. Qed.

Lemma analyze_without_date_range_witness :
  exists analysis,
    analyze noAverage noAverage noStd noSqrt (mkDate 0) 1000 twoTrades
            (Some (Opt.mkAnalyzeOptions None None (Some 1)))
    = (Some (Opt.mkAnalyzeOptions None None (Some 1)), Ok analysis) /\
    Analysis.sharpeRatio analysis = 0.
Proof.
  apply (@analyze_without_date_range noAverage noAverage noStd noSqrt (mkDate 0)
           1000 twoTrades (Some (Opt.mkAnalyzeOptions None None (Some 1)))).
  - reflexivity.
  - reflexivity.
  - left. reflexivity.
Defined.

Lemma compound_app (capital : num) (t1 t2 : list ITrade) :
  compound capital (t1 ++ t2) = compound (compound capital t1) t2.
Proof. unfold compound. apply fold_left_app. Qed.

(** Analyses compose over concatenation: when the final capital of
    analysing [t1] is a finite number greater than zero, so that [analyze]
    accepts it as a starting capital, analysing [t1 ++ t2] gives the final
    capital of analysing [t2] from it, and trade counts and bar counts add
    up. *)
Theorem analysis_of_concatenation :
  forall (Series_average Series_std : list (option num) -> num)
         (math_std : list num -> num) (Math_sqrt : num -> num) (now : Date)
         (startingCapital : num) (t1 t2 : list ITrade) (a1 : IAnalysis),
    snd (analyze Series_average Series_std math_std Math_sqrt now
                 startingCapital t1 None) = Ok a1 ->
    is_finite (Analysis.finalCapital a1) = true ->
    (Analysis.finalCapital a1 <=? 0) = false ->
    exists a2 a,
      snd (analyze Series_average Series_std math_std Math_sqrt now
                   (Analysis.finalCapital a1) t2 None) = Ok a2 /\
      snd (analyze Series_average Series_std math_std Math_sqrt now
                   startingCapital (t1 ++ t2) None) = Ok a /\
      Analysis.finalCapital a = Analysis.finalCapital a2 /\
      Analysis.totalTrades a
        = (Analysis.totalTrades a1 + Analysis.totalTrades a2)%nat /\
      Analysis.barCount a = (Analysis.barCount a1 + Analysis.barCount a2)%nat.
Proof.
  intros avg std mstd sqrt now startingCapital t1 t2 a1 H1 Hfin1 Hcap1.
  pose proof (@analyze_counted _ _ _ _ _ _ _ _ _ H1) as (T1 & _ & _ & _ & B1 & C1).
  apply analyze_inv in H1 as (_ & _ & Hfin & Hcap & _).
  destruct (@analyze_no_range avg std mstd sqrt now
              (Analysis.finalCapital a1) t2 None Hfin1 Hcap1 I) as (a2 & H2 & _).
  destruct (@analyze_no_range avg std mstd sqrt now
              startingCapital (t1 ++ t2) None Hfin Hcap I) as (a & H & _).
  exists a2, a.
  assert (H2' := f_equal snd H2). assert (H' := f_equal snd H).
  cbn [snd] in H2', H'.
  pose proof (@analyze_counted _ _ _ _ _ _ _ _ _ H2') as (T2 & _ & _ & _ & B2 & C2).
  pose proof (@analyze_counted _ _ _ _ _ _ _ _ _ H') as (T & _ & _ & _ & B & C).
  split; [exact H2'|]. split; [exact H'|].
  rewrite C, C2, C1, T, T1, T2, B, B1, B2, compound_app, length_app, map_app,
    list_sum_app.
  auto.
Qed.

Lemma analysis_of_concatenation_witness :
  exists a1 a2 a,
    snd (analyze noAverage noAverage noStd noSqrt (mkDate 0) 1000 firstTrade None)
    = Ok a1 /\
    Analysis.finalCapital a1 = 1100 /\
    snd (analyze noAverage noAverage noStd noSqrt (mkDate 0) 1100 secondTrade None)
    = Ok a2 /\
    snd (analyze noAverage noAverage noStd noSqrt (mkDate 0) 1000
                 (firstTrade ++ secondTrade) None) = Ok a /\
    Analysis.finalCapital a = Analysis.finalCapital a2 /\
    Analysis.finalCapital a = 1045.
Proof.
  destruct (@analysis_of_concatenation noAverage noAverage noStd noSqrt (mkDate 0)
              1000 firstTrade secondTrade _ eq_refl eq_refl eq_refl)
    as (a2 & a & H2 & H & Hc & _).
  eexists _, a2, a. split; [reflexivity|]. split; [reflexivity|].
  split; [exact H2|]. split; [exact H|]. split; [exact Hc|].
  vm_compute in H. injection H as <-. reflexivity.
Defined.

(** ** Errors of the date-range block and of the scatter loop *)

Lemma to_Z_of_Z (z : Z) : to_Z (of_Z z) = Some z.
Proof.
  unfold to_Z, of_Z. rewrite Qfloor_Z.
  now rewrite (proj2 (Qeq_bool_iff _ _) (Qeq_refl (inject_Z z))).
Qed.

Lemma new_Array_negative (q : Q) :
  (q < 0)%Q ->
  new_Array (Math_floor (Fin q)) = Throw "RangeError: Invalid array length".
Proof.
  intro Hq. unfold new_Array, Math_floor. rewrite to_Z_of_Z.
  assert (Hz : (Qfloor q < 0)%Z).
  { rewrite Zlt_Qlt. eapply Qle_lt_trans; [apply Qfloor_le|exact Hq]. }
  destruct (Z.leb_spec 0 (Qfloor q)); [lia|reflexivity].
Qed.

(** A date range that ends before it starts makes [analyze] throw a
    RangeError, whatever the trades are, once the starting capital has
    passed its check (a finite number greater than zero): with a positive
    timeframe the bar count of the range is negative and [Array(barCount)]
    is refused.  The [options] object is left as passed. *)
Theorem analyze_inverted_range_throws :
  forall (Series_average Series_std : list (option num) -> num)
         (math_std : list num -> num) (Math_sqrt : num -> num) (now : Date)
         (startingCapital : num) (trades : list ITrade)
         (options : AnalyzeOptions) (starting ending : Date) (s e t : Q),
    is_finite startingCapital = true ->
    (startingCapital <=? 0) = false ->
    Opt.startingDate options = Some starting ->
    Opt.endingDate options = Some ending ->
    getTime starting = Fin s -> getTime ending = Fin e ->
    timeframeFor trades (Some options) = Fin t ->
    (0 < t)%Q -> (e < s)%Q ->
    analyze Series_average Series_std math_std Math_sqrt now
            startingCapital trades (Some options)
    = (Some options, Throw "RangeError: Invalid array length").
Proof.
  intros avg std mstd sqrt now startingCapital trades options starting ending
         s e t Hfin Hcap Hs He Hgs Hge Htf Ht Hlt.
  unfold analyze. rewrite (@capital_accepted _ Hfin Hcap). unfold dateRangeBlock.
  rewrite Hs, Htf, He.
  assert (Htruthy : truthy (Fin t) = true).
  { cbn. apply negb_true_iff. destruct (Qeq_bool t 0) eqn:E; [|reflexivity].
    apply Qeq_bool_iff in E. rewrite E in Ht. now apply Qlt_irrefl in Ht. }
  rewrite Htruthy. cbv zeta. rewrite He. cbn [nullish]. rewrite Hgs, Hge.
  unfold Num.sub. rewrite (div_Fin_pos _ Ht).
  rewrite new_Array_negative; [reflexivity|].
  rewrite !Qred_correct.
  apply Qlt_shift_div_r; [exact Ht|]. lra.
Qed.

Lemma analyze_inverted_range_throws_witness :
  analyze noAverage noAverage noStd noSqrt (mkDate 0) 1000 []
          (Some (Opt.mkAnalyzeOptions (Some (mkDate 1000)) (Some (mkDate 0)) (Some 1)))
  = (Some (Opt.mkAnalyzeOptions (Some (mkDate 1000)) (Some (mkDate 0)) (Some 1)),
     Throw "RangeError: Invalid array length").
Proof.
  apply (@analyze_inverted_range_throws noAverage noAverage noStd noSqrt (mkDate 0)
           1000 []
           (Opt.mkAnalyzeOptions (Some (mkDate 1000)) (Some (mkDate 0)) (Some 1))
           (mkDate 1000) (mkDate 0) 1000%Q 0%Q 1%Q);
    reflexivity.
Defined.

Lemma analyzeLoop_missing_series (tf : num) (opts : option AnalyzeOptions)
    (trades : list ITrade) :
  forall acc,
    isSome (Acc.rateOfReturnList acc) = true ->
    Exists (fun trade => Trade.rateOfReturnSeries trade = None) trades ->
    analyzeLoop tf opts trades acc
    = Throw "TypeError: Cannot read properties of undefined".
Proof.
  induction trades as [|t rest IH]; intros acc Hl Hex.
  - inversion Hex.
  - simpl.
    destruct (analyzeStep tf opts acc t) as [a|msg] eqn:E.
    + cbn [bind].
      pose proof (@analyzeStep_counts _ _ _ _ _ E) as (_ & _ & _ & _ & _ & Ha).
      apply IH; [congruence|].
      inversion Hex as [? ? Hnone|]; subst; [|assumption].
      exfalso. unfold analyzeStep in E.
      destruct (Acc.rateOfReturnList acc); [|discriminate].
      rewrite Hnone in E. discriminate.
    + cbn [bind]. unfold analyzeStep in E.
      destruct (Acc.rateOfReturnList acc) as [l|]; [|discriminate].
      destruct (Trade.rateOfReturnSeries t), opts as [o|];
        try (cbn in E; injection E as <-; reflexivity).
      destruct (Opt.startingDate o).
      * cbn [bind] in E. exfalso.
        destruct (Acc.workingCapital acc * Trade.growth t <? Acc.peakCapital acc);
          destruct (Trade.profit t >? 0); discriminate.
      * cbn in E. injection E as <-. reflexivity.
Qed.

(** Over a date range, [analyze] needs the rate-of-return series of every
    trade: for a starting capital that passes its check (a finite number
    greater than zero), once the range block has allocated its list, a
    trade recorded without [rateOfReturnSeries] makes the call throw a
    TypeError. *)
Theorem analyze_missing_series_throws :
  forall (Series_average Series_std : list (option num) -> num)
         (math_std : list num -> num) (Math_sqrt : num -> num) (now : Date)
         (startingCapital : num) (trades : list ITrade)
         (options options' : option AnalyzeOptions) (list_ : list (option num)),
    is_finite startingCapital = true ->
    (startingCapital <=? 0) = false ->
    dateRangeBlock now (timeframeFor trades options) options
    = (options', Ok (Some list_)) ->
    Exists (fun trade => Trade.rateOfReturnSeries trade = None) trades ->
    analyze Series_average Series_std math_std Math_sqrt now
            startingCapital trades options
    = (options', Throw "TypeError: Cannot read properties of undefined").
Proof.
  intros avg std mstd sqrt now startingCapital trades options options' list_
         Hfin Hcap Hblock Hex.
  unfold analyze. rewrite (@capital_accepted _ Hfin Hcap), Hblock. cbn [bind].
  rewrite analyzeLoop_missing_series; [reflexivity|reflexivity|exact Hex].
Qed.

Lemma analyze_missing_series_throws_witness :
  exists options',
    analyze noAverage noAverage noStd noSqrt (mkDate 0) 1000 twoTrades
            (Some (Opt.mkAnalyzeOptions (Some (mkDate 0)) (Some (mkDate 10)) (Some 1)))
    = (options', Throw "TypeError: Cannot read properties of undefined").
Proof.
  eexists.
  eapply (@analyze_missing_series_throws noAverage noAverage noStd noSqrt
            (mkDate 0) 1000 twoTrades).
  - reflexivity.
  - reflexivity.
  - reflexivity.
  - left. reflexivity.
Defined.


(** * The pace of trades *)

Section Pace.

Variable P : Type.
Variable strategy : IStrategy P.
Variable options : IBacktestOptions.
Variable lookback : nat.
Variable params : option P.
Variable fee : num.

Lemma loopBody_pace (b : IBar) (st st' : State) :
  loopBody strategy options lookback params fee b st = Ok st' ->
  (3 * List.length (completedTrades st') + barsTaken (positionStatus st')
   <= 3 * List.length (completedTrades st) + barsTaken (positionStatus st) + 1)%nat.
Proof.
  intro H. unfold loopBody in H.
  set (st0 := set_lookbackBuffer _ st) in H.
  assert (H0 : completedTrades st0 = completedTrades st /\
               positionStatus st0 = positionStatus st)
    by (destruct st; auto).
  destruct H0 as (<- & <-). clearbody st0.
  destruct (Nat.ltb _ lookback); [injection H as <-; lia|].
  destruct (positionStatus st0) eqn:Es.
  - unfold caseNone in H.
    apply call_enterPosition_frame in H as (Hst & _ & -> & _).
    rewrite Es in Hst. destruct Hst as [-> | [_ ->]]; cbn; lia.
  - unfold caseEnter in H. inv_bind H. cbn zeta in H. inv_bind H.
    injection H as <-.
    apply exitOnCondition_frame in E0 as (Hst & _ & Ec & _).
    replace (completedTrades (set_openPosition _ a0)) with (completedTrades a0)
      by (destruct a0; reflexivity).
    replace (positionStatus (set_openPosition _ a0)) with (positionStatus a0)
      by (destruct a0; reflexivity).
    rewrite Ec.
    replace (completedTrades (set_positionStatus Position (set_openPosition _ st0)))
      with (completedTrades st0) by (destruct st0; reflexivity).
    replace (positionStatus (set_positionStatus Position (set_openPosition _ st0)))
      with Position in Hst by (destruct st0; reflexivity).
    destruct Hst as [-> | ->]; cbn; lia.
  - unfold casePosition in H. inv_bind H.
    destruct (openPosition st0); [|discriminate].
    cbn zeta in H. do 4 inv_bind H. injection H as <-.
    apply exitOnCondition_frame in E2 as (Hst & _ & Ec & _).
    replace (completedTrades (set_openPosition _ a2)) with (completedTrades a2)
      by (destruct a2; reflexivity).
    replace (positionStatus (set_openPosition _ a2)) with (positionStatus a2)
      by (destruct a2; reflexivity).
    rewrite Ec.
    replace (completedTrades (set_openPosition _ st0)) with (completedTrades st0)
      by (destruct st0; reflexivity).
    replace (positionStatus (set_openPosition _ st0)) with Position in Hst
      by (destruct st0; cbn in *; congruence).
    destruct Hst as [-> | ->]; cbn; lia.
  - unfold caseExit, closePosition in H. inv_bind H.
    destruct (openPosition st0); [|discriminate]. injection H as <-.
    destruct st0; cbn. rewrite length_app. cbn. lia.
Qed.

Lemma forOf_pace (bars : list IBar) :
  forall st st',
    forOf strategy options lookback params fee bars st = Ok st' ->
    (3 * List.length (completedTrades st') + barsTaken (positionStatus st')
     <= 3 * List.length (completedTrades st) + barsTaken (positionStatus st)
        + List.length bars)%nat.
Proof.
  induction bars as [|b rest IH]; simpl; intros st st' H.
  - injection H as <-. lia.
  - inv_bind H. apply loopBody_pace in E. apply IH in H. lia.
Qed.

End Pace.

(** The deferred transitions pace the trades: a trade takes a signal bar,
    an entry bar and a closing bar, the last trade possibly finalized
    without its closing bar, so [backtest] returns at most [(n + 1) / 3]
    trades over [n] bars. *)
Theorem one_trade_per_three_bars :
  forall (P : Type) (strategy : IStrategy P) (bars : list IBar)
         (options : option IBacktestOptions) (trades : list ITrade),
    backtest strategy bars options = Ok trades ->
    (3 * List.length trades
     <= List.length (indicatorsOf strategy bars) + 1)%nat.
Proof.
  intros P strategy bars options trades H.
  apply backtest_inv in H as (tf & st & _ & Hrun & Hend).
  assert (Hag : statusAgrees st).
  { unfold runLoop in Hrun.
    eapply forOf_statusAgrees; [|exact Hrun]. apply initialState_statusAgrees. }
  unfold runLoop in Hrun. apply forOf_pace in Hrun. cbn in Hrun.
  destruct Hend as [[_ ->] | (p & lastBar & Ho & _ & ->)]; [lia|].
  rewrite length_app. cbn [List.length].
  unfold statusAgrees in Hag.
  destruct (positionStatus st); cbn in Hrun; try lia; congruence.
Qed.

Lemma one_trade_per_three_bars_witness :
  exists trades,
    backtest stop5 (gapDownFront ++ [bar 2 90 92 88 91; bar 3 91 91 91 91;
                                     bar 4 91 91 91 91; bar 5 91 91 91 91]) None
    = Ok trades /\
    List.length trades = 2%nat /\
    (3 * List.length trades <= 6 + 1)%nat.
Proof.
  eexists. split; [vm_compute; reflexivity|]. split; [reflexivity|].
  exact (@one_trade_per_three_bars unit stop5
           (gapDownFront ++ [bar 2 90 92 88 91; bar 3 91 91 91 91;
                             bar 4 91 91 91 91; bar 5 91 91 91 91]) None _ eq_refl).
Defined.


Section Budget.

Variable P : Type.
Variable strategy : IStrategy P.
Variable options : IBacktestOptions.
Variable lookback : nat.
Variable params : option P.
Variable fee : num.

Lemma barsSpent_app (l1 l2 : list ITrade) :
  barsSpent (l1 ++ l2) = (barsSpent l1 + barsSpent l2)%nat.
Proof. unfold barsSpent. now rewrite map_app, list_sum_app. Qed.

Lemma loopBody_budget (b : IBar) (st st' : State) :
  statusAgrees st ->
  loopBody strategy options lookback params fee b st = Ok st' ->
  (barsSpent (completedTrades st') + barsUsed st'
   <= barsSpent (completedTrades st) + barsUsed st + 1)%nat.
Proof.
  intros Hag H. unfold loopBody in H.
  set (st0 := set_lookbackBuffer _ st) in H.
  assert (H0 : completedTrades st0 = completedTrades st /\
               barsUsed st0 = barsUsed st /\ statusAgrees st0)
    by (destruct st; auto).
  destruct H0 as (<- & <- & Hag0). clearbody st0. clear Hag.
  destruct (Nat.ltb _ lookback); [injection H as <-; lia|].
  unfold statusAgrees in Hag0. unfold barsUsed at 2.
  destruct (positionStatus st0) eqn:Es.
  - unfold caseNone in H.
    apply call_enterPosition_frame in H as (Hst & _ & -> & _).
    unfold barsUsed. rewrite Es in Hst.
    destruct Hst as [-> | [_ ->]]; lia.
  - unfold caseEnter in H. inv_bind H. cbn zeta in H. inv_bind H.
    injection H as <-.
    fold (entered strategy options params b st0) in *.
    apply exitOnCondition_frame in E0 as (Hst & _ & Ec & _).
    replace (positionStatus (set_positionStatus Position (set_openPosition _ st0)))
      with Position in Hst by (destruct st0; reflexivity).
    replace (completedTrades (set_positionStatus Position (set_openPosition _ st0)))
      with (completedTrades st0) in Ec by (destruct st0; reflexivity).
    set (q := updateRunUp b _).
    assert (Hq : holdingPeriod q = 0%nat).
    { unfold q.
      destruct (updateRunUp_footprint b
                  (applyTrailingStop strategy options params b a0
                     (entered strategy options params b st0)))
        as (_ & _ & -> & _).
      destruct (applyTrailingStop_identity strategy options params b a0
                  (entered strategy options params b st0)) as (_ & _ & _ & ->).
      apply entered_identity. }
    clearbody q. unfold barsUsed.
    destruct a0 as [ct ps ep er pd op lb];
      cbn [completedTrades positionStatus openPosition set_openPosition] in *.
    subst ct.
    destruct Hst as [-> | ->]; cbv beta iota; rewrite Hq;
      unfold barsSpent, list_sum; lia.
  - destruct Hag0 as (p & Ho).
    unfold casePosition in H. rewrite Ho in H.
    cbn [isSome assert bind] in H. do 4 inv_bind H. injection H as <-.
    apply exitOnCondition_frame in E1 as (Hst & _ & Ec & _).
    replace (positionStatus (set_openPosition _ st0)) with Position in Hst
      by (destruct st0; cbn in *; congruence).
    replace (completedTrades (set_openPosition _ st0))
      with (completedTrades st0) in Ec by (destruct st0; reflexivity).
    footprint E. footprint E0. footprint E2.
    destruct (updatePosition_footprint p b) as (_ & _ & _ & H0 & _).
    destruct F as (_ & _ & _ & H1 & _), F0 as (_ & _ & _ & H2 & _),
             F1 as (_ & _ & _ & H3 & _).
    destruct (updateRunUp_footprint b a2) as (_ & _ & H4 & _).
    set (q := updateRunUp b a2) in *.
    assert (Hq : holdingPeriod q = S (holdingPeriod p)) by congruence.
    clearbody q. unfold barsUsed. rewrite Ho.
    destruct a1 as [ct ps ep er pd op lb]; cbn in *. subst ct.
    destruct Hst as [-> | ->]; cbv beta iota; rewrite ?Hq;
      unfold barsSpent, list_sum; lia.
  - destruct Hag0 as (p & Ho). rewrite Ho.
    unfold caseExit, closePosition in H. rewrite Ho in H.
    cbn [isSome assert bind] in H. injection H as <-.
    set (trade := finalizePosition p _ _ _ fee).
    assert (Ht : Trade.holdingPeriod trade = S (holdingPeriod p))
      by apply finalizePosition_footprint.
    clearbody trade.
    match goal with
    | |- (barsSpent (completedTrades ?s) + barsUsed ?s <= _)%nat =>
        replace (completedTrades s) with (completedTrades st0 ++ [trade])
          by (destruct st0; reflexivity);
        replace (barsUsed s) with 0%nat by (destruct st0; reflexivity)
    end.
    rewrite barsSpent_app. unfold barsSpent at 2. cbn [map list_sum].
    rewrite Ht. unfold list_sum, fold_right. lia.
Qed.

Lemma forOf_budget (bars : list IBar) :
  forall st st',
    statusAgrees st ->
    forOf strategy options lookback params fee bars st = Ok st' ->
    (barsSpent (completedTrades st') + barsUsed st'
     <= barsSpent (completedTrades st) + barsUsed st + List.length bars)%nat.
Proof.
  induction bars as [|b rest IH]; simpl; intros st st' Hag H.
  - injection H as <-. lia.
  - inv_bind H.
    pose proof (@loopBody_statusAgrees _ _ _ _ _ _ _ _ _ Hag E) as Hag'.
    apply loopBody_budget in E; [|exact Hag]. apply IH in H; [|exact Hag']. lia.
Qed.

End Budget.

(** The holding periods fit the series: every trade takes its holding
    period and two more bars (signal and entry), the last trade one bar
    less when it is finalized at the end, so the holding periods plus two
    bars per trade add up to at most the number of bars plus one. *)
Theorem holding_periods_fit_the_series :
  forall (P : Type) (strategy : IStrategy P) (bars : list IBar)
         (options : option IBacktestOptions) (trades : list ITrade),
    backtest strategy bars options = Ok trades ->
    (list_sum (map Trade.holdingPeriod trades) + 2 * List.length trades
     <= List.length (indicatorsOf strategy bars) + 1)%nat.
Proof.
  intros P strategy bars options trades H.
  assert (Hsum : forall l : list ITrade,
             (list_sum (map Trade.holdingPeriod l) + 2 * List.length l)%nat
             = barsSpent l).
  { induction l as [|t l IH]; [reflexivity|].
    unfold barsSpent, list_sum in *.
    cbn [map fold_right List.length]. lia. }
  rewrite Hsum.
  apply backtest_inv in H as (tf & st & _ & Hrun & Hend).
  assert (Hag : statusAgrees st).
  { unfold runLoop in Hrun.
    eapply forOf_statusAgrees; [|exact Hrun]. apply initialState_statusAgrees. }
  unfold runLoop in Hrun.
  apply forOf_budget in Hrun; [|apply initialState_statusAgrees].
  cbn in Hrun.
  destruct Hend as [[_ ->] | (p & lastBar & Ho & _ & ->)]; [lia|].
  rewrite barsSpent_app. unfold barsSpent at 2, list_sum.
  cbn [map fold_right].
  match goal with
  | |- context [finalizePosition ?p ?t ?x ?r ?f] =>
      destruct (finalizePosition_footprint p t x r f) as (-> & _)
  end.
  unfold statusAgrees in Hag. unfold barsUsed in Hrun. rewrite Ho in *.
  destruct (positionStatus st); try discriminate; lia.
Qed.

Lemma holding_periods_fit_the_series_witness :
  exists trade,
    backtest trailing5 ratchetBars None = Ok [trade] /\
    Trade.holdingPeriod trade = 3%nat /\
    (list_sum (map Trade.holdingPeriod [trade]) + 2 * 1 <= 4 + 1)%nat.
Proof.
  eexists. split; [vm_compute; reflexivity|]. split; [reflexivity|].
  exact (@holding_periods_fit_the_series unit trailing5 ratchetBars None _ eq_refl).
Defined.
